(** * Event dispatch, last-write-wins merge and relay reputation
      (src/agent/sync.ts)

    A shallow embedding of the synchronisation core.  The entity tables are
    finite maps, the handlers are state transformers in a small
    state-and-exception monad (a JavaScript [throw] keeps the writes made
    before it), and the helpers imported from modules that are not part of
    the verified sources are gathered in the record [Externals].

    Numbers: protocol timestamps and the clock are integers (unix seconds);
    route scores are exact rationals, so the arithmetic of [addRoute] is the
    arithmetic the source writes, without binary64 rounding; the scoring
    example is also evaluated on doubles.  The clock is read once per batch.

    Events are records with all their fields, tags being a list of string
    lists of any length; what is malformed about an event is its content and
    which tags it has. *)

From Stdlib Require Import ZArith QArith Lia Lqa Ascii PrimFloat SpecFloat
  FloatOps.
From Corelib Require Import PrimInt63.
From stdpp Require Import base option list strings gmap pretty.

Set Default Proof Using "Type".

(** ** JavaScript values *)

(** The values [JSON.parse] can return.  An object is the list of its own
    enumerable entries in enumeration order (keys are distinct in a parsed
    object). *)
#[warnings="-register-all"]
Inductive json : Type :=
  | JNull
  | JBool (b : bool)
  | JNum (q : Q)
  | JStr (s : string)
  | JArr (l : list json)
  | JObj (kvs : list (string * json)).

(** [undefined] is [None]; a timestamp read from a row is a number or
    [undefined]. *)
Definition js_lt (a : Z) (b : option Z) : bool :=
  match b with
  | Some b => (a <? b)%Z
  | None => false (* any comparison with undefined is false *)
  end.

Definition truthy_string (s : string) : bool :=
  match s with EmptyString => false | _ => true end.

(** ToBoolean on a parsed value. *)
Definition truthy (v : json) : bool :=
  match v with
  | JNull => false
  | JBool b => b
  | JNum q => negb (Qnum q =? 0)%Z
  | JStr s => truthy_string s
  | JArr _ | JObj _ => true
  end.

Definition truthy_opt (v : option json) : bool :=
  match v with Some v => truthy v | None => false end.

(** First entry with the given key. *)
Fixpoint assoc (k : string) (kvs : list (string * json)) : option json :=
  match kvs with
  | [] => None
  | (k', v) :: kvs => if String.eqb k k' then Some v else assoc k kvs
  end.

(** ** Results of possibly throwing expressions *)

Inductive result (A : Type) : Type :=
  | Ok (a : A)
  | Throw.
Arguments Ok {A} a.
Arguments Throw {A}.

#[global] Instance result_ret : MRet result := @Ok.
#[global] Instance result_bind : MBind result := fun A B k r =>
  match r with Ok a => k a | Throw => Throw end.

(** [JSON.parse] and the like: [None] from the helper is a throw. *)
Definition of_option {A} (o : option A) : result A :=
  match o with Some a => Ok a | None => Throw end.

(** [xs.map(f)] for a callback that may throw. *)
Fixpoint mapR {A B} (f : A → result B) (xs : list A) : result (list B) :=
  match xs with
  | [] => Ok []
  | x :: xs => y ← f x; ys ← mapR f xs; Ok (y :: ys)
  end.

(** [v.k] for a name [k] that is neither an array index nor a built-in
    property: a [TypeError] on [null], the own property on an object and
    [undefined] on everything else. *)
Definition get_prop (v : json) (k : string) : result (option json) :=
  match v with
  | JNull => Throw
  | JObj kvs => Ok (assoc k kvs)
  | _ => Ok None
  end.

(** [v?.k] where [v] may also be [undefined]. *)
Definition get_prop_opt (v : option json) (k : string) : option json :=
  match v with
  | Some (JObj kvs) => assoc k kvs
  | _ => None
  end.

Fixpoint index_entries {A} (i : nat) (l : list A) : list (string * A) :=
  match l with
  | [] => []
  | x :: l => (pretty i, x) :: index_entries (S i) l
  end.

Fixpoint chars (s : string) : list json :=
  match s with
  | EmptyString => []
  | String c s => JStr (String c EmptyString) :: chars s
  end.

(** Own enumerable entries, as object spread and [Object.entries] see them
    on a value that is not [null]. *)
Definition own_entries (v : json) : list (string * json) :=
  match v with
  | JObj kvs => kvs
  | JArr l => index_entries 0 l
  | JStr s => index_entries 0 (chars s)
  | _ => []
  end.

(** [Object.entries(v)]: throws on [null]. *)
Definition Object_entries (v : json) : result (list (string * json)) :=
  match v with
  | JNull => Throw
  | _ => Ok (own_entries v)
  end.

(** A stored object, as a finite map: later entries overwrite earlier ones. *)
Definition obj_of_entries (kvs : list (string * json)) : gmap string json :=
  fold_left (fun m kv => <[kv.1 := kv.2]> m) kvs ∅.

(** [{...old, ...v}] for a stored object [old] (or [undefined]) and a parsed
    value [v]. *)
Definition spread (old : option (gmap string json)) (v : json)
  : gmap string json :=
  obj_of_entries (own_entries v) ∪ default ∅ old.

(** ramda's [pick]: [name in obj] throws on [null] and on primitives as soon
    as there is a name to test. *)
Definition pick (names : list string) (v : json) : result (gmap string json) :=
  let from_entries kvs :=
    let m := obj_of_entries kvs in
    Ok (list_to_map
          (omap (fun k => (fun x => (k, x)) <$> m !! k) names)) in
  match names, v with
  | [], _ => Ok ∅
  | _, JObj kvs => from_entries kvs
  | _, JArr _ => Ok ∅
  | _, _ => Throw
  end.

(** ramda's [uniq]: the first occurrence of each element is kept. *)
Fixpoint uniq_acc (seen l : list string) : list string :=
  match l with
  | [] => []
  | x :: l =>
      if bool_decide (x ∈ seen) then uniq_acc seen l
      else x :: uniq_acc (x :: seen) l
  end.
Definition uniq (l : list string) : list string := uniq_acc [] l.

(** ** Strings *)

Fixpoint startsWith (p s : string) : bool :=
  match p, s with
  | EmptyString, _ => true
  | String a p, String b s => if Ascii.eqb a b then startsWith p s else false
  | String _ _, EmptyString => false
  end.

(** [s.split(c)] for a one-character separator. *)
Fixpoint split (c : Ascii.ascii) (s : string) : list string :=
  match s with
  | EmptyString => [EmptyString]
  | String a s =>
      if Ascii.eqb a c then EmptyString :: split c s
      else match split c s with
           | [] => [String a EmptyString]
           | w :: ws => String a w :: ws
           end
  end.

(** [s.includes(c)] for a one-character needle. *)
Definition includes (c : Ascii.ascii) (s : string) : bool :=
  bool_decide (1 < length (split c s)).

(** [toLowerCase] on the ASCII letters. *)
Definition lower_ascii (a : Ascii.ascii) : Ascii.ascii :=
  let n := Ascii.nat_of_ascii a in
  if bool_decide (65 ≤ n ≤ 90) then Ascii.ascii_of_nat (n + 32) else a.

Fixpoint toLowerCase (s : string) : string :=
  match s with
  | EmptyString => EmptyString
  | String a s => String (lower_ascii a) (toLowerCase s)
  end.

(** ** Data model *)

Definition Tag := list string.

Record Event := mkEvent {
  ev_id : string;
  ev_pubkey : string;
  ev_kind : Z;
  created_at : Z;
  content : string;
  tags : list Tag;
}.

(** One entry of a relay list of the user profile. *)
Record RelayEntry := mkRelayEntry {
  re_url : option string;
  re_read : option bool;
  re_write : option bool;
}.

(** The fields [updatePerson] patches; [None] is an absent field. *)
Record PersonData := mkPersonData {
  kind0 : option (gmap string json);
  kind0_updated_at : option Z;
  petnames : option (list Tag);
  petnames_updated_at : option Z;
  verified_as : option string;
  lnurl : option string;
  zapper : option (gmap string json);
}.

Definition no_data : PersonData :=
  mkPersonData None None None None None None None.

(** A row of the [people] table, keyed by [pubkey]. *)
Record Person := mkPerson {
  person_updated_at : option Z;
  person_data : PersonData;
}.

(** The singleton user profile. *)
Record Profile := mkProfile {
  profile_pubkey : option string;
  profile_data : PersonData;
  relays_of : list RelayEntry;
  relays_updated_at : option Z;
  mutes : list Tag;
  mutes_updated_at : option Z;
}.

(** A row of the [rooms] table, keyed by [id]. *)
Record Room := mkRoom {
  room_pubkey : option string;
  room_updated_at : option Z;
  room_attrs : gmap string json;
}.

(** A row of the [routes] table, keyed by [id]. *)
Record Route := mkRoute {
  route_id : string;
  route_pubkey : string;
  route_url : string;
  route_mode : string;
  score : Q;
  count : nat;
  types : list string;
  last_seen : option Z;
}.

(** A row of the [relays] table, keyed by [url]; this module only ever
    patches the key, the other columns belong to other modules. *)
Record RelayRow := mkRelayRow {
  relay_info : option json;
}.

(** A verification lookup that was started and not awaited. *)
Inductive Lookup :=
  | LookupNip05 (pubkey : string) (as_ : json)
  | LookupZapper (pubkey : string) (address : string).

Record State := mkState {
  people : gmap string Person;
  profile : Profile;
  rooms : gmap string Room;
  routes : gmap string Route;
  relays : gmap string RelayRow;
  userEvents : gmap string Event;
  lookups : list Lookup;
}.

(** ** Helpers imported from other modules *)

(** [src/util/misc] and [src/util/nostr] are outside the verified sources;
    their functions are parameters of the development.  A function that can
    throw returns [None] when it does. *)
Record Externals := mkExternals {
  JSON_parse : string → option json;
  isRelay : string → bool;
  (* applied to a tag component, which is [undefined] on a short tag *)
  isShareableRelay : option string → bool;
  normalizeRelayUrl : string → string;
  hash : string → string;
  hexToBech32 : string → string → string;
  bech32ToHex : string → option string;
  roomAttrs : list string;
  uniqByUrl : list RelayEntry → list RelayEntry;
}.

(** Modelled from the spec: [timedelta(30, "days")] of [src/util/misc] is
    missing; the decay window is thirty days in seconds. *)
Definition thirty_days : Z := 30 * 86400.

(** ** The state-and-exception monad of the handlers *)

Definition M (A : Type) : Type := State → result A * State.

Definition ret {A} (a : A) : M A := fun s => (Ok a, s).

Definition bind {A B} (m : M A) (k : A → M B) : M B :=
  fun s =>
    match m s with
    | (Ok a, s') => k a s'
    | (Throw, s') => (Throw, s')
    end.

Definition throw {A} : M A := fun s => (Throw, s).

Definition lift {A} (r : result A) : M A := fun s => (r, s).

Definition modify (f : State → State) : M unit := fun s => (Ok tt, f s).

Definition gets {A} (f : State → A) : M A := fun s => (Ok (f s), s).

#[global] Instance M_ret : MRet M := @ret.
#[global] Instance M_bind : MBind M := fun A B k m => bind m k.

(** [tryJson(f)]: whatever [f] throws is swallowed and the call yields
    [undefined]; what [f] wrote before throwing stays written. *)
Definition tryJson {A} (m : M A) : M (option A) :=
  fun s =>
    match m s with
    | (Ok a, s') => (Ok (Some a), s')
    | (Throw, s') => (Ok None, s')
    end.

(** [xs.forEach(f)] *)
Fixpoint forEach {A} (f : A → M unit) (xs : list A) : M unit :=
  match xs with
  | [] => ret tt
  | x :: xs => f x;; forEach f xs
  end.

(** ** Routes *)

Definition getWeight (type : string) : option Q :=
  if String.eqb type "nip05" then Some 1%Q
  else if String.eqb type "kind:10002" then Some 1%Q
  else if String.eqb type "kind:3" then Some (8 # 10)%Q
  else if String.eqb type "kind:2" then Some (5 # 10)%Q
  else None.

(** The evidence score; [None] is [NaN], the product with an [undefined]
    weight.  The store of this development keeps the exact rational value of
    the expression; the source evaluates it on binary64 doubles, which
    [evidence_b64] below does.  The two have the same sign (rounding to
    nearest is monotone, and 0 and 1 are doubles), and the sign is all the
    control flow of [addRoute] reads; the value itself is rounded, see
    [running_average_rounds]. *)
Definition evidence (now : Z) (type : string) (observed : Z) : option Q :=
  w ← getWeight type;
  Some (w * (1 - inject_Z (now - observed) / inject_Z thirty_days))%Q.

(** [score > 0], false on [NaN]. *)
Definition positive (sc : option Q) : bool :=
  match sc with
  | Some q => (0 <? Qnum q)%Z
  | None => false
  end.

(** [relays.patch({url})]: the row is created when missing and keeps its
    other columns otherwise. *)
Definition relays_patch (url : string) (s : State) : State :=
  mkState (people s) (profile s) (rooms s) (routes s)
    (<[url := default (mkRelayRow None) (relays s !! url)]> (relays s))
    (userEvents s) (lookups s).

Definition routes_put (r : Route) (s : State) : State :=
  mkState (people s) (profile s) (rooms s) (<[route_id r := r]> (routes s))
    (relays s) (userEvents s) (lookups s).

Section Sync.

Variable X : Externals.

(** The id of the route of a triple. *)
Definition route_key (pubkey url mode : string) : string :=
  hash X (pubkey +:+ url +:+ mode).

(** The row [addRoute] stores when the score [sc] is positive.  The score
    column is the exact rational value of the two expressions; the source
    computes them on doubles, as [fold_b64] does. *)
Definition fold_route (route : Route) (type : string) (sc : Q)
    (observed : Z) : Route :=
  let newTotalScore := (score route * inject_Z (Z.of_nat (count route)) + sc)%Q in
  let newCount := S (count route) in
  mkRoute (route_id route) (route_pubkey route) (route_url route)
    (route_mode route)
    (newTotalScore / inject_Z (Z.of_nat newCount))%Q
    newCount
    (uniq (types route ++ [type]))
    (* [route.last_seen || 0]: zero when absent *)
    (Some (Z.max observed (default 0%Z (last_seen route)))).

Definition addRoute (now : Z) (pubkey : string) (rawUrl : option string)
    (type mode : string) (observed : Z) : M unit :=
  if negb (isShareableRelay X rawUrl) then ret tt
  else
    match rawUrl with
    | None => throw (* a method call on [undefined] in normalizeRelayUrl *)
    | Some rawUrl =>
        let url := normalizeRelayUrl X rawUrl in
        let id := route_key pubkey url mode in
        let sc := evidence now type observed in
        let defaults := mkRoute id pubkey url mode 0 0 [] None in
        stored ← gets (fun s => routes s !! id);
        let route := default defaults stored in
        if positive sc then
          modify (relays_patch (route_url route));;
          modify (routes_put (fold_route route type (default 0%Q sc) observed))
        else ret tt
    end.

(** ** People *)

(** [{...old, ...patch}] on the patched fields. *)
Definition over {A} (new old : option A) : option A :=
  match new with Some _ => new | None => old end.

Definition merge_data (patch old : PersonData) : PersonData :=
  mkPersonData
    (over (kind0 patch) (kind0 old))
    (over (kind0_updated_at patch) (kind0_updated_at old))
    (over (petnames patch) (petnames old))
    (over (petnames_updated_at patch) (petnames_updated_at old))
    (over (verified_as patch) (verified_as old))
    (over (lnurl patch) (lnurl old))
    (over (zapper patch) (zapper old)).

(** [people.patch({pubkey, updated_at, ...data})] *)
Definition people_patch (pubkey : string) (updated_at : Z) (data : PersonData)
    (s : State) : State :=
  let old := default no_data (person_data <$> people s !! pubkey) in
  mkState
    (<[pubkey := mkPerson (Some updated_at) (merge_data data old)]> (people s))
    (profile s) (rooms s) (routes s) (relays s) (userEvents s) (lookups s).

(** [user.profile.update(f)] *)
Definition profile_update (f : Profile → Profile) (s : State) : State :=
  mkState (people s) (f (profile s)) (rooms s) (routes s) (relays s)
    (userEvents s) (lookups s).

Definition profile_merge (data : PersonData) (p : Profile) : Profile :=
  mkProfile (profile_pubkey p) (merge_data data (profile_data p))
    (relays_of p) (relays_updated_at p) (mutes p) (mutes_updated_at p).

(** [user.getPubkey()] *)
Definition getPubkey (s : State) : option string := profile_pubkey (profile s).

Definition updatePerson (now : Z) (pubkey : string) (data : PersonData)
    : M unit :=
  modify (people_patch pubkey now data);;
  (* If our pubkey matches, copy to our user's profile as well *)
  me ← gets getPubkey;
  if bool_decide (me = Some pubkey)
  then modify (profile_update (profile_merge data))
  else ret tt.

(** A lookup is started and not awaited: the handler only records it. *)
Definition start (l : Lookup) : M unit :=
  modify (fun s =>
    mkState (people s) (profile s) (rooms s) (routes s) (relays s)
      (userEvents s) (lookups s ++ [l])).

(** What [nip05.queryProfile] resolves to. *)
Record Nip05Result := mkNip05Result {
  nr_pubkey : option string;
  nr_relays : option (list string);
}.

(** [relays.bulkPatch(rows)] *)
Definition relays_bulkPatch (urls : list string) (s : State) : State :=
  foldl (fun s url => relays_patch url s) s urls.

(** The continuation of [verifyNip05], run when the lookup of the name [as_]
    has resolved to [res] ([None]: it resolved to nothing; a rejection runs
    [noop]). *)
Definition verifyNip05 (now : Z) (pubkey : string) (as_ : string)
    (res : option Nip05Result) : M unit :=
  if bool_decide (res ≫= nr_pubkey = Some pubkey) then
    updatePerson now pubkey
      (mkPersonData None None None None (Some as_) None None);;
    match res ≫= nr_relays with
    | Some ((_ :: _) as rs) =>
        let urls := filter (fun u => isRelay X u = true) rs in
        modify (relays_bulkPatch (normalizeRelayUrl X <$> urls));;
        forEach (fun url =>
          addRoute now pubkey (Some url) "nip05" "write" now;;
          addRoute now pubkey (Some url) "nip05" "read" now) urls
    | _ => ret tt
    end
  else ret tt.

(** The metadata URL [verifyZapper] fetches, [None] when it returns early. *)
Definition zapper_url (address : string) : option string :=
  if startsWith "lnurl1" address then bech32ToHex X address
  else if includes "@"%char address then
    match split "@"%char address with
    | name :: domain :: _ =>
        if truthy_string domain && truthy_string name
        then Some ("https://" +:+ domain +:+ "/.well-known/lnurlp/" +:+ name)
        else None
    | _ => None
    end
  else None.

Definition zapper_keys : list string :=
  ["callback"; "maxSendable"; "minSendable"; "nostrPubkey"].

(** [verifyZapper] from the point of view of the store: [fetched url] is
    what [tryJson(() => res?.json())] yields for the response of [url],
    [None] when the fetch or the parse failed. *)
Definition verifyZapper (now : Z) (fetched : string → option json)
    (pubkey address : string) : M unit :=
  match zapper_url address with
  | None => ret tt
  | Some url =>
      if truthy_string url then
        let zapper := fetched url in
        let lnurl := hexToBech32 X "lnurl" url in
        if truthy_opt (get_prop_opt zapper "allowsNostr")
           && truthy_opt (get_prop_opt zapper "nostrPubkey")
        then
          (* Trim zapper so we don't have so much metadata *)
          trimmed ← lift (pick zapper_keys (default JNull zapper));
          updatePerson now pubkey
            (mkPersonData None None None None None (Some lnurl) (Some trimmed))
        else ret tt
      else ret tt
  end.

(** Kind 0: profile metadata. *)
Definition handle_kind0 (now : Z) (e : Event) : M unit :=
  tryJson (
    k0 ← lift (of_option (JSON_parse X (content e)));
    person ← gets (fun s => people s !! ev_pubkey e);
    let pdata := person_data <$> person in
    if js_lt (created_at e) (pdata ≫= kind0_updated_at) then ret tt
    else
      nip ← lift (get_prop k0 "nip05");
      (if truthy_opt nip
       then start (LookupNip05 (ev_pubkey e) (default JNull nip))
       else ret tt);;
      lud16 ← lift (get_prop k0 "lud16");
      lud06 ← lift (get_prop k0 "lud06");
      let address := if truthy_opt lud16 then lud16 else lud06 in
      (if truthy_opt address then
         match address with
         | Some (JStr a) => start (LookupZapper (ev_pubkey e) (toLowerCase a))
         | _ => throw (* toLowerCase is not a function *)
         end
       else ret tt);;
      updatePerson now (ev_pubkey e)
        (mkPersonData (Some (spread (pdata ≫= kind0) k0))
           (Some (created_at e)) None None None None None)
  );; ret tt.

(** Kind 3: petnames. *)
Definition is_tag (name : string) (t : Tag) : bool :=
  bool_decide (head t = Some name).

Definition handle_petnames (now : Z) (e : Event) : M unit :=
  person ← gets (fun s => people s !! ev_pubkey e);
  if js_lt (created_at e) ((person_data <$> person) ≫= petnames_updated_at)
  then ret tt
  else
    updatePerson now (ev_pubkey e)
      (mkPersonData None None
         (Some (List.filter (is_tag "p") (tags e))) (Some (created_at e))
         None None None).

(** ** User profile, except for events also handled for other users *)

Inductive ProfileKey := KeyRelays | KeyMutes.

Definition value_of (key : ProfileKey) : Type :=
  match key with
  | KeyRelays => list RelayEntry
  | KeyMutes => list Tag
  end.

(** [profile[`${key}_updated_at`]] *)
Definition updated_at_of (key : ProfileKey) (p : Profile) : option Z :=
  match key with
  | KeyRelays => relays_updated_at p
  | KeyMutes => mutes_updated_at p
  end.

(** [{...$p, [key]: value, [updated_at_key]: t}] *)
Definition set_key (key : ProfileKey) : value_of key → Z → Profile → Profile :=
  match key with
  | KeyRelays => fun v t p =>
      mkProfile (profile_pubkey p) (profile_data p) v (Some t)
        (mutes p) (mutes_updated_at p)
  | KeyMutes => fun v t p =>
      mkProfile (profile_pubkey p) (profile_data p) (relays_of p)
        (relays_updated_at p) v (Some t)
  end.

(** The values the extraction functions return are arrays or [undefined],
    and every array is truthy, the empty one too. *)
Definition truthy_array {key} (v : option (value_of key)) : bool :=
  match v with Some _ => true | None => false end.

Definition profileHandler (key : ProfileKey)
    (getValue : Event → Profile → option (value_of key)) (e : Event)
    : M unit :=
  p ← gets profile;
  if negb (bool_decide (Some (ev_pubkey e) = profile_pubkey p)) then ret tt
  else if js_lt (created_at e) (updated_at_of key p) then ret tt
  else
    modify (profile_update (fun p =>
      let value := getValue e p in
      (* If we didn't get a value, don't update the key *)
      if truthy_array value then
        match value with
        | Some v => set_key key v (created_at e) p
        | None => p
        end
      else p)).

(** [[false, "!"].includes(v)] *)
Definition negated (v : option json) : bool :=
  match v with
  | Some (JBool false) => true
  | Some (JStr s) => String.eqb s "!"
  | _ => false
  end.

(** [const {write, read} = conditions]: throws on [null]. *)
Definition conditions_of (c : json) : result (option json * option json) :=
  w ← get_prop c "write"; r ← get_prop c "read"; Ok (w, r).

Definition relays_kind2 (e : Event) (p : Profile) : option (list RelayEntry) :=
  Some (uniqByUrl X (relays_of p ++ [mkRelayEntry (Some (content e)) None None])).

Definition relays_kind3 (e : Event) (p : Profile) : option (list RelayEntry) :=
  let r :=
    v ← of_option (JSON_parse X (content e));
    entries ← Object_entries v;
    rs ← mapR (fun kv : string * json =>
                 c ← conditions_of kv.2;
                 Ok (mkRelayEntry (Some (normalizeRelayUrl X kv.1))
                       (Some (negb (negated c.2)))
                       (Some (negb (negated c.1))))) entries;
    Ok (List.filter
          (fun r => match re_url r with Some u => isRelay X u | None => false end)
          rs) in
  match r with Ok rs => Some rs | Throw => None end.

Definition mutes_kind10000 (e : Event) (p : Profile) : option (list Tag) :=
  Some (tags e).

(* DEPRECATED *)
Definition relays_kind10001 (e : Event) (p : Profile)
    : option (list RelayEntry) :=
  Some (map (fun t : Tag =>
               mkRelayEntry (t !! 0%nat)
                 (Some (negb (bool_decide (t !! 1%nat = Some "!"))))
                 (Some (negb (bool_decide (t !! 2%nat = Some "!")))))
          (tags e)).

(** [mode || fallback] *)
Definition or_else (mode : option string) (fallback : string) : string :=
  match mode with
  | Some m => if truthy_string m then m else fallback
  | None => fallback
  end.

Definition relays_kind10002 (e : Event) (p : Profile)
    : option (list RelayEntry) :=
  Some (map (fun t : Tag =>
               let mode := t !! 2%nat in
               mkRelayEntry (t !! 1%nat)
                 (Some (String.eqb (or_else mode "read") "read"))
                 (Some (String.eqb (or_else mode "write") "write")))
          (List.filter (is_tag "r") (tags e))).

(** ** Rooms *)

(** [rooms.patch({id, pubkey, updated_at, ...content})]; the whitelist
    [roomAttrs] names metadata columns only. *)
Definition rooms_patch (id pubkey : string) (updated_at : Z)
    (attrs : gmap string json) (s : State) : State :=
  let old := default ∅ (room_attrs <$> rooms s !! id) in
  mkState (people s) (profile s)
    (<[id := mkRoom (Some pubkey) (Some updated_at) (attrs ∪ old)]> (rooms s))
    (routes s) (relays s) (userEvents s) (lookups s).

(** [tryJson(() => pick(roomAttrs, JSON.parse(e.content)))] *)
Definition room_content (e : Event) : option (gmap string json) :=
  match v ← of_option (JSON_parse X (content e)); pick (roomAttrs X) v with
  | Ok m => Some m
  | Throw => None
  end.

Definition patch_room (roomId : string) (e : Event) : M unit :=
  room ← gets (fun s => rooms s !! roomId);
  if js_lt (created_at e) (room ≫= room_updated_at) then ret tt
  else
    let content := room_content e in
    if negb (truthy_opt (content ≫= (.!! "name"))) then ret tt
    else modify (rooms_patch roomId (ev_pubkey e) (created_at e)
                   (default ∅ content)).

Definition handle_kind40 (e : Event) : M unit := patch_room (ev_id e) e.

(** Modelled from the spec: the [Tags] class of [src/util/nostr] is missing;
    the target room is the first ["e"]-tagged reference of the event. *)
Definition first_e_value (e : Event) : option string :=
  match List.filter (is_tag "e") (tags e) with
  | t :: _ => t !! 1%nat
  | [] => None
  end.

Definition handle_kind41 (e : Event) : M unit :=
  match first_e_value e with
  | Some roomId => if truthy_string roomId then patch_room roomId e else ret tt
  | None => ret tt
  end.

(** ** Route evidence of the events *)

Definition routes_kind2 (now : Z) (e : Event) : M unit :=
  addRoute now (ev_pubkey e) (Some (content e)) "kind:2" "read" (created_at e);;
  addRoute now (ev_pubkey e) (Some (content e)) "kind:2" "write" (created_at e).

Definition routes_kind3 (now : Z) (e : Event) : M unit :=
  tryJson (
    entries ← lift (v ← of_option (JSON_parse X (content e)); Object_entries v);
    forEach (fun kv : string * json =>
      c ← lift (conditions_of kv.2);
      (if negb (negated c.1)
       then addRoute now (ev_pubkey e) (Some kv.1) "kind:3" "write" (created_at e)
       else ret tt);;
      (if negb (negated c.2)
       then addRoute now (ev_pubkey e) (Some kv.1) "kind:3" "read" (created_at e)
       else ret tt)) entries
  );; ret tt.

Definition routes_kind10002 (now : Z) (e : Event) : M unit :=
  forEach (fun t : Tag =>
    let url := t !! 1%nat in
    match t !! 2%nat with
    | Some mode =>
        if truthy_string mode
        then addRoute now (ev_pubkey e) url "kind:10002" mode (created_at e)
        else
          addRoute now (ev_pubkey e) url "kind:10002" "read" (created_at e);;
          addRoute now (ev_pubkey e) url "kind:10002" "write" (created_at e)
    | None =>
        addRoute now (ev_pubkey e) url "kind:10002" "read" (created_at e);;
        addRoute now (ev_pubkey e) url "kind:10002" "write" (created_at e)
    end) (tags e).

(** ** Dispatch *)

(** The registry after the module has been loaded: per kind, the handlers in
    the order of their [addHandler] calls. *)
Definition handlers (now : Z) (kind : Z) : list (Event → M unit) :=
  if (kind =? 0)%Z then [handle_kind0 now]
  else if (kind =? 2)%Z then
    [profileHandler KeyRelays relays_kind2; routes_kind2 now]
  else if (kind =? 3)%Z then
    [handle_petnames now; profileHandler KeyRelays relays_kind3;
     routes_kind3 now]
  else if (kind =? 10000)%Z then [profileHandler KeyMutes mutes_kind10000]
  else if (kind =? 10001)%Z then [profileHandler KeyRelays relays_kind10001]
  else if (kind =? 10002)%Z then
    [profileHandler KeyRelays relays_kind10002; routes_kind10002 now]
  else if (kind =? 40)%Z then [handle_kind40]
  else if (kind =? 41)%Z then [handle_kind41]
  else [].

(** [userEvents.put(event)] *)
Definition userEvents_put (e : Event) (s : State) : State :=
  mkState (people s) (profile s) (rooms s) (routes s) (relays s)
    (<[ev_id e := e]> (userEvents s)) (lookups s).

(** The body of the inner loop. *)
Definition processEvent (now : Z) (userPubkey : option string) (e : Event)
    : M unit :=
  (if bool_decide (Some (ev_pubkey e) = userPubkey)
   then modify (userEvents_put e) else ret tt);;
  forEach (fun handler => handler e) (handlers now (ev_kind e)).

(** [ensurePlural(events).filter(identity)]: the argument is one event or an
    array, and [null] entries are dropped. *)
Inductive Batch :=
  | One (e : option Event)
  | Many (es : list (option Event)).

Definition ensurePlural (b : Batch) : list (option Event) :=
  match b with One e => [e] | Many es => es end.

Definition present (b : Batch) : list Event := omap id (ensurePlural b).

(** hurdak's [chunk(n, xs)]: consecutive groups of [n] elements, the last
    one possibly shorter.  [room] counts the free places of [current], which
    is kept in reverse. *)
Fixpoint chunk_go {A} (n room : nat) (current xs : list A) : list (list A) :=
  match xs with
  | [] => match current with [] => [] | _ => [rev current] end
  | x :: xs =>
      match room with
      | O => rev current :: chunk_go n (pred n) [x] xs
      | S room => chunk_go n room (x :: current) xs
      end
  end.

Definition chunk {A} (n : nat) (xs : list A) : list (list A) :=
  chunk_go n n [] xs.

(** [await sleep(ms)]: the dispatcher itself does nothing to the store while
    it waits. *)
Definition sleep (ms : Z) : M unit := ret tt.

(** The outer loop over the chunks. *)
Fixpoint processChunks (now : Z) (userPubkey : option string)
    (chunks : list (list Event)) : M unit :=
  match chunks with
  | [] => ret tt
  | c :: rest =>
      forEach (processEvent now userPubkey) c;;
      (* Don't lock up the ui when processing a lot of events *)
      (match rest with [] => ret tt | _ => sleep 30 end);;
      processChunks now userPubkey rest
  end.

Definition processEvents (now : Z) (events : Batch) : M unit :=
  userPubkey ← gets getPubkey;
  processChunks now userPubkey (chunk 100 (present events)).

End Sync.

Arguments addRoute X now pubkey rawUrl type mode observed s : simpl never.

(** * Properties *)

(** The state a computation leaves behind, whatever its outcome. *)
Definition exec {A} (m : M A) (s : State) : State := (m s).2.

(** Sample helpers, used to run the model on concrete inputs: relay URLs are
    the strings starting with [wss://], already canonical, the hash is the
    identity, and the parser knows the few documents the examples use. *)
Definition quoted (s : string) : string :=
  String "034"%char s +:+ String "034"%char EmptyString.

(** The document [{k1:v1,...}] whose values are all strings. *)
Fixpoint members (kvs : list (string * string)) : string :=
  match kvs with
  | [] => EmptyString
  | [(k, v)] => quoted k +:+ ":" +:+ quoted v
  | (k, v) :: kvs => quoted k +:+ ":" +:+ quoted v +:+ "," +:+ members kvs
  end.

Definition document (kvs : list (string * string)) : string :=
  "{" +:+ members kvs +:+ "}".

Definition doc_a : list (string * string) := [("name", "a")].
Definition doc_b : list (string * string) :=
  [("name", "b"); ("nip05", "b@x.org"); ("lud16", "B@x.org")].

Definition sample_parse (doc : string) : option json :=
  let object kvs := JObj (map (fun kv => (kv.1, JStr kv.2)) kvs) in
  if String.eqb doc (document doc_a) then Some (object doc_a)
  else if String.eqb doc (document doc_b) then Some (object doc_b)
  else if String.eqb doc "null" then Some JNull
  else if String.eqb doc "{}" then Some (JObj [])
  else None.

Definition sample : Externals :=
  mkExternals sample_parse
    (startsWith "wss://")
    (fun u => match u with Some u => startsWith "wss://" u | None => false end)
    (fun u => u) (fun x => x)
    (fun prefix u => prefix +:+ "1" +:+ u) (fun _ => None)
    ["name"; "about"; "picture"] (fun rs => rs).

Definition empty_profile : Profile :=
  mkProfile None no_data [] None [] None.

Definition empty_state : State := mkState ∅ empty_profile ∅ ∅ ∅ ∅ [].

(** ** Routes *)

Section RouteFacts.

Variable X : Externals.

Lemma positive_spec (q : Q) : positive (Some q) = true ↔ (0 < q)%Q.
Proof.
  unfold positive, Qlt. destruct q as [n d]; simpl.
  rewrite Z.ltb_lt. lia.
Qed.

(** The three ways out of [addRoute] on a string. *)
Lemma addRoute_unfold now pubkey raw type mode observed s :
  addRoute X now pubkey (Some raw) type mode observed s =
  if negb (isShareableRelay X (Some raw)) then (Ok tt, s)
  else if positive (evidence now type observed) then
    let id := route_key X pubkey (normalizeRelayUrl X raw) mode in
    let route :=
      default (mkRoute id pubkey (normalizeRelayUrl X raw) mode 0 0 [] None)
        (routes s !! id) in
    (Ok tt,
     routes_put
       (fold_route route type (default 0%Q (evidence now type observed))
          observed)
       (relays_patch (route_url route) s))
  else (Ok tt, s).
Proof.
  unfold addRoute.
  destruct (isShareableRelay X (Some raw)); simpl; [|done].
  unfold mbind, M_bind, bind, gets; simpl.
  destruct (positive (evidence now type observed)); done.
Qed.

Lemma evidence_old now type observed q :
  (thirty_days ≤ now - observed)%Z →
  evidence now type observed = Some q → (q <= 0)%Q.
Proof.
  intros Hold. unfold evidence, getWeight.
  set (a := (now - observed)%Z) in *.
  assert (Hr : (1 - inject_Z a / inject_Z thirty_days <= 0)%Q).
  { unfold Qle, Qminus, Qdiv, Qplus, Qopp, Qmult, Qinv, inject_Z, thirty_days
      in *; simpl in *. lia. }
  assert (Hmul : ∀ w : Q, (0 <= w)%Q →
            (w * (1 - inject_Z a / inject_Z thirty_days) <= 0)%Q).
  { intros w Hw.
    apply Qle_trans with (0 * w)%Q; [|rewrite Qmult_0_l; apply Qle_refl].
    rewrite (Qmult_comm w). apply Qmult_le_compat_r; assumption. }
  repeat case_match; simpl; intros [= <-]; apply Hmul; done.
Qed.

End RouteFacts.

Section RouteClaims.

Variable X : Externals.

(** C4.  Evidence whose computed score is not strictly positive leaves the
    whole store as it was, the Route and RelayEndpoint tables in particular:
    this holds for every score that is [NaN] or at most zero, hence for every
    observation at least thirty days old and for every evidence type without
    a weight. *)
Theorem addRoute_ignores_nonpositive now pubkey url type mode observed s :
  isShareableRelay X (Some url) = true →
  ((∀ q, evidence now type observed = Some q → (q <= 0)%Q) →
   addRoute X now pubkey (Some url) type mode observed s = (Ok tt, s))
  ∧ ((thirty_days ≤ now - observed)%Z →
     addRoute X now pubkey (Some url) type mode observed s = (Ok tt, s))
  ∧ (getWeight type = None →
     addRoute X now pubkey (Some url) type mode observed s = (Ok tt, s)).
Proof.
  intros Hshare.
  assert (Hgen : (∀ q, evidence now type observed = Some q → (q <= 0)%Q) →
            addRoute X now pubkey (Some url) type mode observed s = (Ok tt, s)).
  { intros Hle. rewrite addRoute_unfold, Hshare. simpl.
    destruct (evidence now type observed) as [q|] eqn:Hev; [|done].
    destruct (positive (Some q)) eqn:Hpos; [|done].
    apply positive_spec in Hpos. specialize (Hle q eq_refl).
    exfalso. apply (Qlt_not_le _ _ Hpos Hle). }
  split; [exact Hgen|split].
  - intros Hold. apply Hgen. intros q. by apply evidence_old.
  - intros Hw. apply Hgen. intros q. unfold evidence. by rewrite Hw.
Qed.

(** C5.  The scoring example: on an empty Route table, fresh [kind:10002]
    evidence for ("pk1", "wss://relay.example", "write") creates the route
    with count 1 and score 1; [kind:3] evidence for the same triple observed
    fifteen days before the clock reading scores 0.8 * (1 - 0.5) = 0.4 and is
    folded into score (1 * 1 + 0.4) / 2 = 0.7 with count 2. *)
Theorem route_scoring_example (now now2 : Z) (s0 : State) :
  let url := "wss://relay.example" in
  let id := route_key X "pk1" (normalizeRelayUrl X url) "write" in
  let s1 := exec (addRoute X now "pk1" (Some url) "kind:10002" "write" now) s0 in
  let observed := (now2 - 15 * 86400)%Z in
  let s2 := exec (addRoute X now2 "pk1" (Some url) "kind:3" "write" observed) s1 in
  isShareableRelay X (Some url) = true →
  routes s0 = ∅ →
  ∃ r1 q r2,
    routes s1 !! id = Some r1 ∧ count r1 = 1%nat ∧ (score r1 == 1)%Q
    ∧ evidence now2 "kind:3" observed = Some q ∧ (q == 4 # 10)%Q
    ∧ routes s2 !! id = Some r2 ∧ count r2 = 2%nat ∧ (score r2 == 7 # 10)%Q.
Proof.
  intros url id s1 observed s2 Hshare Hempty.
  assert (Hfresh : evidence now "kind:10002" now
                   = Some (1 * (1 - inject_Z 0 / inject_Z thirty_days))%Q).
  { unfold evidence. by rewrite Z.sub_diag. }
  assert (Hhalf : evidence now2 "kind:3" observed
                  = Some ((8 # 10) * (1 - inject_Z 1296000 / inject_Z thirty_days))%Q).
  { unfold evidence, observed.
    by replace (now2 - (now2 - 15 * 86400))%Z with 1296000%Z by lia. }
  assert (Hs1 : routes s1 !! id = Some
            (fold_route (mkRoute id "pk1" (normalizeRelayUrl X url) "write" 0 0 [] None)
               "kind:10002" (1 * (1 - inject_Z 0 / inject_Z thirty_days))%Q now)).
  { unfold s1, exec. rewrite addRoute_unfold, Hshare, Hfresh. simpl.
    fold id. rewrite Hempty, lookup_empty. simpl.
    by rewrite lookup_insert_eq. }
  eexists _, _, _. split; [exact Hs1|].
  split; [reflexivity|]. split; [reflexivity|].
  split; [exact Hhalf|]. split; [reflexivity|].
  unfold s2, exec. rewrite addRoute_unfold, Hshare, Hhalf. simpl.
  fold id. rewrite Hs1. simpl.
  rewrite lookup_insert_eq. done.
Qed.

End RouteClaims.

Lemma addRoute_ignores_nonpositive_witness :
  isShareableRelay sample (Some "wss://relay.example") = true
  ∧ addRoute sample 5000000 "pk1" (Some "wss://relay.example") "kind:3" "read"
      1000 empty_state = (Ok tt, empty_state)
  ∧ addRoute sample 5000000 "pk1" (Some "wss://relay.example") "kind:9" "read"
      5000000 empty_state = (Ok tt, empty_state).
Proof.
  split; [reflexivity|].
  split.
  - refine (proj1 (proj2 (addRoute_ignores_nonpositive sample 5000000 "pk1"
             "wss://relay.example" "kind:3" "read" 1000 empty_state eq_refl)) _).
    unfold thirty_days; lia.
  - refine (proj2 (proj2 (addRoute_ignores_nonpositive sample 5000000 "pk1"
             "wss://relay.example" "kind:9" "read" 5000000 empty_state
             eq_refl)) _).
    reflexivity.
Defined.

Lemma route_scoring_example_witness :
  ∃ r1 q r2,
    routes (exec (addRoute sample 1700000000 "pk1" (Some "wss://relay.example")
                    "kind:10002" "write" 1700000000) empty_state)
      !! "pk1wss://relay.examplewrite" = Some r1
    ∧ count r1 = 1%nat ∧ (score r1 == 1)%Q
    ∧ evidence 1701296000 "kind:3" 1700000000 = Some q ∧ (q == 4 # 10)%Q
    ∧ routes
        (exec (addRoute sample 1701296000 "pk1" (Some "wss://relay.example")
                 "kind:3" "write" 1700000000)
           (exec (addRoute sample 1700000000 "pk1" (Some "wss://relay.example")
                    "kind:10002" "write" 1700000000) empty_state))
        !! "pk1wss://relay.examplewrite" = Some r2
    ∧ count r2 = 2%nat ∧ (score r2 == 7 # 10)%Q.
Proof.
  exact (route_scoring_example sample 1700000000 1701296000 empty_state
           eq_refl eq_refl).
Defined.

(** ** The scoring example in binary64 *)

(** The two arithmetic expressions of [addRoute] on IEEE 754 doubles, the
    numbers the source computes with. *)
Definition decay_b64 (weight elapsed window : float) : float :=
  (weight * (1 - elapsed / window))%float.

Definition fold_b64 (score count sc : float) : float :=
  ((score * count + sc) / (count + 1))%float.

(** The double written [n/10] in decimal. *)
Definition tenths (n : int) : float := (of_uint63 n / of_uint63 10)%float.

(** Rounding does not show in the example: the doubles are the ones written
    0.4 and 0.7. *)
Lemma route_scoring_example_b64 :
  let window := of_uint63 2592000 in
  let first := decay_b64 1 0 window in
  let second := decay_b64 (tenths 8) (of_uint63 1296000) window in
  first = 1%float ∧ second = tenths 4
  ∧ fold_b64 0 0 first = 1%float
  ∧ fold_b64 (fold_b64 0 0 first) 1 second = tenths 7.
Proof. vm_compute. repeat split; reflexivity. Qed.

(** The double nearest to an integer: timestamps are JS numbers. *)
Definition b64_of_Z (z : Z) : float :=
  SF2Prim (binary_normalize prec emax z 0 false).

(** [getWeight] on doubles; [undefined] makes the product [NaN]. *)
Definition getWeight_b64 (type : string) : float :=
  if String.eqb type "nip05" then 1%float
  else if String.eqb type "kind:10002" then 1%float
  else if String.eqb type "kind:3" then tenths 8
  else if String.eqb type "kind:2" then tenths 5
  else nan.

(** [getWeight(type) * (1 - (now() - created_at) / timedelta(30, "days"))] *)
Definition evidence_b64 (now : Z) (type : string) (observed : Z) : float :=
  decay_b64 (getWeight_b64 type) (b64_of_Z now - b64_of_Z observed)%float
    (b64_of_Z thirty_days).


(** The sign test on doubles falls where it falls on the exact values: an
    observation exactly thirty days old scores 0 and is not folded, one a
    second younger is, and a type without weight scores [NaN]. *)
Lemma evidence_b64_window :
  (0 <? evidence_b64 1702592000 "kind:3" 1700000000)%float = false
  ∧ (0 <? evidence_b64 1702591999 "kind:3" 1700000000)%float = true
  ∧ (0 <? evidence_b64 1702592001 "kind:3" 1700000000)%float = false
  ∧ (0 <? evidence_b64 1700000000 "kind:9" 1700000000)%float = false.
Proof. vm_compute. repeat split; reflexivity. Qed.


(** ** Sequences of [addRoute] calls *)

Record Call := mkCall {
  call_now : Z;
  call_pubkey : string;
  call_url : option string;
  call_type : string;
  call_mode : string;
  call_observed : Z;
}.



(** Every row sits under its own id. *)
Definition keyed (s : State) : Prop :=
  ∀ k r, routes s !! k = Some r → route_id r = k.

Section Calls.

Variable X : Externals.

Definition call (c : Call) : M unit :=
  addRoute X (call_now c) (call_pubkey c) (call_url c) (call_type c)
    (call_mode c) (call_observed c).

Definition run (calls : list Call) (s : State) : State :=
  foldl (fun s c => exec (call c) s) s calls.

(** The evidence score a call contributes to the route [id]: the score it
    computes, when the call is for a shareable URL of that route and the
    score is strictly positive. *)
Definition folded_into (id : string) (c : Call) : option Q :=
  match call_url c, evidence (call_now c) (call_type c) (call_observed c) with
  | Some raw, Some q =>
      if isShareableRelay X (Some raw) then
        if Qlt_le_dec 0 q then
          if String.eqb
               (route_key X (call_pubkey c) (normalizeRelayUrl X raw)
                  (call_mode c)) id
          then Some q else None
        else None
      else None
  | _, _ => None
  end.

Definition scores_into (id : string) (calls : list Call) : list Q :=
  omap (folded_into id) calls.

(** The row a call works on when the table has none. *)
Definition defaults_of (id : string) (c : Call) : Route :=
  mkRoute id (call_pubkey c)
    (normalizeRelayUrl X (default EmptyString (call_url c))) (call_mode c)
    0 0 [] None.

Lemma call_routes c s id :
  keyed s →
  routes (exec (call c) s) !! id =
  match folded_into id c with
  | Some q =>
      Some (fold_route (default (defaults_of id c) (routes s !! id))
              (call_type c) q (call_observed c))
  | None => routes s !! id
  end.
Proof.
  intros Hk. unfold call, folded_into, exec.
  destruct c as [now pk [raw|] ty mo obs]; simpl.
  - rewrite addRoute_unfold.
    destruct (isShareableRelay X (Some raw)); simpl;
      [|by destruct (evidence now ty obs)].
    destruct (evidence now ty obs) as [q|] eqn:Hev; simpl; [|done].
    destruct (Qlt_le_dec 0 q) as [Hpos|Hle].
    + apply positive_spec in Hpos as Hp. unfold positive in Hp. rewrite Hp.
      simpl. set (key := route_key X pk (normalizeRelayUrl X raw) mo).
      assert (Hid : route_id (default
                (mkRoute key pk (normalizeRelayUrl X raw) mo 0 0 [] None)
                (routes s !! key)) = key).
      { destruct (routes s !! key) as [r|] eqn:Hr; simpl; [by apply Hk|done]. }
      rewrite Hid.
      destruct (String.eqb_spec key id) as [->|Hne].
      * rewrite lookup_insert_eq. unfold defaults_of; simpl. done.
      * by rewrite lookup_insert_ne.
    + assert (Hp : (0 <? Qnum q)%Z = false).
      { apply Z.ltb_ge. unfold Qle in Hle; simpl in Hle. lia. }
      by rewrite Hp.
  - unfold addRoute. destruct (isShareableRelay X None); simpl;
      by destruct (evidence now ty obs).
Qed.

Lemma call_keyed c s : keyed s → keyed (exec (call c) s).
Proof.
  intros Hk k r. rewrite (call_routes c s k Hk).
  destruct (folded_into k c) as [q|]; [|apply Hk].
  intros [= <-]. simpl.
  destruct (routes s !! k) as [r|] eqn:Hr; simpl; [by apply Hk|done].
Qed.

Lemma run_snoc calls c s : run (calls ++ [c]) s = exec (call c) (run calls s).
Proof. unfold run. by rewrite foldl_snoc. Qed.

Lemma run_keyed calls s : keyed s → keyed (run calls s).
Proof.
  intros Hk. induction calls as [|c calls IH] using rev_ind; [done|].
  rewrite run_snoc. by apply call_keyed.
Qed.




End Calls.


Definition sample_calls : list Call :=
  [ mkCall 1700000000 "pk1" (Some "wss://relay.example") "kind:10002" "write"
      1700000000;
    mkCall 1700000000 "pk1" (Some "wss://relay.example") "kind:2" "write"
      1600000000;
    mkCall 1701296000 "pk1" (Some "wss://relay.example") "kind:3" "write"
      1700000000 ].



(** ** Last write wins *)

(** The stored companion timestamps, [None] when the row or the field is
    missing. *)
Definition kind0_at (s : State) (pubkey : string) : option Z :=
  (person_data <$> people s !! pubkey) ≫= kind0_updated_at.

Definition kind0_of (s : State) (pubkey : string) : option (gmap string json) :=
  (person_data <$> people s !! pubkey) ≫= kind0.

Definition petnames_at (s : State) (pubkey : string) : option Z :=
  (person_data <$> people s !! pubkey) ≫= petnames_updated_at.

Definition petnames_of (s : State) (pubkey : string) : option (list Tag) :=
  (person_data <$> people s !! pubkey) ≫= petnames.

Definition room_at (s : State) (id : string) : option Z :=
  rooms s !! id ≫= room_updated_at.

(** The address a kind-0 document names, [lud16 || lud06]. *)
Definition address_of (k0 : json) : option json :=
  if truthy_opt (get_prop_opt (Some k0) "lud16")
  then get_prop_opt (Some k0) "lud16"
  else get_prop_opt (Some k0) "lud06".

(** A kind-0 document the handler carries through to the patch: it is not
    [null], and its address, when truthy, is a string. *)
Definition mergeable (k0 : json) : Prop :=
  k0 ≠ JNull
  ∧ (truthy_opt (address_of k0) = true → ∃ a, address_of k0 = Some (JStr a)).

Lemma bind_Ok {A B} (m : M A) (k : A → M B) s a s' :
  m s = (Ok a, s') → (m ≫= k) s = k a s'.
Proof. intros H. unfold mbind, M_bind, bind. by rewrite H. Qed.

Lemma bind_Throw {A B} (m : M A) (k : A → M B) s s' :
  m s = (Throw, s') → (m ≫= k) s = (Throw, s').
Proof. intros H. unfold mbind, M_bind, bind. by rewrite H. Qed.

Lemma bind_lift {A B} (r : result A) (k : A → M B) s :
  (lift r ≫= k) s = match r with Ok a => k a s | Throw => (Throw, s) end.
Proof. by destruct r. Qed.

Lemma bind_gets {A B} (f : State → A) (k : A → M B) s :
  (gets f ≫= k) s = k (f s) s.
Proof. done. Qed.

Lemma bind_ret {A B} (a : A) (k : A → M B) s : (ret a ≫= k) s = k a s.
Proof. done. Qed.

Lemma bind_modify {B} f (k : unit → M B) s : (modify f ≫= k) s = k tt (f s).
Proof. done. Qed.

Lemma bind_throw {A B} (k : A → M B) s : (throw ≫= k) s = (Throw, s).
Proof. done. Qed.

Lemma tryJson_then {A} (m : M A) s :
  ((tryJson m ≫= fun _ => ret tt) s).2 = (m s).2.
Proof.
  unfold tryJson, mbind, M_bind, bind. by destruct (m s) as [[a|] s1].
Qed.

Lemma get_prop_cases (v : json) :
  v = JNull ∨ ∀ k, get_prop v k = Ok (get_prop_opt (Some v) k).
Proof. destruct v; auto. Qed.

Lemma state_eta s :
  mkState (people s) (profile s) (rooms s) (routes s) (relays s)
    (userEvents s) (lookups s) = s.
Proof. by destruct s. Qed.

Lemma profile_eta p :
  mkProfile (profile_pubkey p) (profile_data p) (relays_of p)
    (relays_updated_at p) (mutes p) (mutes_updated_at p) = p.
Proof. by destruct p. Qed.

Section Merger.

Variable X : Externals.

Lemma handle_kind0_stale now e s t :
  kind0_at s (ev_pubkey e) = Some t → (created_at e < t)%Z →
  handle_kind0 X now e s = (Ok tt, s).
Proof.
  intros Hat Hlt. unfold handle_kind0, tryJson, mbind, M_bind, bind, lift, gets.
  destruct (JSON_parse X (content e)) as [k0|]; simpl; [|done].
  unfold kind0_at, mbind in Hat. rewrite Hat. simpl.
  apply Z.ltb_lt in Hlt. by rewrite Hlt.
Qed.

Lemma handle_petnames_stale now e s t :
  petnames_at s (ev_pubkey e) = Some t → (created_at e < t)%Z →
  handle_petnames now e s = (Ok tt, s).
Proof.
  intros Hat Hlt. unfold handle_petnames, mbind, M_bind, bind, gets.
  unfold petnames_at, mbind in Hat. rewrite Hat. simpl.
  apply Z.ltb_lt in Hlt. by rewrite Hlt.
Qed.

Lemma profileHandler_stale key getValue e s t :
  updated_at_of key (profile s) = Some t → (created_at e < t)%Z →
  profileHandler key getValue e s = (Ok tt, s).
Proof.
  intros Hat Hlt. unfold profileHandler, mbind, M_bind, bind, gets.
  destruct (negb _); [done|]. rewrite Hat. simpl.
  apply Z.ltb_lt in Hlt. by rewrite Hlt.
Qed.

Lemma patch_room_stale roomId e s t :
  room_at s roomId = Some t → (created_at e < t)%Z →
  patch_room X roomId e s = (Ok tt, s).
Proof.
  intros Hat Hlt. unfold patch_room, mbind, M_bind, bind, gets.
  unfold room_at, mbind in Hat. rewrite Hat. simpl.
  apply Z.ltb_lt in Hlt. by rewrite Hlt.
Qed.

(** What the handlers write once the guard has let the event through. *)
Lemma handle_kind0_fresh now e s k0 :
  js_lt (created_at e) (kind0_at s (ev_pubkey e)) = false →
  JSON_parse X (content e) = Some k0 → mergeable k0 →
  let s' := exec (handle_kind0 X now e) s in
  kind0_of s' (ev_pubkey e) = Some (spread (kind0_of s (ev_pubkey e)) k0)
  ∧ kind0_at s' (ev_pubkey e) = Some (created_at e).
Proof.
  intros Hguard Hparse [Hnull Haddr].
  unfold exec, handle_kind0, tryJson, mbind, M_bind, bind, lift, gets.
  rewrite Hparse. simpl. unfold kind0_at, mbind in Hguard. rewrite Hguard.
  assert (Hget : ∀ k, get_prop k0 k = Ok (get_prop_opt (Some k0) k)).
  { intros k. destruct k0; simpl; done. }
  rewrite !Hget. unfold address_of in Haddr.
  set (n5 := get_prop_opt (Some k0) "nip05") in *.
  set (a16 := get_prop_opt (Some k0) "lud16") in *.
  set (a06 := get_prop_opt (Some k0) "lud06") in *.
  clearbody n5 a16 a06.
  unfold updatePerson, mbind, M_bind, bind, modify, gets, getPubkey, start,
    throw, kind0_of, kind0_at, ret.
  destruct (truthy_opt n5); simpl;
    (destruct (truthy_opt (if truthy_opt a16 then a16 else a06)) eqn:Ht;
     [destruct (Haddr eq_refl) as [a ->]|]);
    simpl; destruct (bool_decide _); simpl; rewrite lookup_insert_eq; done.
Qed.

Lemma handle_petnames_fresh now e s :
  js_lt (created_at e) (petnames_at s (ev_pubkey e)) = false →
  let s' := exec (handle_petnames now e) s in
  petnames_of s' (ev_pubkey e) = Some (List.filter (is_tag "p") (tags e))
  ∧ petnames_at s' (ev_pubkey e) = Some (created_at e).
Proof.
  intros Hguard.
  unfold exec, handle_petnames, mbind, M_bind, bind, gets.
  unfold petnames_at, mbind in Hguard. rewrite Hguard.
  unfold updatePerson, mbind, M_bind, bind, modify, gets, getPubkey.
  simpl. unfold petnames_of, petnames_at.
  destruct (bool_decide _); simpl; rewrite lookup_insert_eq; done.
Qed.

Lemma profileHandler_fresh key getValue e s v :
  profile_pubkey (profile s) = Some (ev_pubkey e) →
  js_lt (created_at e) (updated_at_of key (profile s)) = false →
  getValue e (profile s) = Some v →
  profile (exec (profileHandler key getValue e) s)
  = set_key key v (created_at e) (profile s).
Proof.
  intros Hme Hguard Hval.
  unfold exec, profileHandler, mbind, M_bind, bind, gets, modify.
  rewrite Hme, bool_decide_true by done. simpl.
  rewrite Hguard. simpl. by rewrite Hval.
Qed.

Lemma patch_room_fresh roomId e s attrs :
  js_lt (created_at e) (room_at s roomId) = false →
  room_content X e = Some attrs → truthy_opt (attrs !! "name") = true →
  rooms (exec (patch_room X roomId e) s) !! roomId
  = Some (mkRoom (Some (ev_pubkey e)) (Some (created_at e))
            (attrs ∪ default ∅ (room_attrs <$> rooms s !! roomId))).
Proof.
  intros Hguard Hc Hname.
  unfold exec, patch_room, mbind, M_bind, bind, gets, modify.
  unfold room_at, mbind in Hguard. rewrite Hguard, Hc. simpl.
  rewrite Hname. simpl. by rewrite lookup_insert_eq.
Qed.

End Merger.

(** The stale-rejection example: an Identity with [kind0_updated_at = 100]
    and a kind-0 event with [created_at = 50]. *)
Definition alice_at_100 : State :=
  mkState
    {[ "alice" := mkPerson (Some 1000%Z)
         (mkPersonData (Some {[ "name" := JStr "a" ]}) (Some 100%Z)
            None None None None None) ]}
    empty_profile ∅ ∅ ∅ ∅ [].

Definition stale_kind0 : Event :=
  mkEvent "e1" "alice" 0 50 (document doc_b) [].

Definition ancient_contacts : Event :=
  mkEvent "e2" "bob" 3 (-5) EmptyString [["p"; "alice"]; ["e"; "x"]].

(** C9.  A kind-0 event older than the stored [kind0_updated_at] of its
    pubkey starts neither verification lookup, whatever its content names:
    dispatching it leaves the list of started lookups as it was (the handler
    returns at the guard, before the triggers). *)
Theorem stale_kind0_starts_no_lookup (X : Externals) (now : Z)
    (userPubkey : option string) (e : Event) (s : State) (t : Z) :
  ev_kind e = 0%Z →
  kind0_at s (ev_pubkey e) = Some t → (created_at e < t)%Z →
  handle_kind0 X now e s = (Ok tt, s)
  ∧ lookups (exec (processEvent X now userPubkey e) s) = lookups s.
Proof.
  intros Hkind Hat Hlt.
  pose proof (handle_kind0_stale X now e s t Hat Hlt) as Hh.
  split; [exact Hh|].
  set (s0 := if bool_decide (Some (ev_pubkey e) = userPubkey)
             then userEvents_put e s else s).
  assert (Hpre : (if bool_decide (Some (ev_pubkey e) = userPubkey)
                  then modify (userEvents_put e) else ret tt) s = (Ok tt, s0)).
  { unfold s0. by destruct (bool_decide _). }
  assert (Hat0 : kind0_at s0 (ev_pubkey e) = Some t).
  { unfold s0. by destruct (bool_decide _). }
  assert (Hl0 : lookups s0 = lookups s).
  { unfold s0. by destruct (bool_decide _). }
  unfold exec, processEvent.
  rewrite (bind_Ok _ _ _ _ _ Hpre), Hkind.
  change (handlers X now 0) with [handle_kind0 X now]. simpl.
  by rewrite (bind_Ok _ _ _ _ _ (handle_kind0_stale X now e s0 t Hat0 Hlt)).
Qed.

Lemma stale_kind0_starts_no_lookup_witness :
  address_of (JObj (map (fun kv => (kv.1, JStr kv.2)) doc_b))
    = Some (JStr "B@x.org")
  ∧ lookups (exec (processEvent sample 2000 None stale_kind0) empty_state)
    = [LookupNip05 "alice" (JStr "b@x.org"); LookupZapper "alice" "b@x.org"]
  ∧ lookups (exec (processEvent sample 2000 None stale_kind0) alice_at_100) = [].
Proof.
  split; [reflexivity|]. split; [reflexivity|].
  exact (proj2 (stale_kind0_starts_no_lookup sample 2000 None stale_kind0
                  alice_at_100 100 eq_refl eq_refl eq_refl)).
Defined.

(** ** Empty and missing values *)

(** The local user ["me"], with one relay and one petname, both written at
    time 10. *)
Definition me_at_10 : State :=
  mkState
    {[ "me" := mkPerson (Some 1000%Z)
         (mkPersonData None None (Some [["p"; "x"]]) (Some 10%Z)
            None None None) ]}
    (mkProfile (Some "me") no_data
       [mkRelayEntry (Some "wss://a") (Some true) (Some true)] (Some 10%Z)
       [] None)
    ∅ ∅ ∅ ∅ [].

(** A kind-3 event of the user without ["p"] tags, whose relay list is the
    empty object. *)
Definition empty_contacts : Event :=
  mkEvent "e3" "me" 3 20 "{}" [["e"; "z"]].

(** C7, as stated, fails: the extraction yields an empty list for the
    petnames and for the relays of [empty_contacts], and both fields are
    overwritten with it and both timestamps move to 20. *)
Lemma empty_extraction_overwrites :
  let s := me_at_10 in
  let s' := exec (processEvent sample 2000 (Some "me") empty_contacts) s in
  ¬ (List.filter (is_tag "p") (tags empty_contacts) = [] →
     petnames_of s' "me" = petnames_of s "me"
     ∧ petnames_at s' "me" = petnames_at s "me")
  ∧ ¬ (relays_kind3 sample empty_contacts (profile s) = Some [] →
       relays_of (profile s') = relays_of (profile s)
       ∧ relays_updated_at (profile s') = relays_updated_at (profile s)).
Proof.
  split; intros H; destruct (H eq_refl) as [H1 _]; vm_compute in H1;
    discriminate H1.
Qed.

(** C7, amended.  The test of [profileHandler] is JavaScript truthiness of
    the extracted value: when the extraction yields [undefined], as the
    kind-3 relay list does for a content that does not parse, the whole store
    is left as it was; when it yields an array, empty or not, a fresh event
    of the user stores it together with its timestamp.  The petnames handler
    has no such test: a fresh kind-3 event stores its ["p"] tags, none
    included, together with its timestamp. *)
Theorem falsy_extraction_keeps_field (X : Externals) (now : Z) (e : Event)
    (s : State) :
  (∀ key getValue, getValue e (profile s) = None →
     profileHandler key getValue e s = (Ok tt, s))
  ∧ (JSON_parse X (content e) = None →
     profileHandler KeyRelays (relays_kind3 X) e s = (Ok tt, s))
  ∧ (∀ key getValue v,
       profile_pubkey (profile s) = Some (ev_pubkey e) →
       js_lt (created_at e) (updated_at_of key (profile s)) = false →
       getValue e (profile s) = Some v →
       profile (exec (profileHandler key getValue e) s)
       = set_key key v (created_at e) (profile s))
  ∧ (js_lt (created_at e) (petnames_at s (ev_pubkey e)) = false →
     let s' := exec (handle_petnames now e) s in
     petnames_of s' (ev_pubkey e) = Some (List.filter (is_tag "p") (tags e))
     ∧ petnames_at s' (ev_pubkey e) = Some (created_at e)).
Proof.
  assert (Hnone : ∀ key getValue, getValue e (profile s) = None →
            profileHandler key getValue e s = (Ok tt, s)).
  { intros key getValue Hval.
    unfold profileHandler, mbind, M_bind, bind, gets, modify, profile_update.
    destruct (negb _); [done|].
    destruct (js_lt _ _); [done|].
    rewrite Hval. simpl. by rewrite state_eta. }
  split; [exact Hnone|]. split; [|split].
  - intros Hparse. apply Hnone. unfold relays_kind3. by rewrite Hparse.
  - intros key getValue v. apply profileHandler_fresh.
  - apply handle_petnames_fresh.
Qed.

Definition unparseable_contacts : Event :=
  mkEvent "e4" "me" 3 20 "not json" [["p"; "y"]].

Lemma falsy_extraction_keeps_field_witness :
  JSON_parse sample (content unparseable_contacts) = None
  ∧ profileHandler KeyRelays (relays_kind3 sample) unparseable_contacts me_at_10
    = (Ok tt, me_at_10).
Proof.
  split; [reflexivity|].
  exact (proj1 (proj2 (falsy_extraction_keeps_field sample 2000
                         unparseable_contacts me_at_10)) eq_refl).
Defined.

(** ** Payment-endpoint verification *)

(** The gate of [verifyZapper]: [zapper?.allowsNostr && zapper?.nostrPubkey]. *)
Definition allows_nostr (zapper : option json) : bool :=
  truthy_opt (get_prop_opt zapper "allowsNostr")
  && truthy_opt (get_prop_opt zapper "nostrPubkey").

Definition lnurl_of (s : State) (pubkey : string) : option string :=
  (person_data <$> people s !! pubkey) ≫= lnurl.

Definition zapper_of (s : State) (pubkey : string)
    : option (gmap string json) :=
  (person_data <$> people s !! pubkey) ≫= zapper.

Lemma bool_decide_cons (k n : string) (names : list string) :
  bool_decide (k ∈ n :: names)
  = bool_decide (n = k) || bool_decide (k ∈ names).
Proof.
  destruct (decide (n = k)) as [->|Hne].
  - rewrite (bool_decide_true (k ∈ k :: names)) by left.
    by rewrite (bool_decide_true (k = k)).
  - rewrite (bool_decide_false (n = k)) by done. simpl.
    destruct (decide (k ∈ names)) as [Hin|Hin].
    + rewrite (bool_decide_true (k ∈ n :: names)) by (by right).
      by rewrite (bool_decide_true (k ∈ names)).
    + rewrite (bool_decide_false (k ∈ names)) by done.
      rewrite bool_decide_false; [done|].
      intros [Heq|Hin']%elem_of_cons; [by apply Hne|by apply Hin].
Qed.

Lemma picked_lookup (names : list string) (m : gmap string json) (k : string) :
  (list_to_map (omap (fun k => (fun x => (k, x)) <$> m !! k) names)
     : gmap string json) !! k
  = if bool_decide (k ∈ names) then m !! k else None.
Proof.
  induction names as [|n names IH].
  - cbn [omap list_omap list_to_map foldr]. rewrite lookup_empty.
    rewrite bool_decide_false; [done|]. by intros ?%elem_of_nil.
  - rewrite bool_decide_cons. cbn [omap list_omap].
    destruct (m !! n) as [x|] eqn:Hn; cbn [fmap option_fmap option_map].
    + cbn [list_to_map foldr fst snd]. destruct (decide (n = k)) as [->|Hne].
      * by rewrite lookup_insert_eq, bool_decide_true.
      * by rewrite lookup_insert_ne, IH, (bool_decide_false (n = k)).
    + rewrite IH. destruct (decide (n = k)) as [->|Hne].
      * rewrite Hn. by destruct (bool_decide _), (bool_decide _).
      * by rewrite (bool_decide_false (n = k)).
Qed.

Lemma pick_object (names : list string) (kvs : list (string * json)) :
  ∃ m, pick names (JObj kvs) = Ok m
       ∧ ∀ k, m !! k = if bool_decide (k ∈ names)
                       then obj_of_entries kvs !! k else None.
Proof.
  destruct names as [|n names].
  - exists ∅. split; [done|]. intros k. rewrite lookup_empty.
    case_bool_decide; [set_solver|done].
  - eexists. split; [reflexivity|]. intros k. apply picked_lookup.
Qed.

Lemma allows_nostr_object z :
  allows_nostr z = true → ∃ kvs, z = Some (JObj kvs).
Proof.
  unfold allows_nostr. destruct z as [[]|]; simpl; try done. by eexists.
Qed.

Section Zapper.

Variable X : Externals.

Lemma verifyZapper_closed now fetched pubkey address s :
  (∀ url, zapper_url X address = Some url → allows_nostr (fetched url) = false) →
  verifyZapper X now fetched pubkey address s = (Ok tt, s).
Proof.
  intros Hgate. unfold verifyZapper.
  destruct (zapper_url X address) as [url|]; [|done].
  destruct (truthy_string url); [|done].
  specialize (Hgate url eq_refl). unfold allows_nostr in Hgate.
  by rewrite Hgate.
Qed.

Lemma verifyZapper_open now fetched pubkey address s url :
  zapper_url X address = Some url → truthy_string url = true →
  allows_nostr (fetched url) = true →
  let s' := exec (verifyZapper X now fetched pubkey address) s in
  lnurl_of s' pubkey = Some (hexToBech32 X "lnurl" url)
  ∧ ∃ kvs trimmed,
      fetched url = Some (JObj kvs)
      ∧ zapper_of s' pubkey = Some trimmed
      ∧ ∀ k, trimmed !! k = if bool_decide (k ∈ zapper_keys)
                            then obj_of_entries kvs !! k else None.
Proof.
  intros Hurl Hu Hgate.
  destruct (allows_nostr_object _ Hgate) as [kvs Hz].
  destruct (pick_object zapper_keys kvs) as (m & Hpick & Hm).
  assert (Hrun : exec (verifyZapper X now fetched pubkey address) s
                 = exec (updatePerson now pubkey
                           (mkPersonData None None None None None
                              (Some (hexToBech32 X "lnurl" url)) (Some m))) s).
  { unfold exec, verifyZapper. rewrite Hurl, Hu.
    unfold allows_nostr in Hgate. rewrite Hgate, Hz. simpl default.
    unfold lift. unfold mbind at 1, M_bind at 1, bind at 1.
    by rewrite Hpick. }
  simpl. rewrite Hrun.
  unfold exec, updatePerson, mbind, M_bind, bind, modify, gets, getPubkey,
    lnurl_of, zapper_of.
  split.
  - simpl. destruct (bool_decide _); simpl; rewrite lookup_insert_eq; done.
  - exists kvs, m. split; [done|]. split; [|done].
    simpl. destruct (bool_decide _); simpl; rewrite lookup_insert_eq; done.
Qed.

End Zapper.

(** A response that says [allowsNostr: "false"], as a string. *)
Definition loose_metadata : json :=
  JObj [("callback", JStr "https://x.org/cb"); ("allowsNostr", JStr "false");
        ("nostrPubkey", JStr "npk"); ("tag", JStr "payRequest")].

(** C8, as stated, fails: the gate is truthiness, so a response whose
    [allowsNostr] is a non-empty string, not [true], sets [lnurl] and
    [zapper]. *)
Lemma truthy_metadata_accepted :
  let s' := exec (verifyZapper sample 2000 (fun _ => Some loose_metadata)
                    "alice" "b@x.org") empty_state in
  ¬ (lnurl_of s' "alice" ≠ None →
     get_prop_opt (Some loose_metadata) "allowsNostr" = Some (JBool true)).
Proof.
  intros s' H. assert (Hset : lnurl_of s' "alice" ≠ None) by (vm_compute; done).
  specialize (H Hset). vm_compute in H. discriminate H.
Qed.

(** C8, amended.  [verifyZapper] writes only behind its gate, the
    truthiness of [allowsNostr] and of [nostrPubkey] in the fetched metadata:
    when the gate is closed the whole store is left as it was, which covers
    every response that is missing, is not an object, has no [allowsNostr],
    has [allowsNostr: false], has no [nostrPubkey] or has an empty one; when
    it is open, [lnurl] is the re-encoded URL and [zapper] holds the values of
    the response under the keys callback, maxSendable, minSendable and
    nostrPubkey and nothing else. *)
Theorem zapper_gate (X : Externals) (now : Z) (fetched : string → option json)
    (pubkey address : string) (s : State) :
  ((∀ url, zapper_url X address = Some url → allows_nostr (fetched url) = false) →
   verifyZapper X now fetched pubkey address s = (Ok tt, s))
  ∧ (∀ kvs,
       assoc "allowsNostr" kvs = None ∨ assoc "allowsNostr" kvs = Some (JBool false)
       ∨ assoc "nostrPubkey" kvs = None
       ∨ assoc "nostrPubkey" kvs = Some (JStr EmptyString) →
       allows_nostr (Some (JObj kvs)) = false)
  ∧ (∀ z, (z = None ∨ ∀ kvs, z ≠ Some (JObj kvs)) → allows_nostr z = false)
  ∧ (∀ url, zapper_url X address = Some url → truthy_string url = true →
       allows_nostr (fetched url) = true →
       let s' := exec (verifyZapper X now fetched pubkey address) s in
       lnurl_of s' pubkey = Some (hexToBech32 X "lnurl" url)
       ∧ ∃ kvs trimmed,
           fetched url = Some (JObj kvs)
           ∧ zapper_of s' pubkey = Some trimmed
           ∧ ∀ k, trimmed !! k = if bool_decide (k ∈ zapper_keys)
                                 then obj_of_entries kvs !! k else None).
Proof.
  split; [apply verifyZapper_closed|]. split; [|split].
  - intros kvs H. unfold allows_nostr. simpl.
    destruct H as [-> | [-> | [-> | ->]]]; simpl; try done; apply andb_false_r.
  - intros z [->|Hz]; [done|].
    destruct (allows_nostr z) eqn:Hgate; [|done].
    destruct (allows_nostr_object z Hgate) as [kvs ->]. by destruct (Hz kvs).
  - intros url. apply verifyZapper_open.
Qed.

(** A response with everything but [allowsNostr]. *)
Definition silent_metadata : json :=
  JObj [("callback", JStr "https://x.org/cb"); ("maxSendable", JNum 100000);
        ("minSendable", JNum 1000); ("nostrPubkey", JStr "npk")].

Lemma zapper_gate_witness :
  zapper_url sample "b@x.org" = Some "https://x.org/.well-known/lnurlp/b"
  ∧ verifyZapper sample 2000 (fun _ => Some silent_metadata) "alice" "b@x.org"
      empty_state = (Ok tt, empty_state).
Proof.
  split; [reflexivity|].
  refine (proj1 (zapper_gate sample 2000 (fun _ => Some silent_metadata)
                   "alice" "b@x.org" empty_state) _).
  intros url _. reflexivity.
Defined.

(** ** The dispatcher never throws *)

(** A computation that returns on every store. *)
Definition total {A} (m : M A) : Prop := ∀ s, ∃ a s', m s = (Ok a, s').

Lemma total_ret {A} (a : A) : total (ret a).
Proof. intros s. by exists a, s. Qed.

Lemma total_modify f : total (modify f).
Proof. intros s. by exists tt, (f s). Qed.

Lemma total_gets {A} (f : State → A) : total (gets f).
Proof. intros s. by exists (f s), s. Qed.

Lemma total_bind {A B} (m : M A) (k : A → M B) :
  total m → (∀ a, total (k a)) → total (m ≫= k).
Proof.
  intros Hm Hk s. destruct (Hm s) as (a & s' & Hs).
  rewrite (bind_Ok _ _ _ _ _ Hs). apply Hk.
Qed.

Lemma total_tryJson {A} (m : M A) : total (tryJson m).
Proof.
  intros s. unfold tryJson. destruct (m s) as [[a|] s']; by eexists _, _.
Qed.

Lemma total_if {A} (b : bool) (m1 m2 : M A) :
  total m1 → total m2 → total (if b then m1 else m2).
Proof. by destruct b. Qed.

Lemma total_forEach {A} (f : A → M unit) (xs : list A) :
  (∀ x, total (f x)) → total (forEach f xs).
Proof.
  intros Hf. induction xs as [|x xs IH]; simpl.
  - apply total_ret.
  - apply total_bind; [apply Hf|]. intros _. exact IH.
Qed.

Lemma total_unit (m : M unit) : total m → ∀ s, m s = (Ok tt, exec m s).
Proof.
  intros Hm s. unfold exec. destruct (Hm s) as ([] & s' & ->). done.
Qed.

Create HintDb total discriminated.
#[local] Hint Resolve total_ret total_modify total_gets total_tryJson
  total_if : total.
#[local] Hint Extern 2 (total (_ ≫= _)) =>
  apply total_bind; [|intros ?] : total.
#[local] Hint Extern 2 (total (forEach _ _)) =>
  apply total_forEach; intros ? : total.

Lemma forEach_app {A} (f : A → M unit) (xs ys : list A) s :
  forEach f (xs ++ ys) s = (forEach f xs;; forEach f ys) s.
Proof.
  revert s. induction xs as [|x xs IH]; intros s; simpl; [done|].
  unfold mbind, M_bind, bind in *.
  destruct (f x s) as [[[]|] s1]; [|done]. apply IH.
Qed.

Lemma forEach_total_foldl {A} (f : A → M unit) (xs : list A) s :
  (∀ x, total (f x)) →
  forEach f xs s = (Ok tt, foldl (fun s x => exec (f x) s) s xs).
Proof.
  intros Hf. revert s. induction xs as [|x xs IH]; intros s; simpl; [done|].
  rewrite (bind_Ok _ _ _ _ _ (total_unit _ (Hf x) s)). apply IH.
Qed.

Lemma concat_chunk_go {A} (n room : nat) (current xs : list A) :
  concat (chunk_go n room current xs) = rev current ++ xs.
Proof.
  revert room current.
  induction xs as [|x xs IH]; intros room current; simpl.
  - destruct current; simpl; [done|]. by rewrite !app_nil_r.
  - destruct room; simpl; rewrite IH; simpl; by rewrite <- ?app_assoc.
Qed.

Lemma concat_chunk {A} (n : nat) (xs : list A) : concat (chunk n xs) = xs.
Proof. unfold chunk. by rewrite concat_chunk_go. Qed.

Section Dispatch.

Variable X : Externals.

Lemma total_updatePerson now pubkey data : total (updatePerson now pubkey data).
Proof. unfold updatePerson. auto 6 with total. Qed.

Lemma total_addRoute_string now pubkey raw type mode observed :
  total (addRoute X now pubkey (Some raw) type mode observed).
Proof.
  intros s. rewrite addRoute_unfold.
  destruct (negb _); [by eexists _, _|].
  destruct (positive _); by eexists _, _.
Qed.

Lemma total_addRoute now pubkey rawUrl type mode observed :
  isShareableRelay X None = false →
  total (addRoute X now pubkey rawUrl type mode observed).
Proof.
  intros Hundef. destruct rawUrl as [raw|]; [apply total_addRoute_string|].
  intros s. unfold addRoute. rewrite Hundef. by eexists _, _.
Qed.

Lemma total_patch_room roomId e : total (patch_room X roomId e).
Proof. unfold patch_room. auto 6 with total. Qed.

Lemma total_handlers now kind handler e :
  isShareableRelay X None = false →
  handler ∈ handlers X now kind → total (handler e).
Proof.
  intros Hundef. pose proof (total_addRoute) as Hadd.
  pose proof total_addRoute_string as Hadds.
  pose proof total_updatePerson as Hup.
  pose proof total_patch_room as Hroom.
  unfold handlers.
  repeat case_match; rewrite ?elem_of_cons, ?elem_of_nil;
    intros Hin; destruct_or?; try done; subst handler.
  - unfold handle_kind0. auto with total.
  - unfold profileHandler. auto 6 with total.
  - unfold routes_kind2. auto with total.
  - unfold handle_petnames. auto 6 with total.
  - unfold profileHandler. auto 6 with total.
  - unfold routes_kind3. auto with total.
  - unfold profileHandler. auto 6 with total.
  - unfold profileHandler. auto 6 with total.
  - unfold profileHandler. auto 6 with total.
  - unfold routes_kind10002. apply total_forEach. intros t.
    repeat case_match; auto 6 with total.
  - unfold handle_kind40. auto.
  - unfold handle_kind41. repeat case_match; auto with total.
Qed.

Lemma total_forEach_in {A} (f : A → M unit) (xs : list A) :
  (∀ x, x ∈ xs → total (f x)) → total (forEach f xs).
Proof.
  induction xs as [|x xs IH]; intros Hf; simpl.
  - apply total_ret.
  - apply total_bind; [apply Hf; left|].
    intros _. apply IH. intros y Hy. apply Hf. by right.
Qed.

Lemma total_processEvent now userPubkey e :
  isShareableRelay X None = false →
  total (processEvent X now userPubkey e).
Proof.
  intros Hundef. unfold processEvent.
  apply total_bind; [auto with total|]. intros _.
  apply total_forEach_in. intros handler Hin.
  by apply (total_handlers now (ev_kind e)).
Qed.

(** The chunks are handled one after the other, the pause between them does
    nothing: the loop is the iteration over the events in batch order. *)
Lemma processChunks_concat now userPubkey chunks s :
  processChunks X now userPubkey chunks s
  = forEach (processEvent X now userPubkey) (concat chunks) s.
Proof.
  revert s. induction chunks as [|c rest IH]; intros s; [done|].
  cbn [processChunks concat]. rewrite forEach_app.
  unfold mbind, M_bind, bind.
  destruct (forEach (processEvent X now userPubkey) c s) as [[[]|] s1]; [|done].
  assert (Hpause : (match rest with [] => ret tt | _ => sleep 30 end) s1
                   = (Ok tt, s1)) by (by destruct rest).
  rewrite Hpause. apply IH.
Qed.

(** With handlers that all return, a batch is the left fold of its events. *)
Lemma processEvents_run (now : Z) (events : Batch) (s : State) :
  isShareableRelay X None = false →
  processEvents X now events s
  = (Ok tt,
     foldl (fun s1 e => exec (processEvent X now (getPubkey s) e) s1) s
       (present events)).
Proof.
  intros Hundef.
  unfold processEvents. unfold mbind at 1, M_bind at 1, bind at 1, gets.
  rewrite processChunks_concat, concat_chunk.
  rewrite forEach_total_foldl; [|intros e; by apply total_processEvent].
  done.
Qed.

(** C1.  [processEvents] returns on every batch, one event or an array with
    gaps, and on every store: nothing a handler throws on a malformed event
    (a content that is not JSON or does not parse to an object, a profile
    without the expected fields, tags that are missing or too short) leaves
    its [tryJson], so every handler registered for the kind of every event
    returns, and the store at the end is the one obtained by handling the
    events of the batch one after the other, in order, none skipped. *)
Theorem processEvents_never_throws (now : Z) (events : Batch) (s : State) :
  isShareableRelay X None = false →
  processEvents X now events s
  = (Ok tt,
     foldl (fun s1 e => exec (processEvent X now (getPubkey s) e) s1) s
       (present events))
  ∧ (∀ userPubkey e s1, ∃ s2, processEvent X now userPubkey e s1 = (Ok tt, s2))
  ∧ (∀ kind handler e s1, handler ∈ handlers X now kind →
       ∃ s2, handler e s1 = (Ok tt, s2)).
Proof.
  intros Hundef. split; [|split].
  - by apply processEvents_run.
  - intros me e s1.
    destruct (total_processEvent now me e Hundef s1) as ([] & s2 & Hs).
    by exists s2.
  - intros kind handler e s1 Hin.
    destruct (total_handlers now kind handler e Hundef Hin s1) as ([] & s2 & Hs).
    by exists s2.
Qed.

End Dispatch.

Lemma processEvents_never_throws_witness :
  isShareableRelay sample None = false
  ∧ let batch :=
      Many [Some (mkEvent "b1" "carol" 0 7 "null" []);
            None;
            Some (mkEvent "b2" "carol" 0 7 "{not json" []);
            Some (mkEvent "b3" "carol" 10002 7 EmptyString [["r"]; []]);
            Some (mkEvent "b4" "carol" 41 7 (document doc_a) [["p"; "x"]]);
            Some (mkEvent "b5" "carol" 0 7 (document doc_a) [])] in
    ∃ s', processEvents sample 2000 batch empty_state = (Ok tt, s')
          ∧ kind0_of s' "carol" = Some {[ "name" := JStr "a" ]}.
Proof.
  split; [reflexivity|].
  intros batch.
  destruct (processEvents_never_throws sample 2000 batch empty_state eq_refl)
    as [Hrun _].
  eexists. split; [exact Hrun|]. vm_compute. reflexivity.
Defined.

(** ** A last-write-wins register *)

Section Register.

(** A register holds a timestamp, possibly missing, and a value; an update
    carries its timestamp and a payload that acts on the value. *)
Context {V P : Type} (app : Z * P → V → V).

Definition lww (u : Z * P) (r : option Z * V) : option Z * V :=
  if js_lt u.1 r.1 then r else (Some u.1, app u r.2).

Definition lww_all (us : list (Z * P)) (r : option Z * V) : option Z * V :=
  foldl (fun r u => lww u r) r us.

(** The updates stamped [T], applied in order. *)
Definition at_time (T : Z) (us : list (Z * P)) (v : V) : V :=
  foldl (fun v u => if (u.1 =? T)%Z then app u v else v) v us.

Lemma at_time_snoc T us u v :
  at_time T (us ++ [u]) v
  = if (u.1 =? T)%Z then app u (at_time T us v) else at_time T us v.
Proof. unfold at_time. by rewrite foldl_snoc. Qed.

Lemma at_time_below T us v :
  (∀ u, u ∈ us → (u.1 < T)%Z) → at_time T us v = v.
Proof.
  revert v. induction us as [|u us IH]; intros v Hlt; [done|].
  simpl. rewrite (proj2 (Z.eqb_neq _ _)).
  - apply IH. intros w Hw. apply Hlt. by right.
  - specialize (Hlt u ltac:(left)). lia.
Qed.

(** After a pass the timestamp bounds every update of the pass, and the value
    ends with the updates stamped with it. *)
Lemma lww_all_shape us r :
  match (lww_all us r).1 with
  | None => us = []
  | Some T =>
      (∀ u, u ∈ us → (u.1 ≤ T)%Z) ∧ ∃ v, (lww_all us r).2 = at_time T us v
  end.
Proof.
  induction us as [|u us IH] using rev_ind.
  - simpl. destruct r as [[T|] v]; simpl; [|done].
    split; [intros u Hu; by apply elem_of_nil in Hu|]. by exists v.
  - unfold lww_all in *. rewrite foldl_snoc.
    set (r1 := foldl (fun r u => lww u r) r us) in *.
    unfold lww. destruct (r1.1) as [T|] eqn:Hts; simpl.
    + destruct IH as [Hle [v Hv]].
      destruct (u.1 <? T)%Z eqn:Hlt; simpl.
      * rewrite Hts. apply Z.ltb_lt in Hlt. split.
        -- intros w Hw. apply elem_of_app in Hw as [Hw|Hw]; [by apply Hle|].
           apply list_elem_of_singleton in Hw as ->. lia.
        -- exists v. rewrite at_time_snoc, (proj2 (Z.eqb_neq _ _)) by lia. done.
      * apply Z.ltb_ge in Hlt. split.
        -- intros w Hw. apply elem_of_app in Hw as [Hw|Hw].
           ++ specialize (Hle w Hw). lia.
           ++ apply list_elem_of_singleton in Hw as ->. lia.
        -- destruct (decide (u.1 = T)) as [HT|HT].
           ++ exists v. rewrite HT, at_time_snoc, <- HT, Z.eqb_refl, HT.
              by rewrite Hv.
           ++ exists r1.2. rewrite at_time_snoc, Z.eqb_refl.
              rewrite at_time_below; [done|].
              intros w Hw. specialize (Hle w Hw). lia.
    + subst us. simpl. split.
      * intros w Hw. apply list_elem_of_singleton in Hw as ->. lia.
      * exists r1.2. by rewrite Z.eqb_refl.
Qed.

(** A pass over updates that the timestamp already bounds. *)
Lemma lww_all_bounded us T v :
  (∀ u, u ∈ us → (u.1 ≤ T)%Z) →
  lww_all us (Some T, v) = (Some T, at_time T us v).
Proof.
  revert v. induction us as [|[t p] us IH]; intros v Hle; [done|].
  simpl. unfold lww. simpl.
  assert (Hu : (t ≤ T)%Z) by (apply (Hle (t, p)); left).
  assert (Hrest : ∀ w, w ∈ us → (w.1 ≤ T)%Z) by (intros w Hw; apply Hle; by right).
  destruct (t <? T)%Z eqn:Hlt.
  - apply Z.ltb_lt in Hlt. rewrite (proj2 (Z.eqb_neq _ _)) by lia. by apply IH.
  - apply Z.ltb_ge in Hlt. assert (t = T) as -> by lia.
    rewrite Z.eqb_refl. by apply IH.
Qed.

Hypothesis at_time_idem : ∀ T us v, at_time T us (at_time T us v) = at_time T us v.

Lemma lww_all_twice us r : lww_all us (lww_all us r) = lww_all us r.
Proof using at_time_idem.
  pose proof (lww_all_shape us r) as Hshape.
  destruct (lww_all us r) as [[T|] v1] eqn:Hr1; simpl in Hshape.
  - destruct Hshape as [Hle [v Hv]].
    rewrite (lww_all_bounded us T v1 Hle), Hv. by rewrite at_time_idem.
  - by subst us.
Qed.

End Register.

(** ** What a handler leaves alone *)

(** [m] does not change the part [proj] of the store, whether it returns or
    throws. *)
Definition keeps {B A} (proj : State → B) (m : M A) : Prop :=
  ∀ s, proj (m s).2 = proj s.

Section Keeps.

Context {B : Type} (proj : State → B).

Lemma keeps_ret {A} (a : A) : keeps proj (ret a).
Proof. done. Qed.

Lemma keeps_throw {A} : keeps proj (@throw A).
Proof. done. Qed.

Lemma keeps_lift {A} (r : result A) : keeps proj (lift r).
Proof. done. Qed.

Lemma keeps_gets {A} (f : State → A) : keeps proj (gets f).
Proof. done. Qed.

Lemma keeps_modify f : (∀ s, proj (f s) = proj s) → keeps proj (modify f).
Proof. intros Hf s. apply Hf. Qed.

Lemma keeps_bind {A C} (m : M A) (k : A → M C) :
  keeps proj m → (∀ a, keeps proj (k a)) → keeps proj (m ≫= k).
Proof.
  intros Hm Hk s. unfold mbind, M_bind, bind.
  specialize (Hm s). destruct (m s) as [[a|] s1]; simpl in *; [|done].
  by rewrite Hk.
Qed.

Lemma keeps_tryJson {A} (m : M A) : keeps proj m → keeps proj (tryJson m).
Proof.
  intros Hm s. unfold tryJson. specialize (Hm s).
  by destruct (m s) as [[a|] s1].
Qed.

Lemma keeps_if {A} (b : bool) (m1 m2 : M A) :
  keeps proj m1 → keeps proj m2 → keeps proj (if b then m1 else m2).
Proof. by destruct b. Qed.

Lemma keeps_forEach {A} (f : A → M unit) (xs : list A) :
  (∀ x, keeps proj (f x)) → keeps proj (forEach f xs).
Proof.
  intros Hf. induction xs as [|x xs IH]; simpl; [apply keeps_ret|].
  apply keeps_bind; [apply Hf|]. intros _. exact IH.
Qed.

End Keeps.

Create HintDb keeps discriminated.
#[local] Hint Resolve keeps_ret keeps_throw keeps_lift keeps_gets
  keeps_tryJson keeps_if : keeps.
#[local] Hint Extern 2 (keeps _ (_ ≫= _)) =>
  apply keeps_bind; [|intros ?] : keeps.
#[local] Hint Extern 2 (keeps _ (forEach _ _)) =>
  apply keeps_forEach; intros ? : keeps.
#[local] Hint Extern 2 (keeps _ (modify _)) =>
  apply keeps_modify; intros ?; reflexivity : keeps.
#[local] Hint Extern 3 (keeps _ (match ?x with _ => _ end)) =>
  destruct x : keeps.

(** The Identity and Room tables. *)
Definition tables (s : State) : gmap string Person * gmap string Room :=
  (people s, rooms s).

Section HandlerEffects.

Variable X : Externals.

Lemma keeps_addRoute {B} (proj : State → B) now pubkey rawUrl type mode observed :
  (∀ url s, proj (relays_patch url s) = proj s) →
  (∀ r s, proj (routes_put r s) = proj s) →
  keeps proj (addRoute X now pubkey rawUrl type mode observed).
Proof.
  intros Hrel Hput. unfold addRoute.
  destruct (negb _); [apply keeps_ret|].
  destruct rawUrl as [raw|]; [|apply keeps_throw].
  apply keeps_bind; [apply keeps_gets|]. intros stored.
  apply keeps_if; [|apply keeps_ret].
  apply keeps_bind; [|intros _]; apply keeps_modify; intros s; auto.
Qed.

Lemma keeps_tables_addRoute now pubkey rawUrl type mode observed :
  keeps tables (addRoute X now pubkey rawUrl type mode observed).
Proof. by apply keeps_addRoute. Qed.

Lemma keeps_tables_profileHandler key getValue e :
  keeps tables (profileHandler key getValue e).
Proof. unfold profileHandler. auto 6 with keeps. Qed.

Lemma keeps_tables_routes_kind2 now e : keeps tables (routes_kind2 X now e).
Proof.
  pose proof keeps_tables_addRoute. unfold routes_kind2. auto with keeps.
Qed.

Lemma keeps_tables_routes_kind3 now e : keeps tables (routes_kind3 X now e).
Proof.
  pose proof keeps_tables_addRoute. unfold routes_kind3. auto 8 with keeps.
Qed.

Lemma keeps_tables_routes_kind10002 now e :
  keeps tables (routes_kind10002 X now e).
Proof.
  pose proof keeps_tables_addRoute. unfold routes_kind10002.
  apply keeps_forEach. intros t. repeat case_match; auto with keeps.
Qed.

Lemma keeps_people_patch_room roomId e : keeps people (patch_room X roomId e).
Proof. unfold patch_room. auto 6 with keeps. Qed.

Lemma keeps_rooms_updatePerson now pubkey data :
  keeps rooms (updatePerson now pubkey data).
Proof. unfold updatePerson. auto 6 with keeps. Qed.

Lemma keeps_rooms_handle_kind0 now e : keeps rooms (handle_kind0 X now e).
Proof.
  unfold handle_kind0, start.
  apply keeps_bind; [apply keeps_tryJson|intros _; apply keeps_ret].
  apply keeps_bind; [apply keeps_lift|intros k0].
  apply keeps_bind; [apply keeps_gets|intros person].
  apply keeps_if; [apply keeps_ret|].
  apply keeps_bind; [apply keeps_lift|intros nip].
  apply keeps_bind; [auto with keeps|intros _].
  apply keeps_bind; [apply keeps_lift|intros lud16].
  apply keeps_bind; [apply keeps_lift|intros lud06].
  apply keeps_bind; [|intros _; apply keeps_rooms_updatePerson].
  apply keeps_if; [|apply keeps_ret].
  repeat case_match; auto with keeps.
Qed.

Lemma keeps_rooms_handle_petnames now e : keeps rooms (handle_petnames now e).
Proof.
  pose proof keeps_rooms_updatePerson. unfold handle_petnames.
  auto 6 with keeps.
Qed.

End HandlerEffects.

(** ** The Identity and Room tables along a batch *)

(** [mergeable], as a test. *)
Definition carries (k0 : json) : bool :=
  match k0 with
  | JNull => false
  | _ =>
      if truthy_opt (address_of k0)
      then match address_of k0 with Some (JStr _) => true | _ => false end
      else true
  end.

(** [people.patch] on the table alone. *)
Definition patched (now : Z) (pubkey : string) (data : PersonData)
    (ppl : gmap string Person) : gmap string Person :=
  <[pubkey := mkPerson (Some now)
                (merge_data data
                   (default no_data (person_data <$> ppl !! pubkey)))]> ppl.

Definition kind0_patch (t : Z) (k0 : json) (old : option (gmap string json))
    : PersonData :=
  mkPersonData (Some (spread old k0)) (Some t) None None None None None.

Definition petnames_patch (t : Z) (names : list Tag) : PersonData :=
  mkPersonData None None (Some names) (Some t) None None None.

Section Tables.

Variable X : Externals.

(** What an event does to the [people] table. *)
Definition people_after (now : Z) (e : Event) (ppl : gmap string Person)
    : gmap string Person :=
  let row := person_data <$> ppl !! ev_pubkey e in
  if (ev_kind e =? 0)%Z then
    match JSON_parse X (content e) with
    | Some k0 =>
        if carries k0 && negb (js_lt (created_at e) (row ≫= kind0_updated_at))
        then patched now (ev_pubkey e)
               (kind0_patch (created_at e) k0 (row ≫= kind0)) ppl
        else ppl
    | None => ppl
    end
  else if (ev_kind e =? 3)%Z then
    if js_lt (created_at e) (row ≫= petnames_updated_at) then ppl
    else patched now (ev_pubkey e)
           (petnames_patch (created_at e) (List.filter (is_tag "p") (tags e)))
           ppl
  else ppl.

(** The room an event is about. *)
Definition room_target (e : Event) : option string :=
  if (ev_kind e =? 40)%Z then Some (ev_id e)
  else if (ev_kind e =? 41)%Z then
    match first_e_value e with
    | Some roomId => if truthy_string roomId then Some roomId else None
    | None => None
    end
  else None.

(** The metadata an event carries, when it names the room. *)
Definition room_payload (e : Event) : option (gmap string json) :=
  match room_content X e with
  | Some attrs => if truthy_opt (attrs !! "name") then Some attrs else None
  | None => None
  end.

(** What an event does to the [rooms] table. *)
Definition rooms_after (e : Event) (rms : gmap string Room)
    : gmap string Room :=
  match room_target e, room_payload e with
  | Some roomId, Some attrs =>
      if js_lt (created_at e) (rms !! roomId ≫= room_updated_at) then rms
      else <[roomId := mkRoom (Some (ev_pubkey e)) (Some (created_at e))
                         (attrs ∪ default ∅ (room_attrs <$> rms !! roomId))]>
             rms
  | _, _ => rms
  end.

Lemma people_updatePerson now pubkey data s :
  people (exec (updatePerson now pubkey data) s)
  = patched now pubkey data (people s).
Proof.
  unfold exec, updatePerson, mbind, M_bind, bind, modify, gets. simpl.
  by destruct (bool_decide _).
Qed.

Lemma people_handle_kind0 now e s :
  ev_kind e = 0%Z →
  people (exec (handle_kind0 X now e) s) = people_after now e (people s).
Proof.
  intros Hkind. unfold people_after. rewrite Hkind. simpl.
  unfold exec, handle_kind0. rewrite tryJson_then, bind_lift.
  destruct (JSON_parse X (content e)) as [k0|]; simpl; [|done].
  rewrite bind_gets.
  destruct (js_lt (created_at e) _) eqn:Hguard.
  { by rewrite andb_false_r. }
  rewrite andb_true_r.
  destruct (get_prop_cases k0) as [->|Hget]; [done|].
  assert (Hc : carries k0
    = if truthy_opt (address_of k0)
      then match address_of k0 with Some (JStr _) => true | _ => false end
      else true) by (destruct k0; try done; by specialize (Hget "nip05")).
  rewrite Hc. unfold address_of.
  rewrite bind_lift, Hget.
  set (n5 := get_prop_opt (Some k0) "nip05").
  set (a16 := get_prop_opt (Some k0) "lud16").
  set (a06 := get_prop_opt (Some k0) "lud06").
  set (data := mkPersonData _ _ _ _ _ _ _).
  assert (Hnip : ∃ s1, people s1 = people s ∧
            ∀ B (k : unit → M B),
              ((if truthy_opt n5
                then start (LookupNip05 (ev_pubkey e) (default JNull n5))
                else ret tt) ≫= k) s = k tt s1).
  { destruct (truthy_opt n5); eexists; (split; [|intros B k; reflexivity]);
      done. }
  destruct Hnip as (s1 & Hp1 & ->).
  rewrite bind_lift, Hget, bind_lift, Hget. fold a16 a06.
  destruct (truthy_opt (if truthy_opt a16 then a16 else a06)) eqn:Ht.
  - destruct (if truthy_opt a16 then a16 else a06) as [[]|];
      try (rewrite bind_throw; simpl; exact Hp1).
    unfold start. rewrite bind_modify.
    pose proof (people_updatePerson now (ev_pubkey e) data) as Hup.
    unfold exec in Hup. rewrite Hup. simpl. by rewrite Hp1.
  - rewrite bind_ret.
    pose proof (people_updatePerson now (ev_pubkey e) data) as Hup.
    unfold exec in Hup. rewrite Hup. by rewrite Hp1.
Qed.

Lemma people_handle_petnames now e s :
  ev_kind e = 3%Z →
  people (exec (handle_petnames now e) s) = people_after now e (people s).
Proof.
  intros Hkind. unfold people_after. rewrite Hkind. simpl.
  unfold exec, handle_petnames. rewrite bind_gets.
  destruct (js_lt (created_at e) _); [done|].
  apply (people_updatePerson now (ev_pubkey e)).
Qed.

Lemma rooms_patch_room roomId e s :
  room_target e = Some roomId →
  rooms (exec (patch_room X roomId e) s) = rooms_after e (rooms s).
Proof.
  intros Htarget. unfold rooms_after, room_payload. rewrite Htarget.
  unfold exec, patch_room. rewrite bind_gets.
  destruct (room_content X e) as [attrs|]; simpl.
  - destruct (js_lt (created_at e) _); [by destruct (truthy_opt _)|].
    by destruct (truthy_opt (attrs !! "name")).
  - by destruct (js_lt (created_at e) _).
Qed.

Lemma then_ret {A} (m : M A) s : ((m ≫= fun _ => ret tt) s).2 = (m s).2.
Proof. unfold mbind, M_bind, bind. by destruct (m s) as [[a|] s1]. Qed.

Lemma keeps_handlers {B} (proj : State → B) (hs : list (Event → M unit)) e :
  (∀ h, h ∈ hs → keeps proj (h e)) →
  keeps proj (forEach (fun h => h e) hs).
Proof.
  induction hs as [|h hs IH]; intros Hk; simpl; [apply keeps_ret|].
  apply keeps_bind; [apply Hk; left|].
  intros _. apply IH. intros h' Hh'. apply Hk. by right.
Qed.

(** The Identity and Room tables after an event depend on these tables
    alone. *)
Lemma tables_processEvent now userPubkey e s :
  tables (exec (processEvent X now userPubkey e) s)
  = (people_after now e (people s), rooms_after e (rooms s)).
Proof.
  set (s0 := if bool_decide (Some (ev_pubkey e) = userPubkey)
             then userEvents_put e s else s).
  assert (Hpre : (if bool_decide (Some (ev_pubkey e) = userPubkey)
                  then modify (userEvents_put e) else ret tt) s = (Ok tt, s0)).
  { unfold s0. by destruct (bool_decide _). }
  assert (Hp0 : people s0 = people s) by (unfold s0; by destruct (bool_decide _)).
  assert (Hr0 : rooms s0 = rooms s) by (unfold s0; by destruct (bool_decide _)).
  unfold exec, processEvent. rewrite (bind_Ok _ _ _ _ _ Hpre).
  rewrite <- Hp0, <- Hr0. clearbody s0. clear Hpre Hp0 Hr0 s.
  assert (Hquiet : ∀ hs : list (Event → M unit),
            (∀ h, h ∈ hs → keeps tables (h e)) →
            people_after now e (people s0) = people s0 →
            rooms_after e (rooms s0) = rooms s0 →
            tables (forEach (fun h => h e) hs s0).2
            = (people_after now e (people s0), rooms_after e (rooms s0))).
  { intros hs Hk -> ->. exact (keeps_handlers tables hs e Hk s0). }
  unfold handlers.
  destruct (ev_kind e =? 0)%Z eqn:H0.
  { apply Z.eqb_eq in H0. cbn [forEach]. unfold tables. rewrite then_ret.
    f_equal; [by apply people_handle_kind0|].
    rewrite (keeps_rooms_handle_kind0 X now e s0).
    unfold rooms_after, room_target. by rewrite H0. }
  destruct (ev_kind e =? 2)%Z eqn:H2.
  { apply Z.eqb_eq in H2. apply Hquiet.
    - intros h Hh. rewrite !elem_of_cons, elem_of_nil in Hh.
      destruct Hh as [->|[->|[]]];
        [apply keeps_tables_profileHandler|apply keeps_tables_routes_kind2].
    - unfold people_after. by rewrite H2.
    - unfold rooms_after, room_target. by rewrite H2. }
  destruct (ev_kind e =? 3)%Z eqn:H3.
  { apply Z.eqb_eq in H3. cbn [forEach].
    assert (Hpet : handle_petnames now e s0
                   = (Ok tt, exec (handle_petnames now e) s0)).
    { apply total_unit. unfold handle_petnames.
      pose proof total_updatePerson. auto 6 with total. }
    rewrite (bind_Ok _ _ _ _ _ Hpet).
    assert (Hrest : keeps tables
              (profileHandler KeyRelays (relays_kind3 X) e;;
               routes_kind3 X now e;; ret tt)).
    { apply keeps_bind; [apply keeps_tables_profileHandler|intros _].
      apply keeps_bind; [apply keeps_tables_routes_kind3|intros _].
      apply keeps_ret. }
    rewrite Hrest. unfold tables. f_equal; [by apply people_handle_petnames|].
    etransitivity; [apply (keeps_rooms_handle_petnames now e s0)|].
    unfold rooms_after, room_target. by rewrite H3. }
  destruct (ev_kind e =? 10000)%Z eqn:H10000.
  { apply Z.eqb_eq in H10000. apply Hquiet.
    - intros h Hh. rewrite !elem_of_cons, elem_of_nil in Hh.
      destruct Hh as [->|[]]. apply keeps_tables_profileHandler.
    - unfold people_after. by rewrite H10000.
    - unfold rooms_after, room_target. by rewrite H10000. }
  destruct (ev_kind e =? 10001)%Z eqn:H10001.
  { apply Z.eqb_eq in H10001. apply Hquiet.
    - intros h Hh. rewrite !elem_of_cons, elem_of_nil in Hh.
      destruct Hh as [->|[]]. apply keeps_tables_profileHandler.
    - unfold people_after. by rewrite H10001.
    - unfold rooms_after, room_target. by rewrite H10001. }
  destruct (ev_kind e =? 10002)%Z eqn:H10002.
  { apply Z.eqb_eq in H10002. apply Hquiet.
    - intros h Hh. rewrite !elem_of_cons, elem_of_nil in Hh.
      destruct Hh as [->|[->|[]]];
        [apply keeps_tables_profileHandler|apply keeps_tables_routes_kind10002].
    - unfold people_after. by rewrite H10002.
    - unfold rooms_after, room_target. by rewrite H10002. }
  assert (Hppl : people_after now e (people s0) = people s0).
  { unfold people_after. by rewrite H0, H3. }
  rewrite Hppl.
  destruct (ev_kind e =? 40)%Z eqn:H40.
  { cbn [forEach]. unfold tables. rewrite then_ret. unfold handle_kind40.
    f_equal; [apply keeps_people_patch_room|].
    apply rooms_patch_room. unfold room_target. by rewrite H40. }
  destruct (ev_kind e =? 41)%Z eqn:H41.
  { cbn [forEach]. unfold tables. rewrite then_ret. unfold handle_kind41.
    destruct (room_target e) as [roomId|] eqn:Htarget.
    - pose proof Htarget as Ht. unfold room_target in Ht. rewrite H40, H41 in Ht.
      destruct (first_e_value e) as [r|]; [|done].
      destruct (truthy_string r); [|done]. injection Ht as ->.
      f_equal; [apply keeps_people_patch_room|by apply rooms_patch_room].
    - unfold rooms_after. rewrite Htarget.
      unfold room_target in Htarget. rewrite H40, H41 in Htarget.
      destruct (first_e_value e) as [r|]; [|done].
      by destruct (truthy_string r). }
  simpl. f_equal. unfold rooms_after, room_target. by rewrite H40, H41.
Qed.

End Tables.

(** ** The field-groups as registers *)

Definition app_kind0 (u : Z * json) (v : option (gmap string json))
    : option (gmap string json) :=
  Some (spread v u.2).

Definition app_petnames (u : Z * list Tag) (v : option (list Tag))
    : option (list Tag) :=
  Some u.2.

Definition app_room (u : Z * (string * gmap string json)) (v : option Room)
    : option Room :=
  Some (mkRoom (Some u.2.1) (Some u.1)
          (u.2.2 ∪ default ∅ (room_attrs <$> v))).

Definition reg_kind0 (ppl : gmap string Person) (pubkey : string)
    : option Z * option (gmap string json) :=
  let row := person_data <$> ppl !! pubkey in
  (row ≫= kind0_updated_at, row ≫= kind0).

Definition reg_petnames (ppl : gmap string Person) (pubkey : string)
    : option Z * option (list Tag) :=
  let row := person_data <$> ppl !! pubkey in
  (row ≫= petnames_updated_at, row ≫= petnames).

Definition reg_room (rms : gmap string Room) (id : string)
    : option Z * option Room :=
  (rms !! id ≫= room_updated_at, rms !! id).

(** The fields of an Identity that only the verification lookups write. *)
Definition verified (ppl : gmap string Person) (pubkey : string)
    : option string * option string * option (gmap string json) :=
  let row := person_data <$> ppl !! pubkey in
  (row ≫= verified_as, row ≫= lnurl, row ≫= zapper).

Lemma kind0_idem T us v :
  at_time app_kind0 T us (at_time app_kind0 T us v) = at_time app_kind0 T us v.
Proof.
  assert (Hform : (∀ v, at_time app_kind0 T us v = v)
                  ∨ ∃ m, ∀ v, at_time app_kind0 T us v = Some (m ∪ default ∅ v)).
  { induction us as [|u us IH] using rev_ind; [by left|].
    destruct (u.1 =? T)%Z eqn:Hu.
    - right. destruct IH as [Hid|[m Hm]].
      + exists (obj_of_entries (own_entries u.2)). intros w.
        by rewrite at_time_snoc, Hu, Hid.
      + exists (obj_of_entries (own_entries u.2) ∪ m). intros w.
        rewrite at_time_snoc, Hu, Hm. unfold app_kind0, spread. simpl.
        by rewrite map_union_assoc.
    - destruct IH as [Hid|[m Hm]].
      + left. intros w. by rewrite at_time_snoc, Hu.
      + right. exists m. intros w. by rewrite at_time_snoc, Hu. }
  destruct Hform as [Hid|[m Hm]]; [by rewrite !Hid|].
  rewrite !Hm. simpl. by rewrite map_union_assoc, map_union_idemp.
Qed.

Lemma petnames_idem T us v :
  at_time app_petnames T us (at_time app_petnames T us v)
  = at_time app_petnames T us v.
Proof.
  assert (Hform : (∀ v, at_time app_petnames T us v = v)
                  ∨ ∃ l, ∀ v, at_time app_petnames T us v = Some l).
  { induction us as [|u us IH] using rev_ind; [by left|].
    destruct (u.1 =? T)%Z eqn:Hu.
    - right. exists u.2. intros w. by rewrite at_time_snoc, Hu.
    - destruct IH as [Hid|[l Hl]].
      + left. intros w. by rewrite at_time_snoc, Hu.
      + right. exists l. intros w. by rewrite at_time_snoc, Hu. }
  destruct Hform as [Hid|[l Hl]]; [by rewrite !Hid|by rewrite !Hl].
Qed.

Lemma room_idem T us v :
  at_time app_room T us (at_time app_room T us v) = at_time app_room T us v.
Proof.
  assert (Hform :
    (∀ v, at_time app_room T us v = v)
    ∨ ∃ pk m, ∀ v, at_time app_room T us v
                   = Some (mkRoom (Some pk) (Some T)
                             (m ∪ default ∅ (room_attrs <$> v)))).
  { induction us as [|u us IH] using rev_ind; [by left|].
    destruct (u.1 =? T)%Z eqn:Hu.
    - right. apply Z.eqb_eq in Hu as HT. destruct IH as [Hid|(pk & m & Hm)].
      + exists u.2.1, u.2.2. intros w.
        rewrite at_time_snoc, Hu, Hid. unfold app_room. by rewrite HT.
      + exists u.2.1, (u.2.2 ∪ m). intros w.
        rewrite at_time_snoc, Hu, Hm. unfold app_room. simpl.
        by rewrite HT, map_union_assoc.
    - destruct IH as [Hid|(pk & m & Hm)].
      + left. intros w. by rewrite at_time_snoc, Hu.
      + right. exists pk, m. intros w. by rewrite at_time_snoc, Hu. }
  destruct Hform as [Hid|(pk & m & Hm)]; [by rewrite !Hid|].
  rewrite !Hm. simpl. by rewrite map_union_assoc, map_union_idemp.
Qed.

Section Updates.

Variable X : Externals.

(** The update an event is for a register, whether or not the guard will let
    it through. *)
Definition kind0_update (pubkey : string) (e : Event) : option (Z * json) :=
  if (ev_kind e =? 0)%Z && String.eqb (ev_pubkey e) pubkey then
    match JSON_parse X (content e) with
    | Some k0 => if carries k0 then Some (created_at e, k0) else None
    | None => None
    end
  else None.

Definition petnames_update (pubkey : string) (e : Event)
    : option (Z * list Tag) :=
  if (ev_kind e =? 3)%Z && String.eqb (ev_pubkey e) pubkey
  then Some (created_at e, List.filter (is_tag "p") (tags e))
  else None.

Definition room_update (id : string) (e : Event)
    : option (Z * (string * gmap string json)) :=
  match room_target e, room_payload X e with
  | Some roomId, Some attrs =>
      if String.eqb roomId id
      then Some (created_at e, (ev_pubkey e, attrs)) else None
  | _, _ => None
  end.

End Updates.

Lemma patched_lookup now pubkey data ppl pk :
  person_data <$> patched now pubkey data ppl !! pk
  = if bool_decide (pubkey = pk)
    then Some (merge_data data (default no_data (person_data <$> ppl !! pk)))
    else person_data <$> ppl !! pk.
Proof.
  unfold patched. case_bool_decide as Hpk.
  - subst pk. by rewrite lookup_insert_eq.
  - by rewrite lookup_insert_ne.
Qed.

Lemma reg_kind0_patched now pubkey data ppl pk :
  reg_kind0 (patched now pubkey data ppl) pk
  = if bool_decide (pubkey = pk)
    then (over (kind0_updated_at data) (reg_kind0 ppl pk).1,
          over (kind0 data) (reg_kind0 ppl pk).2)
    else reg_kind0 ppl pk.
Proof.
  unfold reg_kind0. rewrite patched_lookup.
  destruct (bool_decide _); [|done].
  by destruct (ppl !! pk).
Qed.

Lemma reg_petnames_patched now pubkey data ppl pk :
  reg_petnames (patched now pubkey data ppl) pk
  = if bool_decide (pubkey = pk)
    then (over (petnames_updated_at data) (reg_petnames ppl pk).1,
          over (petnames data) (reg_petnames ppl pk).2)
    else reg_petnames ppl pk.
Proof.
  unfold reg_petnames. rewrite patched_lookup.
  destruct (bool_decide _); [|done].
  by destruct (ppl !! pk).
Qed.

Lemma verified_patched now pubkey data ppl pk :
  verified_as data = None → lnurl data = None → zapper data = None →
  verified (patched now pubkey data ppl) pk = verified ppl pk.
Proof.
  intros H1 H2 H3. unfold verified. rewrite patched_lookup.
  destruct (bool_decide _); [|done].
  destruct (ppl !! pk); simpl; by rewrite H1, H2, H3.
Qed.

Section Simulation.

Variable X : Externals.

Lemma eqb_decide (a b : string) : String.eqb a b = bool_decide (a = b).
Proof.
  destruct (String.eqb_spec a b).
  - by rewrite bool_decide_true.
  - by rewrite bool_decide_false.
Qed.

Lemma sim_kind0 now e ppl pk :
  reg_kind0 (people_after X now e ppl) pk
  = match kind0_update X pk e with
    | Some u => lww app_kind0 u (reg_kind0 ppl pk)
    | None => reg_kind0 ppl pk
    end.
Proof.
  unfold people_after, kind0_update. rewrite eqb_decide.
  destruct (ev_kind e =? 0)%Z; simpl.
  - destruct (JSON_parse X (content e)) as [k0|];
      [|by destruct (bool_decide _)].
    destruct (carries k0); simpl; [|by destruct (bool_decide _)].
    case_bool_decide as Hpk.
    + subst pk. unfold lww. simpl.
      destruct (js_lt (created_at e) _); simpl; [done|].
      rewrite reg_kind0_patched, bool_decide_true by done. done.
    + destruct (js_lt (created_at e) _); simpl; [done|].
      by rewrite reg_kind0_patched, bool_decide_false.
  - destruct (ev_kind e =? 3)%Z; [|done].
    destruct (js_lt (created_at e) _); [done|].
    rewrite reg_kind0_patched. by destruct (bool_decide _), (reg_kind0 ppl pk).
Qed.

Lemma sim_petnames now e ppl pk :
  reg_petnames (people_after X now e ppl) pk
  = match petnames_update pk e with
    | Some u => lww app_petnames u (reg_petnames ppl pk)
    | None => reg_petnames ppl pk
    end.
Proof.
  unfold people_after, petnames_update. rewrite eqb_decide.
  destruct (ev_kind e =? 0)%Z eqn:H0; simpl.
  - assert ((ev_kind e =? 3)%Z = false) as ->.
    { apply Z.eqb_eq in H0. rewrite H0. done. }
    simpl.
    destruct (JSON_parse X (content e)) as [k0|]; [|done].
    destruct (carries k0 && _); [|done].
    rewrite reg_petnames_patched.
    by destruct (bool_decide _), (reg_petnames ppl pk).
  - destruct (ev_kind e =? 3)%Z; [|done]. simpl.
    case_bool_decide as Hpk.
    + subst pk. unfold lww. simpl.
      destruct (js_lt (created_at e) _); simpl; [done|].
      rewrite reg_petnames_patched, bool_decide_true by done. done.
    + destruct (js_lt (created_at e) _); simpl; [done|].
      by rewrite reg_petnames_patched, bool_decide_false.
Qed.

Lemma sim_verified now e ppl pk :
  verified (people_after X now e ppl) pk = verified ppl pk.
Proof.
  unfold people_after. repeat case_match; try done;
    by apply verified_patched.
Qed.

Lemma sim_room e rms id :
  reg_room (rooms_after X e rms) id
  = match room_update X id e with
    | Some u => lww app_room u (reg_room rms id)
    | None => reg_room rms id
    end.
Proof.
  unfold rooms_after, room_update.
  destruct (room_target e) as [roomId|]; [|done].
  destruct (room_payload X e) as [attrs|]; [|done].
  rewrite eqb_decide. case_bool_decide as Hid.
  - subst id. unfold lww, reg_room. simpl.
    destruct (js_lt (created_at e) _); simpl; [done|].
    by rewrite lookup_insert_eq.
  - destruct (js_lt (created_at e) _); simpl; [done|].
    unfold reg_room. by rewrite lookup_insert_ne.
Qed.

(** An event that is no update for the two registers of a pubkey leaves its
    row alone. *)
Lemma row_untouched now e ppl pk :
  kind0_update X pk e = None → petnames_update pk e = None →
  people_after X now e ppl !! pk = ppl !! pk.
Proof.
  unfold people_after, kind0_update, petnames_update. rewrite !eqb_decide.
  destruct (ev_kind e =? 0)%Z; simpl.
  - intros H0 _.
    destruct (JSON_parse X (content e)) as [k0|]; [|done].
    destruct (carries k0); simpl; [|done].
    case_bool_decide as Hpk; [done|].
    destruct (js_lt _ _); simpl; [done|].
    unfold patched. by rewrite lookup_insert_ne.
  - intros _ H3. destruct (ev_kind e =? 3)%Z; [|done]. simpl in H3.
    case_bool_decide as Hpk; [done|].
    destruct (js_lt _ _); simpl; [done|].
    unfold patched. by rewrite lookup_insert_ne.
Qed.

(** Rows are never removed. *)
Lemma row_stays now e ppl pk :
  is_Some (ppl !! pk) → is_Some (people_after X now e ppl !! pk).
Proof.
  intros Hrow. unfold people_after, patched.
  repeat case_match; try done;
    (destruct (decide (ev_pubkey e = pk)) as [->|Hne];
     [rewrite lookup_insert_eq; by eexists|by rewrite lookup_insert_ne]).
Qed.

End Simulation.

(** ** A batch, twice *)

Section Twice.

Variable X : Externals.

Definition people_run (now : Z) (es : list Event) (ppl : gmap string Person)
    : gmap string Person :=
  foldl (fun ppl e => people_after X now e ppl) ppl es.

Definition rooms_run (es : list Event) (rms : gmap string Room)
    : gmap string Room :=
  foldl (fun rms e => rooms_after X e rms) rms es.

Lemma tables_run now userPubkey es s :
  tables (foldl (fun s e => exec (processEvent X now userPubkey e) s) s es)
  = (people_run now es (people s), rooms_run es (rooms s)).
Proof.
  revert s. induction es as [|e es IH]; intros s; [done|].
  simpl. rewrite IH.
  pose proof (tables_processEvent X now userPubkey e s) as Hstep.
  unfold tables in Hstep. injection Hstep as -> ->. done.
Qed.

Lemma reg_kind0_run now es ppl pk :
  reg_kind0 (people_run now es ppl) pk
  = lww_all app_kind0 (omap (kind0_update X pk) es) (reg_kind0 ppl pk).
Proof.
  revert ppl. induction es as [|e es IH]; intros ppl; [done|].
  simpl. rewrite IH, sim_kind0. by destruct (kind0_update X pk e).
Qed.

Lemma reg_petnames_run now es ppl pk :
  reg_petnames (people_run now es ppl) pk
  = lww_all app_petnames (omap (petnames_update pk) es) (reg_petnames ppl pk).
Proof.
  revert ppl. induction es as [|e es IH]; intros ppl; [done|].
  simpl. rewrite IH, sim_petnames. by destruct (petnames_update pk e).
Qed.

Lemma reg_room_run es rms id :
  reg_room (rooms_run es rms) id
  = lww_all app_room (omap (room_update X id) es) (reg_room rms id).
Proof.
  revert rms. induction es as [|e es IH]; intros rms; [done|].
  simpl. rewrite IH, sim_room. by destruct (room_update X id e).
Qed.

Lemma verified_run now es ppl pk :
  verified (people_run now es ppl) pk = verified ppl pk.
Proof.
  revert ppl. induction es as [|e es IH]; intros ppl; [done|].
  simpl. by rewrite IH, sim_verified.
Qed.

Lemma rows_untouched_run now es ppl pk :
  omap (kind0_update X pk) es = [] → omap (petnames_update pk) es = [] →
  people_run now es ppl !! pk = ppl !! pk.
Proof.
  revert ppl. induction es as [|e es IH]; intros ppl H0 H3; [done|].
  simpl in *.
  destruct (kind0_update X pk e) eqn:Hk; [done|].
  destruct (petnames_update pk e) eqn:Hp; [done|].
  rewrite IH by done. by apply row_untouched.
Qed.

Lemma rows_stay_run now es ppl pk :
  is_Some (ppl !! pk) → is_Some (people_run now es ppl !! pk).
Proof.
  revert ppl. induction es as [|e es IH]; intros ppl Hrow; [done|].
  simpl. apply IH. by apply row_stays.
Qed.

Lemma rooms_twice es rms : rooms_run es (rooms_run es rms) = rooms_run es rms.
Proof.
  apply map_eq. intros id.
  pose proof (reg_room_run es (rooms_run es rms) id) as H2.
  rewrite (reg_room_run es rms id) in H2.
  rewrite (lww_all_twice app_room room_idem) in H2.
  rewrite <- (reg_room_run es rms id) in H2.
  unfold reg_room in H2. by injection H2.
Qed.

Lemma people_twice now1 now2 es ppl pk :
  person_data <$> people_run now2 es (people_run now1 es ppl) !! pk
  = person_data <$> people_run now1 es ppl !! pk.
Proof.
  set (p1 := people_run now1 es ppl).
  pose proof (reg_kind0_run now2 es p1 pk) as Hk.
  unfold p1 in Hk at 2. rewrite (reg_kind0_run now1 es ppl pk) in Hk.
  rewrite (lww_all_twice app_kind0 kind0_idem) in Hk.
  pose proof (reg_petnames_run now2 es p1 pk) as Hp.
  unfold p1 in Hp at 2. rewrite (reg_petnames_run now1 es ppl pk) in Hp.
  rewrite (lww_all_twice app_petnames petnames_idem) in Hp.
  pose proof (verified_run now2 es p1 pk) as Hv.
  destruct (p1 !! pk) as [row1|] eqn:Hrow1.
  - destruct (rows_stay_run now2 es p1 pk) as [row2 Hrow2]; [by eexists|].
    rewrite <- (reg_kind0_run now1 es ppl pk) in Hk.
    rewrite <- (reg_petnames_run now1 es ppl pk) in Hp.
    fold p1 in Hk, Hp.
    unfold reg_kind0, reg_petnames, verified in Hk, Hp, Hv.
    rewrite Hrow1, Hrow2 in Hk, Hp, Hv. rewrite Hrow2. simpl in *.
    destruct row1 as [u1 [a1 b1 c1 d1 e1 f1 g1]],
             row2 as [u2 [a2 b2 c2 d2 e2 f2 g2]].
    simpl in *. congruence.
  - assert (H0 : omap (kind0_update X pk) es = []).
    { pose proof (lww_all_shape app_kind0 (omap (kind0_update X pk) es)
                    (reg_kind0 ppl pk)) as Hshape.
      rewrite <- (reg_kind0_run now1 es ppl pk) in Hshape. fold p1 in Hshape.
      unfold reg_kind0 in Hshape. by rewrite Hrow1 in Hshape. }
    assert (H3 : omap (petnames_update pk) es = []).
    { pose proof (lww_all_shape app_petnames (omap (petnames_update pk) es)
                    (reg_petnames ppl pk)) as Hshape.
      rewrite <- (reg_petnames_run now1 es ppl pk) in Hshape. fold p1 in Hshape.
      unfold reg_petnames in Hshape. by rewrite Hrow1 in Hshape. }
    by rewrite (rows_untouched_run now2 es p1 pk H0 H3), Hrow1.
Qed.

End Twice.

(** ** Route evidence of a relay list, delivered again *)

Definition route_count (s : State) (id : string) : nat :=
  default 0%nat (count <$> routes s !! id).

(** The (url, mode) pairs a kind-10002 event gives evidence for, in the
    order of the [addRoute] calls. *)
Definition targets (e : Event) : list (option string * string) :=
  flat_map (fun t : Tag =>
    let url := t !! 1%nat in
    match t !! 2%nat with
    | Some mode =>
        if truthy_string mode then [(url, mode)]
        else [(url, "read"); (url, "write")]
    | None => [(url, "read"); (url, "write")]
    end) (tags e).

Definition calls_10002 (now : Z) (e : Event) : list Call :=
  map (fun um : option string * string =>
         mkCall now (ev_pubkey e) um.1 "kind:10002" um.2 (created_at e))
    (targets e).

Section Redelivery.

Variable X : Externals.

(** The pair is a shareable URL of the route [id]. *)
Definition lands (pubkey id : string) (um : option string * string) : bool :=
  match um.1 with
  | Some raw =>
      isShareableRelay X (Some raw)
      && String.eqb (route_key X pubkey (normalizeRelayUrl X raw) um.2) id
  | None => false
  end.

(** How many [addRoute] calls of the event are for the route [id]. *)
Definition hits (id : string) (e : Event) : nat :=
  length (List.filter (lands (ev_pubkey e) id) (targets e)).

Lemma run_app calls1 calls2 s :
  run X (calls1 ++ calls2) s = run X calls2 (run X calls1 s).
Proof. unfold run. by rewrite foldl_app. Qed.

Lemma count_run calls s id :
  keyed s →
  route_count (run X calls s) id
  = (route_count s id + length (scores_into X id calls))%nat.
Proof.
  intros Hk. induction calls as [|c calls IH] using rev_ind.
  - simpl. lia.
  - rewrite run_snoc. unfold scores_into in *. rewrite omap_app, length_app.
    unfold route_count in *.
    rewrite (call_routes X c _ id (run_keyed X calls s Hk)). simpl.
    destruct (folded_into X id c) as [q|]; simpl; [|lia].
    destruct (routes (run X calls s) !! id) as [r|]; simpl in *; lia.
Qed.

Lemma evidence_fresh now observed :
  (now - observed < thirty_days)%Z →
  ∃ q, evidence now "kind:10002" observed = Some q ∧ (0 < q)%Q.
Proof.
  intros Hfresh. eexists. split; [reflexivity|].
  set (a := (now - observed)%Z) in *.
  unfold Qlt, Qminus, Qdiv, Qplus, Qopp, Qmult, Qinv, inject_Z, thirty_days
    in *; simpl in *. lia.
Qed.

Lemma folded_fresh now e id q um :
  evidence now "kind:10002" (created_at e) = Some q → (0 < q)%Q →
  folded_into X id
    (mkCall now (ev_pubkey e) um.1 "kind:10002" um.2 (created_at e))
  = if lands (ev_pubkey e) id um then Some q else None.
Proof.
  intros Hq Hpos. unfold folded_into, lands.
  cbn [call_url call_now call_type call_observed call_pubkey call_mode].
  rewrite Hq. destruct um.1 as [raw|]; [|done].
  destruct (isShareableRelay X (Some raw)); [|done].
  destruct (Qlt_le_dec 0 q) as [_|Hle]; [|by apply Qlt_not_le in Hpos].
  done.
Qed.

Lemma scores_fresh now e id :
  (now - created_at e < thirty_days)%Z →
  length (scores_into X id (calls_10002 now e)) = hits id e.
Proof.
  intros Hfresh. destruct (evidence_fresh _ _ Hfresh) as (q & Hq & Hpos).
  unfold hits, calls_10002, scores_into.
  induction (targets e) as [|um ums IH]; [done|].
  cbn [map omap list_omap List.filter].
  rewrite (folded_fresh now e id q um Hq Hpos).
  destruct (lands (ev_pubkey e) id um); cbn [length]; by rewrite IH.
Qed.

Lemma routes_kind10002_run now e s :
  isShareableRelay X None = false →
  exec (routes_kind10002 X now e) s = run X (calls_10002 now e) s.
Proof.
  intros Hundef. unfold exec, routes_kind10002, calls_10002, targets.
  pose proof (total_addRoute X) as Hadd.
  revert s. induction (tags e) as [|t ts IH]; intros s; [done|].
  cbn [forEach flat_map]. rewrite map_app, run_app.
  set (f := fun t : Tag => _) in *.
  assert (Hone : ∀ url mode s,
            (addRoute X now (ev_pubkey e) url "kind:10002" mode (created_at e) s)
            = (Ok tt, run X [mkCall now (ev_pubkey e) url "kind:10002" mode
                               (created_at e)] s)).
  { intros url mode s0. by apply (total_unit _ (Hadd _ _ _ _ _ _ Hundef)). }
  assert (Htwo : ∀ url s,
            (addRoute X now (ev_pubkey e) url "kind:10002" "read" (created_at e);;
             addRoute X now (ev_pubkey e) url "kind:10002" "write" (created_at e)) s
            = (Ok tt, run X [mkCall now (ev_pubkey e) url "kind:10002" "read"
                               (created_at e);
                             mkCall now (ev_pubkey e) url "kind:10002" "write"
                               (created_at e)] s)).
  { intros url s0. rewrite (bind_Ok _ _ _ _ _ (Hone url "read" s0)).
    by rewrite Hone. }
  assert (Hf : ∃ s1, f t s = (Ok tt, s1) ∧
            s1 = run X (map (fun um : option string * string =>
                               mkCall now (ev_pubkey e) um.1 "kind:10002" um.2
                                 (created_at e))
                          match t !! 2%nat with
                          | Some mode =>
                              if truthy_string mode then [(t !! 1%nat, mode)]
                              else [(t !! 1%nat, "read"); (t !! 1%nat, "write")]
                          | None => [(t !! 1%nat, "read"); (t !! 1%nat, "write")]
                          end) s).
  { unfold f. destruct (t !! 2%nat) as [mode|]; simpl.
    - destruct (truthy_string mode); simpl; eexists; split;
        [apply Hone|done|apply Htwo|done].
    - eexists; split; [apply Htwo|done]. }
  destruct Hf as (s1 & Hs1 & ->).
  rewrite (bind_Ok _ _ _ _ _ Hs1). apply IH.
Qed.

Lemma keeps_routes_profileHandler key getValue e :
  keeps routes (profileHandler key getValue e).
Proof. unfold profileHandler. auto 6 with keeps. Qed.

(** One delivery of a kind-10002 event adds to every route the evidence the
    event has for it. *)
Lemma delivery_counts now e s id :
  isShareableRelay X None = false → ev_kind e = 10002%Z → keyed s →
  let s' := exec (processEvents X now (One (Some e))) s in
  keyed s'
  ∧ route_count s' id
    = (route_count s id + length (scores_into X id (calls_10002 now e)))%nat.
Proof.
  intros Hundef Hkind Hk s'.
  assert (Hs' : ∃ s0, routes s0 = routes s ∧ s' = run X (calls_10002 now e) s0).
  { unfold s', exec.
    rewrite (processEvents_run X now (One (Some e)) s Hundef).
    simpl. unfold exec, processEvent. rewrite Hkind.
    change (handlers X now 10002)
      with [profileHandler KeyRelays relays_kind10002; routes_kind10002 X now].
    cbn [forEach].
    set (pre := if bool_decide _ then _ else _).
    assert (Hpre : ∃ s0, pre s = (Ok tt, s0) ∧ routes s0 = routes s).
    { unfold pre. destruct (bool_decide _); by eexists. }
    destruct Hpre as (s0 & Hpre & Hr0). rewrite (bind_Ok _ _ _ _ _ Hpre).
    assert (Hprof : ∃ s1, profileHandler KeyRelays relays_kind10002 e s0
                          = (Ok tt, s1) ∧ routes s1 = routes s).
    { exists (exec (profileHandler KeyRelays relays_kind10002 e) s0). split.
      - apply total_unit. unfold profileHandler. auto 6 with total.
      - rewrite <- Hr0. apply keeps_routes_profileHandler. }
    destruct Hprof as (s1 & Hprof & Hr1). rewrite (bind_Ok _ _ _ _ _ Hprof).
    exists s1. split; [done|]. rewrite then_ret.
    by apply routes_kind10002_run. }
  destruct Hs' as (s0 & Hr0 & ->).
  assert (Hk0 : keyed s0) by (intros k r; rewrite Hr0; apply Hk).
  split; [by apply run_keyed|].
  rewrite (count_run _ s0 id Hk0). unfold route_count. by rewrite Hr0.
Qed.

End Redelivery.

(** ** Idempotence *)

Definition carol_profile : Event :=
  mkEvent "b5" "carol" 0 7 (document doc_a) [].

(** C6, as stated, fails: an update that is accepted again rewrites the
    engine-local write time of the Identity, so the [people] table after the
    second pass, at a later clock reading, is not the table after the
    first. *)
Lemma second_pass_moves_updated_at :
  let batch := One (Some carol_profile) in
  let s1 := exec (processEvents sample 2000 batch) empty_state in
  let s2 := exec (processEvents sample 3000 batch) s1 in
  people s2 ≠ people s1.
Proof.
  intros batch s1 s2 H.
  assert (Hrow : person_updated_at <$> people s2 !! "carol"
                 = person_updated_at <$> people s1 !! "carol") by (by rewrite H).
  vm_compute in Hrow. discriminate Hrow.
Qed.

(** C6, amended.  Processing a batch a second time, at any clock reading,
    leaves every Identity with the fields it had after the first pass, the
    engine-local write time [updated_at] apart, and leaves the Room table as
    it was after the first pass.  Route evidence is folded again: a
    kind-10002 event delivered twice, both times within the decay window,
    adds to the count of every route twice the number of its [addRoute]
    calls for that route. *)
Theorem batch_twice (X : Externals) (now1 now2 : Z) (events : Batch)
    (s : State) :
  isShareableRelay X None = false →
  let s1 := exec (processEvents X now1 events) s in
  let s2 := exec (processEvents X now2 events) s1 in
  (∀ pk, person_data <$> people s2 !! pk = person_data <$> people s1 !! pk)
  ∧ rooms s2 = rooms s1
  ∧ (∀ e id,
       events = One (Some e) → ev_kind e = 10002%Z → keyed s →
       (now1 - created_at e < thirty_days)%Z →
       (now2 - created_at e < thirty_days)%Z →
       route_count s1 id = (route_count s id + hits X id e)%nat
       ∧ route_count s2 id = (route_count s id + 2 * hits X id e)%nat).
Proof.
  intros Hundef s1 s2.
  assert (Ht1 : tables s1
                = (people_run X now1 (present events) (people s),
                   rooms_run X (present events) (rooms s))).
  { unfold s1, exec. rewrite (processEvents_run X now1 events s Hundef).
    apply tables_run. }
  assert (Ht2 : tables s2
                = (people_run X now2 (present events) (people s1),
                   rooms_run X (present events) (rooms s1))).
  { unfold s2, exec. rewrite (processEvents_run X now2 events s1 Hundef).
    apply tables_run. }
  unfold tables in Ht1, Ht2. injection Ht1 as Hp1 Hr1. injection Ht2 as Hp2 Hr2.
  split; [|split].
  - intros pk. rewrite Hp2, Hp1. apply people_twice.
  - rewrite Hr2, Hr1. apply rooms_twice.
  - intros e id -> Hkind Hk Hf1 Hf2.
    destruct (delivery_counts X now1 e s id Hundef Hkind Hk) as [Hk1 Hc1].
    destruct (delivery_counts X now2 e _ id Hundef Hkind Hk1) as [_ Hc2].
    fold s1 in Hc1, Hc2. fold s2 in Hc2.
    rewrite (scores_fresh X now1 e id Hf1) in Hc1.
    rewrite (scores_fresh X now2 e id Hf2) in Hc2.
    split; [exact Hc1|]. rewrite Hc2, Hc1. lia.
Qed.

Definition carol_relays : Event :=
  mkEvent "b6" "carol" 10002 1700000000 EmptyString
    [["r"; "wss://relay.example"; "write"]; ["r"; "wss://other.example"]].

Lemma batch_twice_witness :
  isShareableRelay sample None = false
  ∧ hits sample "carolwss://relay.examplewrite" carol_relays = 1%nat
  ∧ route_count
      (exec (processEvents sample 1700000600 (One (Some carol_relays)))
         (exec (processEvents sample 1700000000 (One (Some carol_relays)))
            empty_state))
      "carolwss://relay.examplewrite" = 2%nat.
Proof.
  split; [reflexivity|]. split; [reflexivity|].
  refine (proj2 (proj2 (proj2 (batch_twice sample 1700000000 1700000600
                                 (One (Some carol_relays)) empty_state eq_refl))
                   carol_relays "carolwss://relay.examplewrite" eq_refl eq_refl
                   _ _ _)).
  - intros k r Hr. cbn [routes empty_state] in Hr.
    by rewrite lookup_empty in Hr.
  - unfold thirty_days. simpl. lia.
  - unfold thirty_days. simpl. lia.
Defined.

(** * More of the synchronisation core *)

(** ** Parts of the store the handlers cannot reach *)

(** [proj] is blind to the writes of the merge handlers: the patches of the
    [people] and [rooms] tables, the updates of the profile that keep its
    pubkey, and the start of a lookup. *)
Record blind_to_merges {B} (proj : State → B) : Prop := {
  blind_people : ∀ pubkey now data s,
    proj (people_patch pubkey now data s) = proj s;
  blind_profile : ∀ f s,
    (∀ p, profile_pubkey (f p) = profile_pubkey p) →
    proj (profile_update f s) = proj s;
  blind_lookup : ∀ l s,
    proj (mkState (people s) (profile s) (rooms s) (routes s) (relays s)
            (userEvents s) (lookups s ++ [l])) = proj s;
  blind_rooms : ∀ id pubkey t attrs s,
    proj (rooms_patch id pubkey t attrs s) = proj s;
}.

(** [proj] is blind to the writes of [addRoute] as well. *)
Record blind_to_routes {B} (proj : State → B) : Prop := {
  blind_relays : ∀ url s, proj (relays_patch url s) = proj s;
  blind_routes : ∀ r s, proj (routes_put r s) = proj s;
}.

Lemma set_key_pubkey key v t p :
  profile_pubkey (set_key key v t p) = profile_pubkey p.
Proof. by destruct key. Qed.

Section Blind.

Variable X : Externals.
Context {B : Type} (proj : State → B).
Hypothesis Hmerge : blind_to_merges proj.

Lemma keeps_updatePerson now pubkey data :
  keeps proj (updatePerson now pubkey data).
Proof using Hmerge.
  unfold updatePerson.
  apply keeps_bind; [apply keeps_modify, Hmerge|intros _].
  apply keeps_bind; [apply keeps_gets|intros me].
  apply keeps_if; [|apply keeps_ret].
  apply keeps_modify. intros s. by apply Hmerge.
Qed.

Lemma keeps_start l : keeps proj (start l).
Proof using Hmerge. unfold start. apply keeps_modify, Hmerge. Qed.

Lemma keeps_handle_kind0 now e : keeps proj (handle_kind0 X now e).
Proof using Hmerge.
  unfold handle_kind0.
  apply keeps_bind; [apply keeps_tryJson|intros _; apply keeps_ret].
  apply keeps_bind; [apply keeps_lift|intros k0].
  apply keeps_bind; [apply keeps_gets|intros person].
  apply keeps_if; [apply keeps_ret|].
  apply keeps_bind; [apply keeps_lift|intros nip].
  apply keeps_bind;
    [apply keeps_if; [apply keeps_start|apply keeps_ret]|intros _].
  apply keeps_bind; [apply keeps_lift|intros lud16].
  apply keeps_bind; [apply keeps_lift|intros lud06].
  apply keeps_bind; [|intros _; apply keeps_updatePerson].
  apply keeps_if; [|apply keeps_ret].
  repeat case_match; first [apply keeps_start|apply keeps_throw].
Qed.

Lemma keeps_handle_petnames now e : keeps proj (handle_petnames now e).
Proof using Hmerge.
  unfold handle_petnames.
  apply keeps_bind; [apply keeps_gets|intros person].
  apply keeps_if; [apply keeps_ret|apply keeps_updatePerson].
Qed.

Lemma keeps_profileHandler key getValue e :
  keeps proj (profileHandler key getValue e).
Proof using Hmerge.
  unfold profileHandler.
  apply keeps_bind; [apply keeps_gets|intros p].
  apply keeps_if; [apply keeps_ret|].
  apply keeps_if; [apply keeps_ret|].
  apply keeps_modify. intros s. apply Hmerge. intros q.
  destruct (getValue e q) as [v|]; simpl; [apply set_key_pubkey|done].
Qed.

Lemma keeps_patch_room roomId e : keeps proj (patch_room X roomId e).
Proof using Hmerge.
  unfold patch_room.
  apply keeps_bind; [apply keeps_gets|intros room].
  apply keeps_if; [apply keeps_ret|].
  apply keeps_if; [apply keeps_ret|].
  apply keeps_modify, Hmerge.
Qed.

Lemma keeps_handle_kind41 e : keeps proj (handle_kind41 X e).
Proof using Hmerge.
  unfold handle_kind41. destruct (first_e_value e) as [r|]; [|apply keeps_ret].
  apply keeps_if; [apply keeps_patch_room|apply keeps_ret].
Qed.

Hypothesis Hroutes : blind_to_routes proj.

Lemma keeps_any_addRoute now pubkey rawUrl type mode observed :
  keeps proj (addRoute X now pubkey rawUrl type mode observed).
Proof using Hroutes. apply keeps_addRoute; apply Hroutes. Qed.

Lemma keeps_routes_kind2 now e : keeps proj (routes_kind2 X now e).
Proof using Hroutes.
  unfold routes_kind2.
  apply keeps_bind; [|intros _]; apply keeps_any_addRoute.
Qed.

Lemma keeps_routes_kind3 now e : keeps proj (routes_kind3 X now e).
Proof using Hroutes.
  unfold routes_kind3.
  apply keeps_bind; [apply keeps_tryJson|intros _; apply keeps_ret].
  apply keeps_bind; [apply keeps_lift|intros entries].
  apply keeps_forEach. intros kv.
  apply keeps_bind; [apply keeps_lift|intros c].
  apply keeps_bind; [|intros _];
    (apply keeps_if; [apply keeps_any_addRoute|apply keeps_ret]).
Qed.

Lemma keeps_routes_kind10002 now e : keeps proj (routes_kind10002 X now e).
Proof using Hroutes.
  unfold routes_kind10002. apply keeps_forEach. intros t.
  repeat case_match;
    first [apply keeps_any_addRoute
          |apply keeps_bind; [|intros _]; apply keeps_any_addRoute].
Qed.

(** Every registered handler keeps such a part. *)
Lemma keeps_registered now kind handler e :
  handler ∈ handlers X now kind → keeps proj (handler e).
Proof using Hmerge Hroutes.
  unfold handlers.
  repeat case_match; rewrite ?elem_of_cons, ?elem_of_nil;
    intros Hin; destruct_or?; try done; subst handler.
  - apply keeps_handle_kind0.
  - apply keeps_profileHandler.
  - apply keeps_routes_kind2.
  - apply keeps_handle_petnames.
  - apply keeps_profileHandler.
  - apply keeps_routes_kind3.
  - apply keeps_profileHandler.
  - apply keeps_profileHandler.
  - apply keeps_profileHandler.
  - apply keeps_routes_kind10002.
  - apply keeps_patch_room.
  - apply keeps_handle_kind41.
Qed.

Lemma keeps_dispatch now e :
  keeps proj (forEach (fun handler => handler e) (handlers X now (ev_kind e))).
Proof using Hmerge Hroutes.
  apply keeps_handlers. intros h Hh. by apply (keeps_registered now (ev_kind e)).
Qed.

End Blind.

Lemma blind_getPubkey : blind_to_merges getPubkey ∧ blind_to_routes getPubkey.
Proof.
  split; split; try done.
  intros f s Hf. unfold getPubkey. simpl. apply Hf.
Qed.

Lemma blind_userEvents : blind_to_merges userEvents ∧ blind_to_routes userEvents.
Proof. split; split; done. Qed.

(** ** Batches *)

(** The archive of the user's own events after the events [es]. *)
Definition archived (userPubkey : option string) (es : list Event)
    (archive : gmap string Event) : gmap string Event :=
  foldl (fun m e =>
           if bool_decide (Some (ev_pubkey e) = userPubkey)
           then <[ev_id e := e]> m else m) archive es.

Section Batches.

Variable X : Externals.

Lemma processEvent_split now userPubkey e s :
  exec (processEvent X now userPubkey e) s
  = exec (forEach (fun handler => handler e) (handlers X now (ev_kind e)))
      (if bool_decide (Some (ev_pubkey e) = userPubkey)
       then userEvents_put e s else s).
Proof.
  unfold exec, processEvent.
  rewrite (bind_Ok _ _ s tt
             (if bool_decide (Some (ev_pubkey e) = userPubkey)
              then userEvents_put e s else s));
    [done|by destruct (bool_decide _)].
Qed.

Lemma pubkey_processEvent now userPubkey e s :
  getPubkey (exec (processEvent X now userPubkey e) s) = getPubkey s.
Proof.
  rewrite processEvent_split. unfold exec.
  rewrite (keeps_dispatch X getPubkey (proj1 blind_getPubkey)
             (proj2 blind_getPubkey) now e).
  by destruct (bool_decide _).
Qed.

Lemma pubkey_steps now userPubkey es s :
  getPubkey (foldl (fun s e => exec (processEvent X now userPubkey e) s) s es)
  = getPubkey s.
Proof.
  revert s. induction es as [|e es IH]; intros s; [done|].
  simpl. by rewrite IH, pubkey_processEvent.
Qed.

Lemma archive_processEvent now userPubkey e s :
  userEvents (exec (processEvent X now userPubkey e) s)
  = if bool_decide (Some (ev_pubkey e) = userPubkey)
    then <[ev_id e := e]> (userEvents s) else userEvents s.
Proof.
  rewrite processEvent_split. unfold exec.
  rewrite (keeps_dispatch X userEvents (proj1 blind_userEvents)
             (proj2 blind_userEvents) now e).
  by destruct (bool_decide _).
Qed.

Lemma archive_steps now userPubkey es s :
  userEvents (foldl (fun s e => exec (processEvent X now userPubkey e) s) s es)
  = archived userPubkey es (userEvents s).
Proof.
  revert s. induction es as [|e es IH]; intros s; [done|].
  simpl. by rewrite IH, archive_processEvent.
Qed.

(** X1.  Batches compose: handling the events of two arrays as one batch
    leaves the store that handling the first array and then the second
    leaves; [null] entries do nothing; and no batch changes the pubkey of the
    user. *)
Theorem processEvents_compose (now : Z) (es1 es2 : list (option Event))
    (s : State) :
  isShareableRelay X None = false →
  exec (processEvents X now (Many (es1 ++ es2))) s
  = exec (processEvents X now (Many es2)) (exec (processEvents X now (Many es1)) s)
  ∧ exec (processEvents X now (Many (es1 ++ [None] ++ es2))) s
    = exec (processEvents X now (Many (es1 ++ es2))) s
  ∧ getPubkey (exec (processEvents X now (Many es1)) s) = getPubkey s.
Proof.
  intros Hundef.
  assert (Hme : ∀ es, getPubkey (exec (processEvents X now (Many es)) s)
                      = getPubkey s).
  { intros es. unfold exec. rewrite (processEvents_run X now _ s Hundef).
    apply pubkey_steps. }
  split; [|split; [|apply Hme]].
  - unfold exec at 1 2. rewrite !(processEvents_run X now _ _ Hundef).
    cbn [snd]. rewrite Hme. unfold exec at 3.
    rewrite (processEvents_run X now _ s Hundef). cbn [snd].
    unfold present. cbn [ensurePlural]. by rewrite omap_app, foldl_app.
  - unfold exec. rewrite !(processEvents_run X now _ s Hundef).
    unfold present. cbn [ensurePlural]. by rewrite !omap_app.
Qed.

Lemma elem_of_archived userPubkey es archive id e :
  archived userPubkey es archive !! id = Some e →
  archive !! id = Some e
  ∨ (e ∈ es ∧ Some (ev_pubkey e) = userPubkey ∧ ev_id e = id).
Proof.
  revert archive. induction es as [|x es IH]; intros archive; [by left|].
  simpl. intros Hin. destruct (IH _ Hin) as [Hold|(He & Hown & Hid)].
  - case_bool_decide as Hx; [|by left].
    destruct (decide (ev_id x = id)) as [<-|Hne].
    + rewrite lookup_insert_eq in Hold. injection Hold as <-.
      right. split; [left|done].
    + rewrite lookup_insert_ne in Hold by done. by left.
  - right. split; [by right|done].
Qed.

Lemma archived_own userPubkey es archive e :
  e ∈ es → Some (ev_pubkey e) = userPubkey →
  ∃ e', archived userPubkey es archive !! ev_id e = Some e'
        ∧ e' ∈ es ∧ ev_id e' = ev_id e ∧ Some (ev_pubkey e') = userPubkey.
Proof.
  intros He Hown. revert archive.
  induction es as [|x es IH] using rev_ind; intros archive;
    [by apply elem_of_nil in He|].
  unfold archived in *. rewrite foldl_snoc.
  apply elem_of_app in He as [He|He].
  - destruct (IH He archive) as (e' & Hl & He' & Hid & Hown').
    case_bool_decide as Hx.
    + destruct (decide (ev_id x = ev_id e)) as [Heq|Hne].
      * exists x. rewrite <- Heq, lookup_insert_eq.
        split; [done|]. split; [apply elem_of_app; right; left|done].
      * exists e'. rewrite lookup_insert_ne by done.
        split; [done|]. split; [apply elem_of_app; by left|done].
    + exists e'. split; [done|]. split; [apply elem_of_app; by left|done].
  - apply list_elem_of_singleton in He as ->.
    rewrite bool_decide_true by done. exists x. rewrite lookup_insert_eq.
    split; [done|]. split; [apply elem_of_app; right; left|done].
Qed.

Lemma archived_none es archive : archived None es archive = archive.
Proof.
  revert archive. induction es as [|e es IH]; intros archive; [done|].
  cbn [archived foldl]. rewrite bool_decide_false by done. apply IH.
Qed.

(** X2.  The archive of own events: after a batch, an archived event was
    archived before or is an event of the batch published by the user, under
    its own id; every event of the batch published by the user is archived
    under its id (the last such event of the batch with that id); without a
    user pubkey nothing is archived. *)
Theorem own_events_archived (now : Z) (events : Batch) (s : State) :
  isShareableRelay X None = false →
  let s' := exec (processEvents X now events) s in
  (∀ id e, userEvents s' !! id = Some e →
     userEvents s !! id = Some e
     ∨ (e ∈ present events ∧ Some (ev_pubkey e) = getPubkey s ∧ ev_id e = id))
  ∧ (∀ e, e ∈ present events → Some (ev_pubkey e) = getPubkey s →
       ∃ e', userEvents s' !! ev_id e = Some e' ∧ e' ∈ present events
             ∧ ev_id e' = ev_id e ∧ Some (ev_pubkey e') = getPubkey s)
  ∧ (getPubkey s = None → userEvents s' = userEvents s).
Proof.
  intros Hundef s'.
  assert (Hs' : userEvents s'
                = archived (getPubkey s) (present events) (userEvents s)).
  { unfold s', exec. rewrite (processEvents_run X now events s Hundef).
    apply archive_steps. }
  rewrite Hs'. split; [|split].
  - intros id e. apply elem_of_archived.
  - intros e. apply archived_own.
  - intros ->. apply archived_none.
Qed.

End Batches.

(** ** The profile and the events of other people *)

(** [m] leaves the profile alone on every store whose user is not
    [pubkey]. *)
Definition calm {A} (pubkey : string) (m : M A) : Prop :=
  ∀ s, profile_pubkey (profile s) ≠ Some pubkey → profile (m s).2 = profile s.

Section Calm.

Variable pubkey : string.

Lemma calm_keeps {A} (m : M A) : keeps profile m → calm pubkey m.
Proof. intros Hk s _. apply Hk. Qed.

Lemma calm_bind {A C} (m : M A) (k : A → M C) :
  calm pubkey m → (∀ a, calm pubkey (k a)) → calm pubkey (m ≫= k).
Proof.
  intros Hm Hk s Hs. unfold mbind, M_bind, bind.
  specialize (Hm s Hs). destruct (m s) as [[a|] s1]; simpl in *; [|done].
  rewrite <- Hm. apply Hk. by rewrite Hm.
Qed.

Lemma calm_tryJson {A} (m : M A) : calm pubkey m → calm pubkey (tryJson m).
Proof.
  intros Hm s Hs. unfold tryJson. specialize (Hm s Hs).
  by destruct (m s) as [[a|] s1].
Qed.

Lemma calm_if {A} (b : bool) (m1 m2 : M A) :
  calm pubkey m1 → calm pubkey m2 → calm pubkey (if b then m1 else m2).
Proof. by destruct b. Qed.

Lemma calm_handlers (hs : list (Event → M unit)) e :
  (∀ h, h ∈ hs → calm pubkey (h e)) →
  calm pubkey (forEach (fun h => h e) hs).
Proof.
  induction hs as [|h hs IH]; intros Hall; [by apply calm_keeps|].
  cbn [forEach]. apply calm_bind; [apply Hall; left|intros _].
  apply IH. intros h' Hh'. apply Hall. by right.
Qed.

Lemma calm_updatePerson now data : calm pubkey (updatePerson now pubkey data).
Proof.
  intros s Hs. unfold updatePerson.
  rewrite bind_modify, bind_gets. unfold getPubkey. simpl.
  by rewrite bool_decide_false.
Qed.

End Calm.

Lemma blind_routes_profile : blind_to_routes profile.
Proof. by split. Qed.

Lemma calm_registered (X : Externals) now kind handler e :
  handler ∈ handlers X now kind → calm (ev_pubkey e) (handler e).
Proof.
  unfold handlers.
  repeat case_match; rewrite ?elem_of_cons, ?elem_of_nil;
    intros Hin; destruct_or?; try done; subst handler.
  - unfold handle_kind0.
    apply calm_bind; [apply calm_tryJson|intros _; by apply calm_keeps].
    apply calm_bind; [by apply calm_keeps|intros k0].
    apply calm_bind; [by apply calm_keeps|intros person].
    apply calm_if; [by apply calm_keeps|].
    apply calm_bind; [by apply calm_keeps|intros nip].
    apply calm_bind;
      [apply calm_keeps, keeps_if; [by apply keeps_modify|done]|intros _].
    apply calm_bind; [by apply calm_keeps|intros lud16].
    apply calm_bind; [by apply calm_keeps|intros lud06].
    apply calm_bind; [|intros _; apply calm_updatePerson].
    apply calm_keeps, keeps_if; [|done].
    repeat case_match; first [by apply keeps_modify|done].
  - intros s Hs. unfold profileHandler. rewrite bind_gets.
    rewrite bool_decide_false; [done|]. intros Heq. by rewrite <- Heq in Hs.
  - apply calm_keeps, (keeps_routes_kind2 X profile blind_routes_profile).
  - unfold handle_petnames.
    apply calm_bind; [by apply calm_keeps|intros person].
    apply calm_if; [by apply calm_keeps|apply calm_updatePerson].
  - intros s Hs. unfold profileHandler. rewrite bind_gets.
    rewrite bool_decide_false; [done|]. intros Heq. by rewrite <- Heq in Hs.
  - apply calm_keeps, (keeps_routes_kind3 X profile blind_routes_profile).
  - intros s Hs. unfold profileHandler. rewrite bind_gets.
    rewrite bool_decide_false; [done|]. intros Heq. by rewrite <- Heq in Hs.
  - intros s Hs. unfold profileHandler. rewrite bind_gets.
    rewrite bool_decide_false; [done|]. intros Heq. by rewrite <- Heq in Hs.
  - intros s Hs. unfold profileHandler. rewrite bind_gets.
    rewrite bool_decide_false; [done|]. intros Heq. by rewrite <- Heq in Hs.
  - apply calm_keeps, (keeps_routes_kind10002 X profile blind_routes_profile).
  - apply calm_keeps. unfold handle_kind40, patch_room. auto 6 with keeps.
  - apply calm_keeps. unfold handle_kind41, patch_room.
    repeat case_match; auto 6 with keeps.
Qed.


Section Strangers.

Variable X : Externals.

Lemma profile_processEvent_stranger now userPubkey e s :
  profile_pubkey (profile s) ≠ Some (ev_pubkey e) →
  profile (exec (processEvent X now userPubkey e) s) = profile s.
Proof.
  intros Hs. rewrite processEvent_split. unfold exec.
  set (s0 := if bool_decide _ then _ else _).
  assert (Hp0 : profile s0 = profile s) by (unfold s0; by destruct (bool_decide _)).
  rewrite <- Hp0. rewrite <- Hp0 in Hs. clearbody s0.
  apply (calm_handlers (ev_pubkey e)); [|exact Hs].
  intros h Hh. by apply (calm_registered X now (ev_kind e)).
Qed.

(** X3.  Events published by other people never touch the user profile:
    dispatching an event whose pubkey is not the user's leaves the profile
    (relays, mutes, the copied Identity fields and all timestamps) as it was,
    whatever its kind and content, and so does a batch without events of the
    user; with no user pubkey the profile never changes. *)
Theorem strangers_leave_profile (now : Z) (events : Batch) (s : State) :
  isShareableRelay X None = false →
  (∀ userPubkey e s1, profile_pubkey (profile s1) ≠ Some (ev_pubkey e) →
     profile (exec (processEvent X now userPubkey e) s1) = profile s1)
  ∧ ((∀ e, e ∈ present events → getPubkey s ≠ Some (ev_pubkey e)) →
     profile (exec (processEvents X now events) s) = profile s)
  ∧ (getPubkey s = None →
     profile (exec (processEvents X now events) s) = profile s).
Proof.
  intros Hundef.
  assert (Hbatch : (∀ e, e ∈ present events → getPubkey s ≠ Some (ev_pubkey e)) →
            profile (exec (processEvents X now events) s) = profile s).
  { intros Hnone. unfold exec.
    rewrite (processEvents_run X now events s Hundef). cbn [snd].
    generalize (getPubkey s) at 1. intros me.
    revert Hnone. generalize (present events). intros es.
    assert (Hgen : ∀ s1, profile s1 = profile s →
              (∀ e, e ∈ es → getPubkey s ≠ Some (ev_pubkey e)) →
              profile (foldl (fun s2 e => exec (processEvent X now me e) s2) s1 es)
              = profile s).
    { induction es as [|e es IH]; intros s1 Hs1 Hnone; [done|].
      simpl. apply IH.
      - rewrite profile_processEvent_stranger; [done|].
        unfold getPubkey in Hnone. rewrite Hs1. apply Hnone. left.
      - intros e' He'. apply Hnone. by right. }
    by apply Hgen. }
  split; [intros me e s1; apply profile_processEvent_stranger|].
  split; [exact Hbatch|].
  intros Hout. apply Hbatch. intros e _. by rewrite Hout.
Qed.

End Strangers.

(** ** Timestamps along a batch *)

Section RegisterOrder.

Context {V P : Type} (app : Z * P → V → V).

Lemma lww_all_grows us r t :
  r.1 = Some t → ∃ T, (lww_all app us r).1 = Some T ∧ (t ≤ T)%Z.
Proof.
  revert r t. induction us as [|u us IH]; intros r t Hr.
  - exists t. split; [done|lia].
  - cbn [lww_all foldl]. fold (lww_all app us (lww app u r)).
    unfold lww. rewrite Hr. simpl.
    destruct (u.1 <? t)%Z eqn:Hlt.
    + by apply IH.
    + apply Z.ltb_ge in Hlt.
      destruct (IH (Some u.1, app u r.2) u.1 eq_refl) as (T & HT & Hle).
      exists T. split; [done|lia].
Qed.

Lemma lww_all_covers us r u :
  u ∈ us → ∃ T, (lww_all app us r).1 = Some T ∧ (u.1 ≤ T)%Z.
Proof.
  intros Hu. pose proof (lww_all_shape app us r) as Hshape.
  destruct ((lww_all app us r).1) as [T|].
  - exists T. split; [done|]. by apply Hshape.
  - subst us. by apply elem_of_nil in Hu.
Qed.

End RegisterOrder.

Lemma carries_mergeable k0 : mergeable k0 → carries k0 = true.
Proof.
  intros [Hnull Haddr]. unfold carries.
  destruct (truthy_opt (address_of k0)) eqn:Ht.
  - destruct (Haddr eq_refl) as [a ->]. by destruct k0.
  - by destruct k0.
Qed.

Section Order.

Variable X : Externals.

Lemma tables_processEvents now events s :
  isShareableRelay X None = false →
  tables (exec (processEvents X now events) s)
  = (people_run X now (present events) (people s),
     rooms_run X (present events) (rooms s)).
Proof.
  intros Hundef. unfold exec. rewrite (processEvents_run X now events s Hundef).
  apply tables_run.
Qed.

Lemma kind0_at_reg s pk : kind0_at s pk = (reg_kind0 (people s) pk).1.
Proof. done. Qed.

Lemma petnames_at_reg s pk : petnames_at s pk = (reg_petnames (people s) pk).1.
Proof. done. Qed.

Lemma room_at_reg s id : room_at s id = (reg_room (rooms s) id).1.
Proof. done. Qed.

(** X4.  Stored timestamps only move forward, and a batch leaves no valid
    event newer than the store: after a batch, the [kind0], [petnames] and
    Room timestamps are at least what they were, at least the [created_at] of
    every kind-0 event of that pubkey in the batch whose content the handler
    carries through, of every kind-3 event of that pubkey, and of every
    kind-40 event with that id naming the room. *)
Theorem timestamps_dominate (now : Z) (events : Batch) (s : State) :
  isShareableRelay X None = false →
  let s' := exec (processEvents X now events) s in
  (∀ pk t, kind0_at s pk = Some t → ∃ T, kind0_at s' pk = Some T ∧ (t ≤ T)%Z)
  ∧ (∀ pk t, petnames_at s pk = Some t →
       ∃ T, petnames_at s' pk = Some T ∧ (t ≤ T)%Z)
  ∧ (∀ id t, room_at s id = Some t → ∃ T, room_at s' id = Some T ∧ (t ≤ T)%Z)
  ∧ (∀ e k0, e ∈ present events → ev_kind e = 0%Z →
       JSON_parse X (content e) = Some k0 → mergeable k0 →
       ∃ T, kind0_at s' (ev_pubkey e) = Some T ∧ (created_at e ≤ T)%Z)
  ∧ (∀ e, e ∈ present events → ev_kind e = 3%Z →
       ∃ T, petnames_at s' (ev_pubkey e) = Some T ∧ (created_at e ≤ T)%Z)
  ∧ (∀ e attrs, e ∈ present events → ev_kind e = 40%Z →
       room_content X e = Some attrs → truthy_opt (attrs !! "name") = true →
       ∃ T, room_at s' (ev_id e) = Some T ∧ (created_at e ≤ T)%Z).
Proof.
  intros Hundef s'.
  pose proof (tables_processEvents now events s Hundef) as Ht.
  fold s' in Ht. unfold tables in Ht. injection Ht as Hp Hr.
  assert (Hk : ∀ pk, kind0_at s' pk
             = (lww_all app_kind0 (omap (kind0_update X pk) (present events))
                  (reg_kind0 (people s) pk)).1).
  { intros pk. by rewrite kind0_at_reg, Hp, reg_kind0_run. }
  assert (Hn : ∀ pk, petnames_at s' pk
             = (lww_all app_petnames (omap (petnames_update pk) (present events))
                  (reg_petnames (people s) pk)).1).
  { intros pk. by rewrite petnames_at_reg, Hp, reg_petnames_run. }
  assert (Hm : ∀ id, room_at s' id
             = (lww_all app_room (omap (room_update X id) (present events))
                  (reg_room (rooms s) id)).1).
  { intros id. by rewrite room_at_reg, Hr, reg_room_run. }
  repeat split.
  - intros pk t Hat. rewrite Hk. by apply lww_all_grows.
  - intros pk t Hat. rewrite Hn. by apply lww_all_grows.
  - intros id t Hat. rewrite Hm. by apply lww_all_grows.
  - intros e k0 He Hkind Hparse Hmerge. rewrite Hk.
    apply (lww_all_covers app_kind0 _ _ (created_at e, k0)).
    apply list_elem_of_omap. exists e. split; [done|].
    unfold kind0_update. rewrite Hkind, String.eqb_refl, Hparse. simpl.
    by rewrite (carries_mergeable k0 Hmerge).
  - intros e He Hkind. rewrite Hn.
    apply (lww_all_covers app_petnames _ _
             (created_at e, List.filter (is_tag "p") (tags e))).
    apply list_elem_of_omap. exists e. split; [done|].
    unfold petnames_update. by rewrite Hkind, String.eqb_refl.
  - intros e attrs He Hkind Hc Hname. rewrite Hm.
    apply (lww_all_covers app_room _ _ (created_at e, (ev_pubkey e, attrs))).
    apply list_elem_of_omap. exists e. split; [done|].
    unfold room_update, room_target, room_payload.
    by rewrite Hkind, Z.eqb_refl, Hc, Hname, String.eqb_refl.
Qed.

(** X5.  Batches neither remove Identities nor verify them: after a batch,
    every Identity row that existed still exists, and the fields
    [verified_as], [lnurl] and [zapper] of every pubkey are what they were;
    only the continuations of the lookups write them. *)
Theorem batches_do_not_verify (now : Z) (events : Batch) (s : State) :
  isShareableRelay X None = false →
  let s' := exec (processEvents X now events) s in
  (∀ pk, is_Some (people s !! pk) → is_Some (people s' !! pk))
  ∧ (∀ pk, (person_data <$> people s' !! pk) ≫= verified_as
           = (person_data <$> people s !! pk) ≫= verified_as)
  ∧ (∀ pk, lnurl_of s' pk = lnurl_of s pk)
  ∧ (∀ pk, zapper_of s' pk = zapper_of s pk).
Proof.
  intros Hundef s'.
  pose proof (tables_processEvents now events s Hundef) as Ht.
  fold s' in Ht. unfold tables in Ht. injection Ht as Hp Hr.
  assert (Hv : ∀ pk, verified (people s') pk = verified (people s) pk).
  { intros pk. rewrite Hp. apply verified_run. }
  split; [|split; [|split]].
  - intros pk. rewrite Hp. apply rows_stay_run.
  - intros pk. specialize (Hv pk). unfold verified in Hv. by injection Hv.
  - intros pk. specialize (Hv pk). unfold verified in Hv. by injection Hv.
  - intros pk. specialize (Hv pk). unfold verified in Hv. by injection Hv.
Qed.

End Order.

(** ** Kind 0 documents *)

Lemma assoc_None k kvs : k ∉ kvs.*1 → assoc k kvs = None.
Proof.
  induction kvs as [|[k' v] kvs IH]; intros Hk; [done|].
  simpl. destruct (String.eqb_spec k k') as [->|Hne].
  - exfalso. apply Hk. left.
  - apply IH. intros Hin. apply Hk. by right.
Qed.

Lemma fold_entries_lookup kvs (m : gmap string json) k :
  NoDup kvs.*1 →
  fold_left (fun m kv => <[kv.1 := kv.2]> m) kvs m !! k
  = match assoc k kvs with Some v => Some v | None => m !! k end.
Proof.
  revert m. induction kvs as [|[k' v] kvs IH]; intros m Hnd; [done|].
  apply NoDup_cons in Hnd as [Hk' Hnd]. simpl. rewrite (IH _ Hnd).
  destruct (String.eqb_spec k k') as [->|Hne].
  - by rewrite (assoc_None k' kvs Hk'), lookup_insert_eq.
  - rewrite lookup_insert_ne by done. done.
Qed.

Lemma obj_of_entries_assoc kvs k :
  NoDup kvs.*1 → obj_of_entries kvs !! k = assoc k kvs.
Proof.
  intros Hnd. unfold obj_of_entries. rewrite fold_entries_lookup by done.
  rewrite lookup_empty. by destruct (assoc k kvs).
Qed.

Lemma bind_start {B} l (k : unit → M B) s :
  (start l ≫= k) s
  = k tt (mkState (people s) (profile s) (rooms s) (routes s) (relays s)
            (userEvents s) (lookups s ++ [l])).
Proof. done. Qed.

Section Kind0.

Variable X : Externals.

(** X6.  A kind-0 document is merged shallowly: after an event that passes
    the guard, every key of the new document has the new value and every
    other key keeps the value it had.  A document that is a number or a
    boolean has no keys: it leaves [kind0] as it was (the empty object when
    there was none) and still moves the timestamp. *)
Theorem kind0_shallow_merge (now : Z) (e : Event) (s : State) (k0 : json) :
  js_lt (created_at e) (kind0_at s (ev_pubkey e)) = false →
  JSON_parse X (content e) = Some k0 → mergeable k0 →
  let s' := exec (handle_kind0 X now e) s in
  let old := default ∅ (kind0_of s (ev_pubkey e)) in
  (∃ new, kind0_of s' (ev_pubkey e) = Some new
     ∧ (∀ k, new !! k = match obj_of_entries (own_entries k0) !! k with
                        | Some v => Some v
                        | None => old !! k
                        end)
     ∧ (∀ kvs k, k0 = JObj kvs → NoDup kvs.*1 →
          new !! k = match assoc k kvs with
                     | Some v => Some v
                     | None => old !! k
                     end)
     ∧ ((∃ q, k0 = JNum q) ∨ (∃ b, k0 = JBool b) → new = old))
  ∧ kind0_at s' (ev_pubkey e) = Some (created_at e).
Proof.
  intros Hguard Hparse Hm s' old.
  destruct (handle_kind0_fresh X now e s k0 Hguard Hparse Hm) as [Hk Hat].
  fold s' in Hk, Hat. split; [|exact Hat].
  exists (spread (kind0_of s (ev_pubkey e)) k0). split; [exact Hk|].
  assert (Hlook : ∀ k, spread (kind0_of s (ev_pubkey e)) k0 !! k
                       = match obj_of_entries (own_entries k0) !! k with
                         | Some v => Some v
                         | None => old !! k
                         end).
  { intros k. unfold spread. rewrite lookup_union. fold old.
    by destruct (obj_of_entries (own_entries k0) !! k), (old !! k). }
  split; [exact Hlook|]. split.
  - intros kvs k -> Hnd. rewrite Hlook. simpl.
    by rewrite obj_of_entries_assoc.
  - intros [[q ->]|[b ->]]; unfold spread; simpl; fold old;
      apply (left_id_L ∅ (∪)).
Qed.

(** X7.  Kind-0 events the handler drops.  A content that is not JSON, and
    the content [null], leave the whole store as it was.  A document whose
    [lud16 || lud06] is truthy but not a string throws at [toLowerCase]: it
    is not stored either, neither the Identity nor the profile changes, but
    the domain-identity lookup, which comes first, has already been started
    when the document names a [nip05]. *)
Theorem kind0_dropped (now : Z) (e : Event) (s : State) :
  (JSON_parse X (content e) = None → handle_kind0 X now e s = (Ok tt, s))
  ∧ (JSON_parse X (content e) = Some JNull →
     handle_kind0 X now e s = (Ok tt, s))
  ∧ (∀ k0, JSON_parse X (content e) = Some k0 → k0 ≠ JNull →
       js_lt (created_at e) (kind0_at s (ev_pubkey e)) = false →
       truthy_opt (address_of k0) = true →
       (∀ a, address_of k0 ≠ Some (JStr a)) →
       let s' := exec (handle_kind0 X now e) s in
       people s' = people s ∧ profile s' = profile s
       ∧ lookups s'
         = lookups s
           ++ (if truthy_opt (get_prop_opt (Some k0) "nip05")
               then [LookupNip05 (ev_pubkey e)
                       (default JNull (get_prop_opt (Some k0) "nip05"))]
               else [])).
Proof.
  split; [|split].
  - intros Hparse. unfold handle_kind0, tryJson.
    unfold mbind at 1, M_bind at 1, bind at 1.
    rewrite bind_lift, Hparse. done.
  - intros Hparse. unfold handle_kind0, tryJson.
    unfold mbind at 1, M_bind at 1, bind at 1.
    rewrite bind_lift, Hparse. simpl. rewrite bind_gets.
    by destruct (js_lt (created_at e) _).
  - intros k0 Hparse Hnull Hguard Ht Hstr s'.
    destruct (get_prop_cases k0) as [->|Hget]; [done|].
    unfold address_of in Ht, Hstr.
    assert (Hrest : ∀ s1,
              ((lud16 ← lift (get_prop k0 "lud16");
                lud06 ← lift (get_prop k0 "lud06");
                let address := if truthy_opt lud16 then lud16 else lud06 in
                (if truthy_opt address then
                   match address with
                   | Some (JStr a) =>
                       start (LookupZapper (ev_pubkey e) (toLowerCase a))
                   | _ => throw
                   end
                 else ret tt);;
                updatePerson now (ev_pubkey e)
                  (mkPersonData
                     (Some (spread ((person_data <$> people s !! ev_pubkey e)
                                      ≫= kind0) k0))
                     (Some (created_at e)) None None None None None)) s1).2
              = s1).
    { intros s1. rewrite bind_lift, Hget, bind_lift, Hget. cbv zeta.
      rewrite Ht.
      destruct (if truthy_opt (get_prop_opt (Some k0) "lud16")
                then get_prop_opt (Some k0) "lud16"
                else get_prop_opt (Some k0) "lud06") as [[]|];
        try (by rewrite bind_throw).
      by destruct (Hstr s0). }
    assert (Hs' : s' = if truthy_opt (get_prop_opt (Some k0) "nip05")
                       then mkState (people s) (profile s) (rooms s) (routes s)
                              (relays s) (userEvents s)
                              (lookups s
                               ++ [LookupNip05 (ev_pubkey e)
                                     (default JNull
                                        (get_prop_opt (Some k0) "nip05"))])
                       else s).
    { unfold s', exec, handle_kind0.
      rewrite tryJson_then, bind_lift, Hparse.
      unfold of_option. cbv beta iota. rewrite bind_gets. cbv zeta.
      destruct (js_lt (created_at e) _) eqn:Hg.
      { change (js_lt (created_at e) (kind0_at s (ev_pubkey e)) = true) in Hg.
        congruence. }
      rewrite bind_lift, Hget. cbv beta iota.
      destruct (truthy_opt (get_prop_opt (Some k0) "nip05")).
      - by rewrite bind_start, Hrest.
      - by rewrite bind_ret, Hrest. }
    rewrite Hs'.
    destruct (truthy_opt (get_prop_opt (Some k0) "nip05")); [done|].
    by rewrite app_nil_r.
Qed.

End Kind0.

Lemma elem_of_List_filter {A} (f : A → bool) (l : list A) (x : A) :
  x ∈ List.filter f l ↔ x ∈ l ∧ f x = true.
Proof. rewrite !list_elem_of_In. apply filter_In. Qed.

(** What an accepted kind-0 event stores, key by key. *)
Lemma handle_kind0_stores (X : Externals) now e s k0 :
  js_lt (created_at e) (kind0_at s (ev_pubkey e)) = false →
  JSON_parse X (content e) = Some k0 → mergeable k0 →
  let s' := exec (handle_kind0 X now e) s in
  let old := default ∅ (kind0_of s (ev_pubkey e)) in
  (∃ new, kind0_of s' (ev_pubkey e) = Some new
     ∧ (∀ k, new !! k = match obj_of_entries (own_entries k0) !! k with
                        | Some v => Some v
                        | None => old !! k
                        end)
     ∧ (∀ kvs k, k0 = JObj kvs → NoDup kvs.*1 →
          new !! k = match assoc k kvs with
                     | Some v => Some v
                     | None => old !! k
                     end))
  ∧ kind0_at s' (ev_pubkey e) = Some (created_at e).
Proof.
  intros Hguard Hparse Hm s' old.
  destruct (handle_kind0_fresh X now e s k0 Hguard Hparse Hm) as [Hk Hat].
  fold s' in Hk, Hat. split; [|exact Hat].
  exists (spread (kind0_of s (ev_pubkey e)) k0). split; [exact Hk|].
  assert (Hlook : ∀ k, spread (kind0_of s (ev_pubkey e)) k0 !! k
                       = match obj_of_entries (own_entries k0) !! k with
                         | Some v => Some v
                         | None => old !! k
                         end).
  { intros k. unfold spread. rewrite lookup_union. fold old.
    by destruct (obj_of_entries (own_entries k0) !! k), (old !! k). }
  split; [exact Hlook|].
  intros kvs k -> Hnd. rewrite Hlook. simpl. by rewrite obj_of_entries_assoc.
Qed.

Lemma handle_kind41_fresh (X : Externals) roomId e s attrs :
  first_e_value e = Some roomId → truthy_string roomId = true →
  js_lt (created_at e) (room_at s roomId) = false →
  room_content X e = Some attrs → truthy_opt (attrs !! "name") = true →
  rooms (exec (handle_kind41 X e) s) !! roomId
  = Some (mkRoom (Some (ev_pubkey e)) (Some (created_at e))
            (attrs ∪ default ∅ (room_attrs <$> rooms s !! roomId))).
Proof.
  intros Hfirst Htruthy Hguard Hc Hname. unfold handle_kind41.
  rewrite Hfirst, Htruthy. by apply patch_room_fresh.
Qed.

(** The local user ["me"] on an empty store. *)
Definition me_fresh : State :=
  mkState ∅ (mkProfile (Some "me") no_data [] None [] None) ∅ ∅ ∅ ∅ [].

Definition my_profile : Event := mkEvent "m0" "me" 0 30 (document doc_a) [].

Definition my_mutes : Event :=
  mkEvent "m1" "me" 10000 40 EmptyString [["p"; "x"]].

Definition my_relays : Event :=
  mkEvent "m2" "me" 10002 50 EmptyString [["r"; "wss://relay.example"; "write"]].

Definition a_room : Event := mkEvent "r0" "carol" 40 60 (document doc_a) [].

Definition a_room_update : Event :=
  mkEvent "r1" "dave" 41 70 (document doc_a) [["e"; "r0"]].

(** C2.  Every field-group behind the last-write-wins guard treats an event
    whose [created_at] is strictly below the stored companion timestamp as a
    no-op (the handler leaves the whole store as it was, so the field and its
    timestamp are unchanged), and lets an event through whose [created_at]
    equals the stored timestamp.  What it then stores is: for [kind0], the
    old document with every key of the new one overwritten, and the
    timestamp; for [petnames], the ["p"] tags of the event and the
    timestamp; for the [relays] and [mutes] of the user profile, the
    extracted value and the timestamp, the rest of the profile being kept;
    for a Room (kinds 40 and 41), the pubkey of the event, the timestamp and
    the new attributes over the old ones. *)
Theorem lww_guard_strict (X : Externals) (now : Z) (e : Event) (s : State)
    (t : Z) :
  ((created_at e < t)%Z →
     (kind0_at s (ev_pubkey e) = Some t → handle_kind0 X now e s = (Ok tt, s))
     ∧ (petnames_at s (ev_pubkey e) = Some t →
        handle_petnames now e s = (Ok tt, s))
     ∧ (∀ getValue, relays_updated_at (profile s) = Some t →
        profileHandler KeyRelays getValue e s = (Ok tt, s))
     ∧ (∀ getValue, mutes_updated_at (profile s) = Some t →
        profileHandler KeyMutes getValue e s = (Ok tt, s))
     ∧ (room_at s (ev_id e) = Some t → handle_kind40 X e s = (Ok tt, s))
     ∧ (∀ roomId, first_e_value e = Some roomId → room_at s roomId = Some t →
        handle_kind41 X e s = (Ok tt, s)))
  ∧ (created_at e = t →
     (∀ k0, kind0_at s (ev_pubkey e) = Some t →
        JSON_parse X (content e) = Some k0 → mergeable k0 →
        let s' := exec (handle_kind0 X now e) s in
        let old := default ∅ (kind0_of s (ev_pubkey e)) in
        (∃ new, kind0_of s' (ev_pubkey e) = Some new
           ∧ (∀ k, new !! k = match obj_of_entries (own_entries k0) !! k with
                              | Some v => Some v
                              | None => old !! k
                              end)
           ∧ (∀ kvs k, k0 = JObj kvs → NoDup kvs.*1 →
                new !! k = match assoc k kvs with
                           | Some v => Some v
                           | None => old !! k
                           end))
        ∧ kind0_at s' (ev_pubkey e) = Some t)
     ∧ (petnames_at s (ev_pubkey e) = Some t →
        let s' := exec (handle_petnames now e) s in
        petnames_of s' (ev_pubkey e) = Some (List.filter (is_tag "p") (tags e))
        ∧ (∀ tag, tag ∈ default [] (petnames_of s' (ev_pubkey e))
                  ↔ tag ∈ tags e ∧ head tag = Some "p")
        ∧ petnames_at s' (ev_pubkey e) = Some t)
     ∧ (∀ getValue v, relays_updated_at (profile s) = Some t →
        profile_pubkey (profile s) = Some (ev_pubkey e) →
        getValue e (profile s) = Some v →
        profile (exec (profileHandler KeyRelays getValue e) s)
        = mkProfile (profile_pubkey (profile s)) (profile_data (profile s))
            v (Some t) (mutes (profile s)) (mutes_updated_at (profile s)))
     ∧ (∀ getValue v, mutes_updated_at (profile s) = Some t →
        profile_pubkey (profile s) = Some (ev_pubkey e) →
        getValue e (profile s) = Some v →
        profile (exec (profileHandler KeyMutes getValue e) s)
        = mkProfile (profile_pubkey (profile s)) (profile_data (profile s))
            (relays_of (profile s)) (relays_updated_at (profile s))
            v (Some t))
     ∧ (∀ attrs, room_at s (ev_id e) = Some t →
        room_content X e = Some attrs → truthy_opt (attrs !! "name") = true →
        rooms (exec (handle_kind40 X e) s) !! ev_id e
        = Some (mkRoom (Some (ev_pubkey e)) (Some t)
                  (attrs ∪ default ∅ (room_attrs <$> rooms s !! ev_id e))))
     ∧ (∀ roomId attrs, first_e_value e = Some roomId →
        truthy_string roomId = true → room_at s roomId = Some t →
        room_content X e = Some attrs → truthy_opt (attrs !! "name") = true →
        rooms (exec (handle_kind41 X e) s) !! roomId
        = Some (mkRoom (Some (ev_pubkey e)) (Some t)
                  (attrs ∪ default ∅ (room_attrs <$> rooms s !! roomId))))).
Proof.
  split.
  - intros Hlt. repeat split.
    + intros Hat. by apply handle_kind0_stale with t.
    + intros Hat. by apply handle_petnames_stale with t.
    + intros getValue Hat. by apply profileHandler_stale with t.
    + intros getValue Hat. by apply profileHandler_stale with t.
    + intros Hat. by apply patch_room_stale with t.
    + intros roomId Hfirst Hat. unfold handle_kind41. rewrite Hfirst.
      destruct (truthy_string roomId); [|done].
      by apply patch_room_stale with t.
  - intros <-.
    assert (Hself : ∀ o, o = Some (created_at e) → js_lt (created_at e) o = false).
    { intros o ->. simpl. apply Z.ltb_irrefl. }
    split; [|split; [|split; [|split; [|split]]]].
    + intros k0 Hat Hparse Hm. apply handle_kind0_stores; auto.
    + intros Hat s'.
      destruct (handle_petnames_fresh now e s (Hself _ Hat)) as [Hp Ht].
      fold s' in Hp, Ht. split; [exact Hp|]. split; [|exact Ht].
      intros tag. rewrite Hp. simpl. rewrite elem_of_List_filter.
      unfold is_tag. by rewrite bool_decide_eq_true.
    + intros getValue v Hat Hme Hval.
      exact (profileHandler_fresh KeyRelays getValue e s v Hme (Hself _ Hat)
               Hval).
    + intros getValue v Hat Hme Hval.
      exact (profileHandler_fresh KeyMutes getValue e s v Hme (Hself _ Hat)
               Hval).
    + intros attrs Hat Hc Hname. unfold handle_kind40.
      apply patch_room_fresh; auto.
    + intros roomId attrs Hfirst Htruthy Hat Hc Hname.
      apply handle_kind41_fresh; auto.
Qed.

(** An event at the very timestamp of the store. *)
Definition tie_kind0 : Event :=
  mkEvent "e1t" "alice" 0 100 (document doc_b) [].

Definition tie_relays : Event :=
  mkEvent "e4" "me" 10002 10 EmptyString [["r"; "wss://b"]].

Lemma doc_b_keys :
  NoDup (map (fun kv : string * string => (kv.1, JStr kv.2)) doc_b).*1.
Proof. apply (bool_decide_unpack _). vm_compute. exact I. Defined.

Lemma doc_b_mergeable :
  mergeable (JObj (map (fun kv : string * string => (kv.1, JStr kv.2)) doc_b)).
Proof. split; [discriminate|]. intros _. by eexists. Defined.

Lemma lww_guard_strict_witness :
  let s1 := exec (handle_kind0 sample 2000 tie_kind0) alice_at_100 in
  (created_at stale_kind0 < 100)%Z
  ∧ kind0_at alice_at_100 "alice" = Some 100%Z
  ∧ handle_kind0 sample 2000 stale_kind0 alice_at_100 = (Ok tt, alice_at_100)
  ∧ created_at tie_kind0 = 100%Z
  ∧ (∃ new, kind0_of s1 "alice" = Some new
       ∧ new !! "name" = Some (JStr "b")
       ∧ new !! "nip05" = Some (JStr "b@x.org"))
  ∧ kind0_at s1 "alice" = Some 100%Z
  ∧ relays_updated_at (profile me_at_10) = Some (created_at tie_relays)
  ∧ profile (exec (profileHandler KeyRelays relays_kind10002 tie_relays)
               me_at_10)
    = mkProfile (Some "me") no_data
        [mkRelayEntry (Some "wss://b") (Some true) (Some true)] (Some 10%Z)
        [] None.
Proof.
  intros s1.
  split; [reflexivity|]. split; [reflexivity|].
  split.
  { refine (proj1 (proj1 (lww_guard_strict sample 2000 stale_kind0
                            alice_at_100 100) _) _); reflexivity. }
  split; [reflexivity|].
  destruct (proj1 (proj2 (lww_guard_strict sample 2000 tie_kind0 alice_at_100
                            100) eq_refl)
              _ eq_refl eq_refl doc_b_mergeable)
    as [(new & Hnew & _ & Hassoc) Hat].
  split.
  { exists new. split; [exact Hnew|].
    split; rewrite (Hassoc _ _ eq_refl doc_b_keys); reflexivity. }
  split; [exact Hat|]. split; [reflexivity|].
  exact (proj1 (proj2 (proj2 (proj2 (lww_guard_strict sample 2000 tie_relays
                                       me_at_10 10) eq_refl)))
           relays_kind10002 _ eq_refl eq_refl eq_refl).
Defined.

(** C10.  A missing companion timestamp never discards: the comparison with
    [undefined] is false for every [created_at], zero and negative ones
    included, so when the row or its timestamp is absent the kind-0,
    petnames, profile and room handlers store the value of the event and set
    the timestamp to its [created_at].  What is stored is: for [kind0], the
    old document, if any, with every key of the new one overwritten; for
    [petnames], the ["p"] tags of the event; for the [relays] and [mutes] of
    the user profile, the extracted value, the rest of the profile being
    kept; for a Room, the pubkey of the event and the new attributes over
    the old ones. *)
Theorem lww_guard_without_timestamp (X : Externals) (now : Z) (e : Event)
    (s : State) :
  (∀ a, js_lt a None = false)
  ∧ (∀ k0, kind0_at s (ev_pubkey e) = None →
       JSON_parse X (content e) = Some k0 → mergeable k0 →
       let s' := exec (handle_kind0 X now e) s in
       let old := default ∅ (kind0_of s (ev_pubkey e)) in
       (∃ new, kind0_of s' (ev_pubkey e) = Some new
          ∧ (∀ k, new !! k = match obj_of_entries (own_entries k0) !! k with
                             | Some v => Some v
                             | None => old !! k
                             end)
          ∧ (∀ kvs k, k0 = JObj kvs → NoDup kvs.*1 →
               new !! k = match assoc k kvs with
                          | Some v => Some v
                          | None => old !! k
                          end))
       ∧ kind0_at s' (ev_pubkey e) = Some (created_at e))
  ∧ (petnames_at s (ev_pubkey e) = None →
     let s' := exec (handle_petnames now e) s in
     petnames_of s' (ev_pubkey e) = Some (List.filter (is_tag "p") (tags e))
     ∧ (∀ tag, tag ∈ default [] (petnames_of s' (ev_pubkey e))
               ↔ tag ∈ tags e ∧ head tag = Some "p")
     ∧ petnames_at s' (ev_pubkey e) = Some (created_at e))
  ∧ (∀ getValue v, relays_updated_at (profile s) = None →
       profile_pubkey (profile s) = Some (ev_pubkey e) →
       getValue e (profile s) = Some v →
       profile (exec (profileHandler KeyRelays getValue e) s)
       = mkProfile (profile_pubkey (profile s)) (profile_data (profile s))
           v (Some (created_at e)) (mutes (profile s))
           (mutes_updated_at (profile s)))
  ∧ (∀ getValue v, mutes_updated_at (profile s) = None →
       profile_pubkey (profile s) = Some (ev_pubkey e) →
       getValue e (profile s) = Some v →
       profile (exec (profileHandler KeyMutes getValue e) s)
       = mkProfile (profile_pubkey (profile s)) (profile_data (profile s))
           (relays_of (profile s)) (relays_updated_at (profile s))
           v (Some (created_at e)))
  ∧ (∀ attrs, room_at s (ev_id e) = None →
       room_content X e = Some attrs → truthy_opt (attrs !! "name") = true →
       rooms (exec (handle_kind40 X e) s) !! ev_id e
       = Some (mkRoom (Some (ev_pubkey e)) (Some (created_at e))
                 (attrs ∪ default ∅ (room_attrs <$> rooms s !! ev_id e))))
  ∧ (∀ roomId attrs, first_e_value e = Some roomId →
       truthy_string roomId = true → room_at s roomId = None →
       room_content X e = Some attrs → truthy_opt (attrs !! "name") = true →
       rooms (exec (handle_kind41 X e) s) !! roomId
       = Some (mkRoom (Some (ev_pubkey e)) (Some (created_at e))
                 (attrs ∪ default ∅ (room_attrs <$> rooms s !! roomId)))).
Proof.
  split; [done|]. split; [|split; [|split; [|split; [|split]]]].
  - intros k0 Hat Hparse Hm. apply handle_kind0_stores; auto. by rewrite Hat.
  - intros Hat s'.
    assert (Hguard : js_lt (created_at e) (petnames_at s (ev_pubkey e)) = false)
      by (by rewrite Hat).
    destruct (handle_petnames_fresh now e s Hguard) as [Hp Ht].
    fold s' in Hp, Ht. split; [exact Hp|]. split; [|exact Ht].
    intros tag. rewrite Hp. simpl. rewrite elem_of_List_filter.
    unfold is_tag. by rewrite bool_decide_eq_true.
  - intros getValue v Hat Hme Hval.
    refine (profileHandler_fresh KeyRelays getValue e s v Hme _ Hval).
    simpl. by rewrite Hat.
  - intros getValue v Hat Hme Hval.
    refine (profileHandler_fresh KeyMutes getValue e s v Hme _ Hval).
    simpl. by rewrite Hat.
  - intros attrs Hat Hc Hname. unfold handle_kind40.
    apply patch_room_fresh; auto. by rewrite Hat.
  - intros roomId attrs Hfirst Htruthy Hat Hc Hname.
    apply handle_kind41_fresh; auto. by rewrite Hat.
Qed.

Lemma doc_a_keys :
  NoDup (map (fun kv : string * string => (kv.1, JStr kv.2)) doc_a).*1.
Proof. apply (bool_decide_unpack _). vm_compute. exact I. Defined.

Lemma doc_a_mergeable :
  mergeable (JObj (map (fun kv : string * string => (kv.1, JStr kv.2)) doc_a)).
Proof. split; discriminate. Defined.

(** A profile written at time zero into an empty store. *)
Definition first_profile : Event :=
  mkEvent "b0" "carol" 0 0 (document doc_a) [].

Lemma lww_guard_without_timestamp_witness :
  let s0 := exec (handle_kind0 sample 2000 first_profile) empty_state in
  let s3 := exec (handle_petnames 2000 ancient_contacts) empty_state in
  kind0_at empty_state "carol" = None
  ∧ (∃ new, kind0_of s0 "carol" = Some new ∧ new !! "name" = Some (JStr "a"))
  ∧ kind0_at s0 "carol" = Some 0%Z
  ∧ petnames_at empty_state "bob" = None
  ∧ petnames_of s3 "bob" = Some [["p"; "alice"]]
  ∧ petnames_at s3 "bob" = Some (-5)%Z
  ∧ mutes_updated_at (profile me_fresh) = None
  ∧ profile (exec (profileHandler KeyMutes mutes_kind10000 my_mutes) me_fresh)
    = mkProfile (Some "me") no_data [] None [["p"; "x"]] (Some 40%Z)
  ∧ room_at empty_state "r0" = None
  ∧ rooms (exec (handle_kind40 sample a_room) empty_state) !! "r0"
    = Some (mkRoom (Some "carol") (Some 60%Z) ({[ "name" := JStr "a" ]} ∪ ∅)).
Proof.
  intros s0 s3. split; [reflexivity|].
  destruct (proj1 (proj2 (lww_guard_without_timestamp sample 2000
                            first_profile empty_state))
              _ eq_refl eq_refl doc_a_mergeable)
    as [(new & Hnew & _ & Hassoc) Hat].
  split.
  { exists new. split; [exact Hnew|].
    rewrite (Hassoc _ _ eq_refl doc_a_keys). reflexivity. }
  split; [exact Hat|]. split; [reflexivity|].
  destruct (proj1 (proj2 (proj2 (lww_guard_without_timestamp sample 2000
                                   ancient_contacts empty_state))) eq_refl)
    as (Hp & _ & Ht).
  split; [exact Hp|]. split; [exact Ht|]. split; [reflexivity|].
  split.
  { exact (proj1 (proj2 (proj2 (proj2 (proj2
             (lww_guard_without_timestamp sample 2000 my_mutes me_fresh)))))
             mutes_kind10000 _ eq_refl eq_refl eq_refl). }
  split; [reflexivity|].
  exact (proj1 (proj2 (proj2 (proj2 (proj2 (proj2
           (lww_guard_without_timestamp sample 2000 a_room empty_state))))))
           {[ "name" := JStr "a" ]} eq_refl eq_refl eq_refl).
Defined.

(** ** Rooms *)

(** Every stored room attribute is on the whitelist. *)
Definition whitelisted (X : Externals) (rms : gmap string Room) : Prop :=
  ∀ id r k, rms !! id = Some r → is_Some (room_attrs r !! k) → k ∈ roomAttrs X.

Section Rooms.

Variable X : Externals.

Lemma pick_keys names v m k :
  pick names v = Ok m → is_Some (m !! k) → k ∈ names.
Proof.
  intros Hpick [x Hx].
  destruct v as [| | | |l|kvs];
    try (destruct names; simpl in Hpick; [|done];
         injection Hpick as <-; by rewrite lookup_empty in Hx).
  - destruct names; simpl in Hpick; injection Hpick as <-;
      by rewrite lookup_empty in Hx.
  - destruct (pick_object names kvs) as (m' & Hm' & Hlook).
    rewrite Hpick in Hm'. injection Hm' as <-.
    rewrite Hlook in Hx. by case_bool_decide.
Qed.

Lemma room_content_keys e attrs k :
  room_content X e = Some attrs → is_Some (attrs !! k) → k ∈ roomAttrs X.
Proof.
  unfold room_content. destruct (JSON_parse X (content e)) as [v|]; [|done].
  simpl. destruct (pick (roomAttrs X) v) as [m|] eqn:Hpick; [|done].
  intros [= <-]. by apply (pick_keys _ v).
Qed.

Lemma whitelisted_after e rms :
  whitelisted X rms → whitelisted X (rooms_after X e rms).
Proof.
  intros Hw. unfold rooms_after, room_payload.
  destruct (room_target e) as [roomId|]; [|done].
  destruct (room_content X e) as [attrs|] eqn:Hc; [|done].
  destruct (truthy_opt (attrs !! "name")); [|done].
  destruct (js_lt (created_at e) _); [done|].
  intros id r k. destruct (decide (roomId = id)) as [->|Hne].
  - rewrite lookup_insert_eq. intros [= <-]. simpl.
    intros [x Hx]. apply lookup_union_Some_raw in Hx as [Hx|[_ Hx]].
    + by apply (room_content_keys e attrs).
    + destruct (rms !! id) as [r|] eqn:Hr; simpl in Hx.
      * by apply (Hw id r).
      * by rewrite lookup_empty in Hx.
  - rewrite lookup_insert_ne by done. apply Hw.
Qed.

Lemma whitelisted_run es rms :
  whitelisted X rms → whitelisted X (rooms_run X es rms).
Proof.
  revert rms. induction es as [|e es IH]; intros rms Hw; [done|].
  simpl. by apply IH, whitelisted_after.
Qed.

(** X8.  Room events that do nothing, and what a kind-41 event does.  A
    kind-41 event without a non-empty first ["e"] reference leaves the store
    as it was; so does every kind-40 or kind-41 event whose content is not
    JSON, is not an object or array, or has no truthy [name] among the
    whitelisted attributes.  A kind-41 event that passes the guard writes the
    room it references, whether or not the room exists and whoever created
    it: the row gets the pubkey and timestamp of the event, the new
    attributes over the old ones, and no other room changes. *)
Theorem room_updates (e : Event) (s : State) :
  ((first_e_value e = None ∨ first_e_value e = Some EmptyString) →
   handle_kind41 X e s = (Ok tt, s))
  ∧ (∀ roomId,
       (room_content X e = None
        ∨ ∃ attrs, room_content X e = Some attrs
                   ∧ truthy_opt (attrs !! "name") = false) →
       patch_room X roomId e s = (Ok tt, s))
  ∧ (∀ roomId attrs,
       first_e_value e = Some roomId → truthy_string roomId = true →
       js_lt (created_at e) (room_at s roomId) = false →
       room_content X e = Some attrs → truthy_opt (attrs !! "name") = true →
       let s' := exec (handle_kind41 X e) s in
       rooms s' !! roomId
       = Some (mkRoom (Some (ev_pubkey e)) (Some (created_at e))
                 (attrs ∪ default ∅ (room_attrs <$> rooms s !! roomId)))
       ∧ ∀ id, id ≠ roomId → rooms s' !! id = rooms s !! id).
Proof.
  split; [|split].
  - unfold handle_kind41. by intros [->| ->].
  - intros roomId Hc. unfold patch_room. rewrite bind_gets.
    destruct (js_lt (created_at e) _); [done|].
    destruct Hc as [->|(attrs & -> & Hname)]; [done|].
    simpl. by rewrite Hname.
  - intros roomId attrs Hfirst Hid Hguard Hc Hname s'.
    unfold s', handle_kind41. rewrite Hfirst, Hid.
    split; [by apply patch_room_fresh|].
    intros id Hne. unfold exec, patch_room. rewrite bind_gets.
    unfold room_at, mbind in Hguard. unfold mbind at 1.
    rewrite Hguard, Hc. simpl. rewrite Hname. simpl.
    by rewrite lookup_insert_ne.
Qed.

(** X9.  Only whitelisted attributes are ever stored for a room: if every
    attribute of every stored room is in [roomAttrs], this is still so after
    any batch. *)
Theorem rooms_stay_whitelisted (now : Z) (events : Batch) (s : State) :
  isShareableRelay X None = false →
  whitelisted X (rooms s) →
  whitelisted X (rooms (exec (processEvents X now events) s)).
Proof.
  intros Hundef Hw.
  pose proof (tables_processEvents X now events s Hundef) as Ht.
  unfold tables in Ht. injection Ht as _ ->. by apply whitelisted_run.
Qed.

End Rooms.

(** ** The Route and RelayEndpoint tables along any computation *)

Lemma uniq_acc_spec seen l x :
  x ∈ uniq_acc seen l ↔ x ∈ l ∧ x ∉ seen.
Proof.
  revert seen. induction l as [|y l IH]; intros seen; simpl.
  - split; [by intros ?%elem_of_nil|by intros [?%elem_of_nil _]].
  - destruct (decide (y ∈ seen)) as [Hy|Hy].
    + rewrite bool_decide_true by done. rewrite IH, elem_of_cons. split.
      * intros [Hx Hs]. split; [by right|done].
      * intros [[Hxy|Hx] Hs]; [|done]. subst x. done.
    + rewrite bool_decide_false by done.
      rewrite elem_of_cons, IH, !elem_of_cons. split.
      * intros [Hxy|[Hx Hs]].
        -- subst x. split; [by left|done].
        -- split; [by right|]. intros Hin. apply Hs. by right.
      * intros [[Hxy|Hx] Hs]; [by left|].
        destruct (decide (x = y)) as [Hxy|Hne]; [by left|].
        right. split; [done|]. intros [Hxy|Hin]; [done|done].
Qed.

Lemma uniq_acc_NoDup seen l : NoDup (uniq_acc seen l).
Proof.
  revert seen. induction l as [|y l IH]; intros seen; simpl;
    [apply NoDup_nil_2|].
  destruct (bool_decide (y ∈ seen)); [apply IH|].
  apply NoDup_cons. split; [|apply IH].
  rewrite uniq_acc_spec. intros [_ Hs]. apply Hs. left.
Qed.

Lemma elem_of_uniq l x : x ∈ uniq l ↔ x ∈ l.
Proof.
  unfold uniq. rewrite uniq_acc_spec. split; [by intros [??]|].
  intros Hx. split; [done|]. by intros ?%elem_of_nil.
Qed.

Lemma NoDup_uniq l : NoDup (uniq l).
Proof. apply uniq_acc_NoDup. Qed.

(** Every route has a RelayEndpoint row for its URL. *)
Definition linked (s : State) : Prop :=
  ∀ id r, routes s !! id = Some r → is_Some (relays s !! route_url r).

(** From [s] to [s'] no route and no relay row is lost, a route keeps its
    id, pubkey, URL and mode, and its count, types and [last_seen] only
    grow; relay rows are left as they are. *)
Definition grows (s s' : State) : Prop :=
  (∀ id r, routes s !! id = Some r →
     ∃ r', routes s' !! id = Some r'
       ∧ route_id r' = route_id r ∧ route_pubkey r' = route_pubkey r
       ∧ route_url r' = route_url r ∧ route_mode r' = route_mode r
       ∧ (count r ≤ count r')%nat
       ∧ (∀ t, t ∈ types r → t ∈ types r')
       ∧ (∀ t, last_seen r = Some t → ∃ t', last_seen r' = Some t' ∧ (t ≤ t')%Z))
  ∧ (∀ url row, relays s !! url = Some row → relays s' !! url = Some row).

Definition evolves (s s' : State) : Prop :=
  keyed s ∧ linked s → (keyed s' ∧ linked s') ∧ grows s s'.

Lemma grows_refl s : grows s s.
Proof.
  split; [|done]. intros id r Hr. exists r.
  repeat split; try done. intros t Ht. exists t. split; [done|lia].
Qed.

Lemma grows_trans s1 s2 s3 : grows s1 s2 → grows s2 s3 → grows s1 s3.
Proof.
  intros [Hr12 Hl12] [Hr23 Hl23]. split; [|by auto].
  intros id r Hr.
  destruct (Hr12 id r Hr) as (r2 & Hr2 & Hi2 & Hp2 & Hu2 & Hm2 & Hc2 & Ht2 & Hs2).
  destruct (Hr23 id r2 Hr2) as (r3 & Hr3 & Hi3 & Hp3 & Hu3 & Hm3 & Hc3 & Ht3 & Hs3).
  exists r3. repeat split; try congruence; [lia|by auto|].
  intros t Ht. destruct (Hs2 t Ht) as (t2 & Ht2' & Hle2).
  destruct (Hs3 t2 Ht2') as (t3 & Ht3' & Hle3).
  exists t3. split; [done|lia].
Qed.

Lemma evolves_refl s : evolves s s.
Proof. intros Hs. split; [done|apply grows_refl]. Qed.

Lemma evolves_trans s1 s2 s3 : evolves s1 s2 → evolves s2 s3 → evolves s1 s3.
Proof.
  intros H12 H23 Hs1. destruct (H12 Hs1) as [Hs2 Hg12].
  destruct (H23 Hs2) as [Hs3 Hg23]. split; [done|by eapply grows_trans].
Qed.

Lemma evolves_same s s' :
  routes s' = routes s → relays s' = relays s → evolves s s'.
Proof.
  intros Hr Hl [Hk Hlk]. unfold keyed, linked, grows. rewrite Hr, Hl.
  split; [done|]. apply (grows_refl s).
Qed.

(** [m] only ever takes the two tables forward. *)
Definition steps {A} (m : M A) : Prop := ∀ s, evolves s (m s).2.

Definition route_tables (s : State) : gmap string Route * gmap string RelayRow :=
  (routes s, relays s).

Section Steps.

Lemma steps_keeps {A} (m : M A) : keeps route_tables m → steps m.
Proof.
  intros Hk s. specialize (Hk s). unfold route_tables in Hk.
  injection Hk as Hr Hl. by apply evolves_same.
Qed.

Lemma steps_ret {A} (a : A) : steps (ret a).
Proof. intros s. apply evolves_refl. Qed.

Lemma steps_bind {A C} (m : M A) (k : A → M C) :
  steps m → (∀ a, steps (k a)) → steps (m ≫= k).
Proof.
  intros Hm Hk s. unfold mbind, M_bind, bind.
  specialize (Hm s). destruct (m s) as [[a|] s1]; simpl in *; [|done].
  eapply evolves_trans; [exact Hm|apply Hk].
Qed.

Lemma steps_tryJson {A} (m : M A) : steps m → steps (tryJson m).
Proof.
  intros Hm s. unfold tryJson. specialize (Hm s).
  by destruct (m s) as [[a|] s1].
Qed.

Lemma steps_if {A} (b : bool) (m1 m2 : M A) :
  steps m1 → steps m2 → steps (if b then m1 else m2).
Proof. by destruct b. Qed.

Lemma steps_forEach {A} (f : A → M unit) (xs : list A) :
  (∀ x, steps (f x)) → steps (forEach f xs).
Proof.
  intros Hf. induction xs as [|x xs IH]; simpl; [apply steps_ret|].
  apply steps_bind; [apply Hf|]. intros _. exact IH.
Qed.

Lemma steps_handlers (hs : list (Event → M unit)) e :
  (∀ h, h ∈ hs → steps (h e)) → steps (forEach (fun h => h e) hs).
Proof.
  induction hs as [|h hs IH]; intros Hall; [apply steps_ret|].
  cbn [forEach]. apply steps_bind; [apply Hall; left|intros _].
  apply IH. intros h' Hh'. apply Hall. by right.
Qed.

End Steps.

Lemma blind_route_tables : blind_to_merges route_tables.
Proof. by split. Qed.

Section RouteSteps.

Variable X : Externals.

Lemma steps_addRoute now pubkey rawUrl type mode observed :
  steps (addRoute X now pubkey rawUrl type mode observed).
Proof.
  intros s. destruct rawUrl as [raw|].
  2:{ unfold addRoute. destruct (negb _); apply evolves_refl. }
  rewrite addRoute_unfold.
  destruct (negb _); [apply evolves_refl|].
  destruct (positive _); [|apply evolves_refl].
  cbv zeta. cbn [snd].
  set (id := route_key X pubkey (normalizeRelayUrl X raw) mode).
  set (route := default _ (routes s !! id)).
  set (sc := default 0%Q _).
  intros [Hk Hl].
  assert (Hid : route_id route = id).
  { unfold route. destruct (routes s !! id) as [r|] eqn:Hr; [by apply Hk|done]. }
  assert (Hroutes : routes (routes_put (fold_route route type sc observed)
                              (relays_patch (route_url route) s))
                    = <[id := fold_route route type sc observed]> (routes s)).
  { unfold routes_put. simpl. by rewrite Hid. }
  assert (Hrelays : relays (routes_put (fold_route route type sc observed)
                              (relays_patch (route_url route) s))
                    = <[route_url route :=
                          default (mkRelayRow None)
                            (relays s !! route_url route)]> (relays s)).
  { done. }
  assert (Hkept : ∀ url row, relays s !! url = Some row →
            (<[route_url route :=
                 default (mkRelayRow None) (relays s !! route_url route)]>
               (relays s)) !! url = Some row).
  { intros url row Hrow. destruct (decide (route_url route = url)) as [->|Hne].
    - by rewrite lookup_insert_eq, Hrow.
    - by rewrite lookup_insert_ne. }
  split; [split|split].
  - intros k r. rewrite Hroutes. destruct (decide (id = k)) as [<-|Hne].
    + rewrite lookup_insert_eq. by intros [= <-].
    + rewrite lookup_insert_ne by done. apply Hk.
  - intros k r. rewrite Hroutes, Hrelays.
    destruct (decide (id = k)) as [<-|Hne].
    + rewrite lookup_insert_eq. intros [= <-]. simpl.
      rewrite lookup_insert_eq. by eexists.
    + rewrite lookup_insert_ne by done. intros Hr.
      destruct (Hl k r Hr) as [row Hrow]. exists row. by apply Hkept.
  - intros k r Hr. rewrite Hroutes. destruct (decide (id = k)) as [<-|Hne].
    + rewrite lookup_insert_eq. eexists. split; [reflexivity|].
      unfold route. rewrite Hr. simpl.
      repeat split; try done; [lia| |].
      * intros t Ht. apply elem_of_uniq, elem_of_app. by left.
      * intros t Ht. rewrite Ht. simpl. eexists. split; [reflexivity|lia].
    + rewrite lookup_insert_ne by done. exists r.
      repeat split; try done. intros t Ht. exists t. split; [done|lia].
  - intros url row Hrow. rewrite Hrelays. by apply Hkept.
Qed.

Lemma steps_registered now kind handler e :
  handler ∈ handlers X now kind → steps (handler e).
Proof.
  pose proof steps_addRoute as Hadd.
  unfold handlers.
  repeat case_match; rewrite ?elem_of_cons, ?elem_of_nil;
    intros Hin; destruct_or?; try done; subst handler.
  - apply steps_keeps, (keeps_handle_kind0 X _ blind_route_tables).
  - apply steps_keeps, (keeps_profileHandler _ blind_route_tables).
  - unfold routes_kind2. apply steps_bind; [|intros _]; apply Hadd.
  - apply steps_keeps, (keeps_handle_petnames _ blind_route_tables).
  - apply steps_keeps, (keeps_profileHandler _ blind_route_tables).
  - unfold routes_kind3.
    apply steps_bind; [apply steps_tryJson|intros _; apply steps_ret].
    apply steps_bind; [by apply steps_keeps|intros entries].
    apply steps_forEach. intros kv.
    apply steps_bind; [by apply steps_keeps|intros c].
    apply steps_bind; [|intros _];
      (apply steps_if; [apply Hadd|apply steps_ret]).
  - apply steps_keeps, (keeps_profileHandler _ blind_route_tables).
  - apply steps_keeps, (keeps_profileHandler _ blind_route_tables).
  - apply steps_keeps, (keeps_profileHandler _ blind_route_tables).
  - unfold routes_kind10002. apply steps_forEach. intros t.
    repeat case_match;
      first [apply Hadd|apply steps_bind; [|intros _]; apply Hadd].
  - apply steps_keeps, (keeps_patch_room X _ blind_route_tables).
  - apply steps_keeps, (keeps_handle_kind41 X _ blind_route_tables).
Qed.

Lemma steps_processEvent now userPubkey e :
  steps (processEvent X now userPubkey e).
Proof.
  unfold processEvent. apply steps_bind.
  - apply steps_keeps, keeps_if; [by apply keeps_modify|done].
  - intros _. apply steps_handlers. intros h Hh.
    by apply (steps_registered now (ev_kind e)).
Qed.

Lemma steps_processEvents now events : steps (processEvents X now events).
Proof.
  unfold processEvents. apply steps_bind; [by apply steps_keeps|intros me].
  induction (chunk 100 (present events)) as [|c rest IH]; [apply steps_ret|].
  cbn [processChunks].
  apply steps_bind; [apply steps_forEach; intros e; apply steps_processEvent|].
  intros _. apply steps_bind; [by destruct rest; apply steps_ret|].
  intros _. exact IH.
Qed.

Lemma steps_relays_bulkPatch urls : steps (modify (relays_bulkPatch urls)).
Proof.
  induction urls as [|url urls IH] using rev_ind.
  - intros s. apply evolves_refl.
  - intros s. unfold modify, relays_bulkPatch. cbn [snd].
    rewrite foldl_snoc. fold (relays_bulkPatch urls s).
    eapply evolves_trans; [apply (IH s)|].
    set (s1 := relays_bulkPatch urls s).
    intros [Hk Hl].
    assert (Hkept : ∀ u row, relays s1 !! u = Some row →
              relays (relays_patch url s1) !! u = Some row).
    { intros u row Hrow. unfold relays_patch. simpl.
      destruct (decide (url = u)) as [->|Hne].
      - by rewrite lookup_insert_eq, Hrow.
      - by rewrite lookup_insert_ne. }
    split; [split|split].
    + exact Hk.
    + intros k r Hr. destruct (Hl k r Hr) as [row Hrow]. exists row.
      by apply Hkept.
    + intros k r Hr. exists r.
      repeat split; try done. intros t Ht. exists t. split; [done|lia].
    + exact Hkept.
Qed.

Lemma steps_verifyNip05 now pubkey as_ res :
  steps (verifyNip05 X now pubkey as_ res).
Proof.
  unfold verifyNip05. apply steps_if; [|apply steps_ret].
  apply steps_bind;
    [apply steps_keeps, (keeps_updatePerson _ blind_route_tables)|intros _].
  destruct (res ≫= nr_relays) as [[|r rs]|]; try apply steps_ret.
  apply steps_bind; [apply steps_relays_bulkPatch|intros _].
  apply steps_forEach. intros url.
  apply steps_bind; [|intros _]; apply steps_addRoute.
Qed.

(** X10.  The Route table stays consistent with itself and with the
    RelayEndpoint table: if every route sits under its own id and has a
    RelayEndpoint row for its URL, this is still so after any batch and after
    the continuation of any domain-identity lookup. *)
Theorem route_tables_stay_linked (now : Z) (events : Batch) (pubkey as_ : string)
    (res : option Nip05Result) (s : State) :
  keyed s → linked s →
  (keyed (exec (processEvents X now events) s)
   ∧ linked (exec (processEvents X now events) s))
  ∧ (keyed (exec (verifyNip05 X now pubkey as_ res) s)
     ∧ linked (exec (verifyNip05 X now pubkey as_ res) s)).
Proof.
  intros Hk Hl. split.
  - apply (steps_processEvents now events s). by split.
  - apply (steps_verifyNip05 now pubkey as_ res s). by split.
Qed.

(** X11.  Routes and relays are never lost and routes never change hands:
    on a consistent store, after any batch and after the continuation of any
    domain-identity lookup, every route that existed still exists with the
    same id, pubkey, URL and mode, a count that is not smaller, all the
    evidence types it had and a [last_seen] that is not earlier; and every
    RelayEndpoint row that existed is unchanged. *)
Theorem route_tables_only_grow (now : Z) (events : Batch) (pubkey as_ : string)
    (res : option Nip05Result) (s : State) :
  keyed s → linked s →
  grows s (exec (processEvents X now events) s)
  ∧ grows s (exec (verifyNip05 X now pubkey as_ res) s).
Proof.
  intros Hk Hl. split.
  - apply (steps_processEvents now events s). by split.
  - apply (steps_verifyNip05 now pubkey as_ res s). by split.
Qed.

End RouteSteps.

(** ** Evidence types and score bounds *)

Section Evidence.

Variable X : Externals.

(** The types of a route are the types of the calls folded into it. *)
Definition typed (calls : list Call) (s : State) : Prop :=
  ∀ id,
    match routes s !! id with
    | None => ∀ c, c ∈ calls → folded_into X id c = None
    | Some r =>
        NoDup (types r)
        ∧ ∀ t, t ∈ types r
               ↔ ∃ c, c ∈ calls ∧ is_Some (folded_into X id c) ∧ call_type c = t
    end.

Lemma run_typed calls s0 : routes s0 = ∅ → typed calls (run X calls s0).
Proof.
  intros Hempty.
  assert (Hk0 : keyed s0) by (intros k r; by rewrite Hempty, lookup_empty).
  induction calls as [|c calls IH] using rev_ind.
  - intros id. simpl. rewrite Hempty, lookup_empty.
    by intros c ?%elem_of_nil.
  - intros id. rewrite run_snoc.
    rewrite (call_routes X c _ id (run_keyed X calls s0 Hk0)).
    specialize (IH id).
    destruct (folded_into X id c) as [q|] eqn:Hf.
    + split; [apply NoDup_uniq|]. intros t. simpl.
      rewrite elem_of_uniq, elem_of_app, list_elem_of_singleton.
      destruct (routes (run X calls s0) !! id) as [r|]; simpl.
      * destruct IH as [_ IH]. rewrite IH. split.
        -- intros [(c' & Hc' & Hs & Ht)| ->].
           ++ exists c'. split; [apply elem_of_app; by left|done].
           ++ exists c. rewrite Hf.
              split; [apply elem_of_app; right; left|by split].
        -- intros (c' & Hc' & Hs & Ht).
           apply elem_of_app in Hc' as [Hc'|Hc'].
           ++ left. by exists c'.
           ++ apply list_elem_of_singleton in Hc' as ->. by right.
      * split.
        -- intros [?%elem_of_nil| ->]; [done|].
           exists c. rewrite Hf.
           split; [apply elem_of_app; right; left|by split].
        -- intros (c' & Hc' & Hs & Ht).
           apply elem_of_app in Hc' as [Hc'|Hc'].
           ++ rewrite (IH c' Hc') in Hs. by destruct Hs.
           ++ apply list_elem_of_singleton in Hc' as ->. by right.
    + destruct (routes (run X calls s0) !! id) as [r|].
      * destruct IH as [Hnd IH]. split; [done|]. intros t. rewrite IH. split.
        -- intros (c' & Hc' & Hs & Ht). exists c'.
           split; [apply elem_of_app; by left|done].
        -- intros (c' & Hc' & Hs & Ht).
           apply elem_of_app in Hc' as [Hc'|Hc']; [by exists c'|].
           apply list_elem_of_singleton in Hc' as ->.
           rewrite Hf in Hs. by destruct Hs.
      * intros c' Hc'. apply elem_of_app in Hc' as [Hc'|Hc']; [by apply IH|].
        by apply list_elem_of_singleton in Hc' as ->.
Qed.

(** X12.  The [types] of a route are a set: in a table grown from the empty
    one by any sequence of [addRoute] calls, the types of a route have no
    duplicates and are exactly the evidence types of the calls that were
    folded into it. *)
Theorem route_types_are_a_set (calls : list Call) (s0 : State) (id : string)
    (r : Route) :
  routes s0 = ∅ →
  routes (run X calls s0) !! id = Some r →
  NoDup (types r)
  ∧ ∀ t, t ∈ types r
         ↔ ∃ c, c ∈ calls ∧ is_Some (folded_into X id c) ∧ call_type c = t.
Proof.
  intros Hempty Hr. pose proof (run_typed calls s0 Hempty id) as Ht.
  by rewrite Hr in Ht.
Qed.






End Evidence.

(** ** Kind 3 relay lists *)

Lemma mapR_elem {A B} (f : A → result B) xs ys y :
  mapR f xs = Ok ys → y ∈ ys → ∃ x, x ∈ xs ∧ f x = Ok y.
Proof.
  revert ys. induction xs as [|x xs IH]; intros ys; simpl.
  - intros [= <-] Hy. by apply elem_of_nil in Hy.
  - destruct (f x) as [y'|] eqn:Hfx; [|done]. simpl.
    destruct (mapR f xs) as [ys'|]; [|done]. simpl.
    intros [= <-] [->|Hy]%elem_of_cons.
    + exists x. split; [left|done].
    + destruct (IH ys' eq_refl Hy) as (x' & Hx' & Hfx').
      exists x'. split; [by right|done].
Qed.

Lemma mapR_Throw {A B} (f : A → result B) xs x :
  x ∈ xs → f x = Throw → mapR f xs = Throw.
Proof.
  intros Hx Hfx. induction xs as [|x' xs IH]; [by apply elem_of_nil in Hx|].
  simpl. apply elem_of_cons in Hx as [<-|Hx].
  - by rewrite Hfx.
  - destruct (f x'); [|done]. simpl. by rewrite (IH Hx).
Qed.

Lemma negated_spec v :
  negated v = true ↔ v = Some (JBool false) ∨ v = Some (JStr "!").
Proof.
  destruct v as [[| [] | |s| |]|]; simpl; try (split; [done|by intros [|]]).
  - split; [by left|done].
  - destruct (String.eqb_spec s "!") as [->|Hne].
    + split; [by right|done].
    + split; [done|]. intros [|[=]]; done.
Qed.

Section Kind3.

Variable X : Externals.

(** X14.  The relay list of a kind-3 event is all or nothing.  When it is
    extracted, every entry has a normalised URL that passes [isRelay] and
    both flags set, a flag being false exactly when the condition of the
    same name is [false] or ["!"]; when one relay of the content has [null]
    for its conditions, no list is extracted at all. *)
Theorem kind3_relay_list (e : Event) (p : Profile) :
  (∀ rs r, relays_kind3 X e p = Some rs → r ∈ rs →
     ∃ url conditions v,
       JSON_parse X (content e) = Some v
       ∧ (url, conditions) ∈ own_entries v
       ∧ re_url r = Some (normalizeRelayUrl X url)
       ∧ isRelay X (normalizeRelayUrl X url) = true
       ∧ re_read r = Some (negb (negated (get_prop_opt (Some conditions) "read")))
       ∧ re_write r
         = Some (negb (negated (get_prop_opt (Some conditions) "write"))))
  ∧ (∀ v url, JSON_parse X (content e) = Some v →
       (url, JNull) ∈ own_entries v → relays_kind3 X e p = None).
Proof.
  split.
  - intros rs r. unfold relays_kind3.
    destruct (JSON_parse X (content e)) as [v|]; [|done]. simpl.
    destruct (Object_entries v) as [entries|] eqn:Hentries; [|done]. simpl.
    destruct (mapR _ entries) as [ys|] eqn:Hmap; [|done]. simpl.
    intros [= <-] Hr. apply elem_of_List_filter in Hr as [Hr Hrelay].
    destruct (mapR_elem _ _ _ _ Hmap Hr) as ([url c] & Hin & Hf).
    simpl in Hf. unfold conditions_of in Hf.
    destruct (get_prop_cases c) as [->|Hget]; [done|].
    rewrite !Hget in Hf. simpl in Hf. injection Hf as <-. simpl in *.
    exists url, c, v. repeat split; try done.
    destruct v; simpl in Hentries; try done; by injection Hentries as <-.
  - intros v url Hparse Hin. unfold relays_kind3. rewrite Hparse. simpl.
    destruct (Object_entries v) as [entries|] eqn:Hentries; [|done]. simpl.
    assert (entries = own_entries v) as ->.
    { destruct v; simpl in Hentries; try done; by injection Hentries as <-. }
    by rewrite (mapR_Throw _ _ (url, JNull) Hin).
Qed.

(** The route evidence of one entry of a kind-3 relay list. *)
Definition kind3_entry (now : Z) (e : Event) (kv : string * json) : M unit :=
  c ← lift (conditions_of kv.2);
  (if negb (negated c.1)
   then addRoute X now (ev_pubkey e) (Some kv.1) "kind:3" "write" (created_at e)
   else ret tt);;
  (if negb (negated c.2)
   then addRoute X now (ev_pubkey e) (Some kv.1) "kind:3" "read" (created_at e)
   else ret tt).

Lemma total_kind3_entry now e kv : kv.2 ≠ JNull → total (kind3_entry now e kv).
Proof.
  intros Hc. unfold kind3_entry.
  destruct (get_prop_cases kv.2) as [?|Hget]; [done|].
  unfold conditions_of. rewrite !Hget. simpl.
  apply total_bind; [apply total_ret|intros c].
  apply total_bind; [|intros _];
    (apply total_if; [apply total_addRoute_string|apply total_ret]).
Qed.

Lemma routes_kind3_entries now e v s :
  JSON_parse X (content e) = Some v → v ≠ JNull →
  exec (routes_kind3 X now e) s
  = (forEach (kind3_entry now e) (own_entries v) s).2.
Proof.
  intros Hparse Hv. unfold exec, routes_kind3.
  rewrite tryJson_then, bind_lift, Hparse. simpl.
  by destruct v.
Qed.

(** The [addRoute] calls the handler makes for the entries [kvs], in the
    order it makes them. *)
Definition kind3_calls (now : Z) (e : Event) (kvs : list (string * json))
    : list Call :=
  flat_map (fun kv : string * json =>
    (if negb (negated (get_prop_opt (Some kv.2) "write"))
     then [mkCall now (ev_pubkey e) (Some kv.1) "kind:3" "write" (created_at e)]
     else [])
    ++ (if negb (negated (get_prop_opt (Some kv.2) "read"))
        then [mkCall now (ev_pubkey e) (Some kv.1) "kind:3" "read"
                (created_at e)]
        else [])) kvs.

Lemma kind3_entry_run now e kv s :
  kv.2 ≠ JNull →
  kind3_entry now e kv s = (Ok tt, run X (kind3_calls now e [kv]) s).
Proof.
  intros Hc. unfold kind3_entry.
  destruct (get_prop_cases kv.2) as [?|Hget]; [done|].
  unfold conditions_of. rewrite !Hget.
  unfold kind3_calls. cbn [flat_map]. rewrite app_nil_r.
  set (w := get_prop_opt (Some kv.2) "write").
  set (r := get_prop_opt (Some kv.2) "read"). clearbody w r.
  change (Ok w ≫= (fun w0 => Ok r ≫= fun r0 => Ok (w0, r0))) with (Ok (w, r)).
  rewrite bind_lift. cbn [fst snd].
  pose proof (fun mode s0 =>
    total_unit _ (total_addRoute_string X now (ev_pubkey e) kv.1 "kind:3" mode
                    (created_at e)) s0) as Hadd.
  unfold run.
  destruct (negated w), (negated r); cbn [negb app foldl].
  - done.
  - rewrite bind_ret. by rewrite Hadd.
  - rewrite (bind_Ok _ _ _ _ _ (Hadd "write" s)). done.
  - rewrite (bind_Ok _ _ _ _ _ (Hadd "write" s)). by rewrite Hadd.
Qed.

Lemma kind3_entries_run now e kvs s :
  (∀ kv, kv ∈ kvs → kv.2 ≠ JNull) →
  forEach (kind3_entry now e) kvs s = (Ok tt, run X (kind3_calls now e kvs) s).
Proof.
  revert s. induction kvs as [|kv kvs IH]; intros s Hall; [done|].
  cbn [forEach].
  rewrite (bind_Ok _ _ _ _ _ (kind3_entry_run now e kv s (Hall kv ltac:(left)))).
  rewrite IH by (intros kv' Hkv'; apply Hall; by right).
  change (kv :: kvs) with ([kv] ++ kvs).
  unfold kind3_calls. by rewrite flat_map_app, run_app.
Qed.

Lemma evidence_fresh_kind3 now observed :
  (now - observed < thirty_days)%Z →
  ∃ q, evidence now "kind:3" observed = Some q ∧ (0 < q)%Q.
Proof.
  intros Hfresh. eexists. split; [reflexivity|].
  set (a := (now - observed)%Z) in *.
  unfold Qlt, Qminus, Qdiv, Qplus, Qopp, Qmult, Qinv, inject_Z, thirty_days
    in *; simpl in *. lia.
Qed.

(** X15.  The route evidence of a kind-3 event is not all or nothing: when
    the conditions of one relay of the content are [null], the handler has
    made exactly the [addRoute] calls of the relays listed before it, write
    before read for each, and none for the relays listed after it.  So the
    store is the one the same event with the content cut there leaves, and a
    fresh event adds at least one to the count of the route of every
    shareable relay listed before the [null] whose condition of that mode is
    neither [false] nor ["!"]. *)
Theorem kind3_routes_stop_at_null (now : Z) (e : Event) (s : State)
    (before after : list (string * json)) (url : string) :
  JSON_parse X (content e) = Some (JObj (before ++ (url, JNull) :: after)) →
  (∀ kv, kv ∈ before → kv.2 ≠ JNull) →
  exec (routes_kind3 X now e) s = run X (kind3_calls now e before) s
  ∧ (∀ e1, JSON_parse X (content e1) = Some (JObj before) →
       ev_pubkey e1 = ev_pubkey e → created_at e1 = created_at e →
       exec (routes_kind3 X now e) s = exec (routes_kind3 X now e1) s)
  ∧ (∀ u c mode,
       (u, c) ∈ before → mode = "write" ∨ mode = "read" →
       negated (get_prop_opt (Some c) mode) = false →
       isShareableRelay X (Some u) = true → keyed s →
       (now - created_at e < thirty_days)%Z →
       let id := route_key X (ev_pubkey e) (normalizeRelayUrl X u) mode in
       (route_count s id + 1
        ≤ route_count (exec (routes_kind3 X now e) s) id)%nat).
Proof.
  intros Hparse Hbefore.
  assert (Hrun : exec (routes_kind3 X now e) s
                 = run X (kind3_calls now e before) s).
  { rewrite (routes_kind3_entries now e _ s Hparse) by done.
    cbn [own_entries]. rewrite forEach_app.
    rewrite (bind_Ok _ _ _ _ _ (kind3_entries_run now e before s Hbefore)).
    cbn [forEach].
    by rewrite (bind_Throw (kind3_entry now e (url, JNull)) _ _ _ eq_refl). }
  split; [exact Hrun|]. split.
  - intros e1 Hparse1 Hpk Hat. rewrite Hrun.
    rewrite (routes_kind3_entries now e1 _ s Hparse1) by done.
    cbn [own_entries]. rewrite (kind3_entries_run now e1 before s Hbefore).
    unfold kind3_calls. by rewrite Hpk, Hat.
  - intros u c mode Hin Hmode Hneg Hshare Hk Hfresh id.
    rewrite Hrun, (count_run X _ s id Hk). apply Nat.add_le_mono_l.
    destruct (evidence_fresh_kind3 _ _ Hfresh) as (q & Hq & Hpos).
    set (c0 := mkCall now (ev_pubkey e) (Some u) "kind:3" mode (created_at e)).
    assert (Hcall : c0 ∈ kind3_calls now e before).
    { unfold kind3_calls. apply list_elem_of_In, in_flat_map.
      exists (u, c). split; [by apply list_elem_of_In|].
      apply list_elem_of_In. cbn [fst snd].
      destruct Hmode as [->| ->]; rewrite Hneg; cbn [negb].
      - apply elem_of_app. left. apply list_elem_of_here.
      - apply elem_of_app. right. apply list_elem_of_here. }
    assert (Hfold : folded_into X id c0 = Some q).
    { unfold folded_into, c0.
      cbn [call_url call_now call_type call_observed call_pubkey call_mode].
      rewrite Hq, Hshare.
      destruct (Qlt_le_dec 0 q) as [_|Hle]; [|by apply Qlt_not_le in Hpos].
      unfold id. by rewrite String.eqb_refl. }
    assert (Hq_in : q ∈ scores_into X id (kind3_calls now e before)).
    { unfold scores_into. apply list_elem_of_omap. by exists c0. }
    destruct (scores_into X id (kind3_calls now e before));
      [by apply elem_of_nil in Hq_in|simpl; lia].
Qed.

End Kind3.

(** ** Kind 10002 relay lists *)

Section Kind10002.

Variable X : Externals.

Lemma hits_positive pubkey id ums um :
  um ∈ ums → lands X pubkey id um = true →
  (1 ≤ length (List.filter (lands X pubkey id) ums))%nat.
Proof.
  intros Hin Hl.
  assert (Hf : um ∈ List.filter (lands X pubkey id) ums)
    by (by apply elem_of_List_filter).
  destruct (List.filter (lands X pubkey id) ums); [by apply elem_of_nil in Hf|].
  simpl. lia.
Qed.

(** X16.  The two handlers of kind 10002 do not read the same tags.  The
    relay list of the profile has one entry per ["r"] tag, with the second
    component as URL, [read] set exactly when the third component is missing,
    empty or ["read"], and [write] exactly when it is missing, empty or
    ["write"].  The route evidence is taken from every tag, whatever its
    name: a fresh event adds at least one to the count of the route of any
    tag whose second component is a shareable URL and whose third component
    is a non-empty mode. *)
Theorem kind10002_two_readings (now : Z) (e : Event) (p : Profile) (s : State) :
  (∃ rs, relays_kind10002 e p = Some rs
     ∧ length rs = length (List.filter (is_tag "r") (tags e))
     ∧ ∀ r, r ∈ rs →
         ∃ t, t ∈ tags e ∧ head t = Some "r" ∧ re_url r = t !! 1%nat
           ∧ (re_read r = Some true
              ↔ t !! 2%nat = None ∨ t !! 2%nat = Some EmptyString
                ∨ t !! 2%nat = Some "read")
           ∧ (re_write r = Some true
              ↔ t !! 2%nat = None ∨ t !! 2%nat = Some EmptyString
                ∨ t !! 2%nat = Some "write"))
  ∧ (∀ t url mode,
       isShareableRelay X None = false → keyed s →
       (now - created_at e < thirty_days)%Z →
       t ∈ tags e → t !! 1%nat = Some url → t !! 2%nat = Some mode →
       truthy_string mode = true → isShareableRelay X (Some url) = true →
       let id := route_key X (ev_pubkey e) (normalizeRelayUrl X url) mode in
       (route_count s id + 1
        ≤ route_count (exec (routes_kind10002 X now e) s) id)%nat).
Proof.
  split.
  - eexists. split; [reflexivity|]. split; [apply List.length_map|].
    intros r Hr. apply list_elem_of_In, in_map_iff in Hr as (t & <- & Ht).
    apply list_elem_of_In in Ht.
    apply elem_of_List_filter in Ht as [Ht Hhead].
    exists t. split; [done|]. split; [by apply bool_decide_eq_true in Hhead|].
    split; [done|]. cbn [re_url re_read re_write]. cbv zeta.
    unfold or_else, Tag in *.
    destruct (t !! 2%nat) as [[|a m]|]; cbn [truthy_string].
    + split; (split; [intros _; right; left; done|done]).
    + split.
      * destruct (String.eqb_spec (String a m) "read") as [Heq|Hne].
        -- rewrite Heq. split; [intros _; right; right; done|done].
        -- split; [by intros [=]|].
           intros [H|[H|H]]; [done|done|]. exfalso. apply Hne. congruence.
      * destruct (String.eqb_spec (String a m) "write") as [Heq|Hne].
        -- rewrite Heq. split; [intros _; right; right; done|done].
        -- split; [by intros [=]|].
           intros [H|[H|H]]; [done|done|]. exfalso. apply Hne. congruence.
    + split; (split; [intros _; left; done|done]).
  - intros t url mode Hundef Hk Hfresh Ht Hurl Hmode Htruthy Hshare id.
    rewrite (routes_kind10002_run X now e s Hundef).
    rewrite (count_run X _ s id Hk), (scores_fresh X now e id Hfresh).
    apply Nat.add_le_mono_l. unfold hits.
    apply (hits_positive _ _ _ (Some url, mode)).
    + unfold targets. apply list_elem_of_In, in_flat_map. exists t.
      split; [by apply list_elem_of_In|].
      rewrite Hurl, Hmode, Htruthy. by left.
    + unfold lands. simpl. rewrite Hshare. simpl. apply String.eqb_refl.
Qed.

End Kind10002.

(** ** The lookups *)

Lemma split_nonempty c s : split c s ≠ [].
Proof. destruct s as [|a s]; simpl; [done|]. by repeat case_match. Qed.

Lemma includes_cons c a s :
  includes c (String a s) = if Ascii.eqb a c then true else includes c s.
Proof.
  unfold includes. simpl. pose proof (split_nonempty c s) as Hne.
  destruct (Ascii.eqb a c).
  - destruct (split c s); [done|]. by rewrite bool_decide_true by (simpl; lia).
  - by destruct (split c s).
Qed.

Lemma split_without c s : includes c s = false → split c s = [s].
Proof.
  induction s as [|a s IH]; [done|]. rewrite includes_cons. simpl.
  destruct (Ascii.eqb a c); [done|]. intros Hs. by rewrite (IH Hs).
Qed.

Lemma split_at c name rest :
  includes c name = false →
  split c (name +:+ String c rest) = name :: split c rest.
Proof.
  induction name as [|a name IH].
  - intros _. change (EmptyString +:+ String c rest) with (String c rest).
    cbn [split]. by rewrite Ascii.eqb_refl.
  - change (String a name +:+ String c rest)
      with (String a (name +:+ String c rest)).
    rewrite includes_cons. cbn [split].
    destruct (Ascii.eqb a c); [done|].
    intros Hname. by rewrite (IH Hname).
Qed.

Lemma includes_at c name rest : includes c (name +:+ String c rest) = true.
Proof.
  induction name as [|a name IH].
  - change (EmptyString +:+ String c rest) with (String c rest).
    by rewrite includes_cons, Ascii.eqb_refl.
  - change (String a name +:+ String c rest)
      with (String a (name +:+ String c rest)).
    rewrite includes_cons. by destruct (Ascii.eqb a c).
Qed.

Section Lookups.

Variable X : Externals.

(** X17.  Which address is looked up where.  An address starting with
    [lnurl1] is decoded as bech32, whatever else it contains.  Any other
    address [name@domain], with both parts non-empty and without further
    [@], is looked up at [https://domain/.well-known/lnurlp/name].  An
    address without [@], and one whose name or domain is empty, is not
    looked up, and then [verifyZapper] leaves the store as it was. *)
Theorem zapper_addresses (now : Z) (fetched : string → option json)
    (pubkey address : string) (s : State) :
  (startsWith "lnurl1" address = true →
   zapper_url X address = bech32ToHex X address)
  ∧ (∀ name domain,
       address = name +:+ String "@"%char domain →
       startsWith "lnurl1" address = false →
       includes "@"%char name = false → includes "@"%char domain = false →
       zapper_url X address
       = if truthy_string domain && truthy_string name
         then Some ("https://" +:+ domain +:+ "/.well-known/lnurlp/" +:+ name)
         else None)
  ∧ (startsWith "lnurl1" address = false → includes "@"%char address = false →
     zapper_url X address = None)
  ∧ (zapper_url X address = None →
     verifyZapper X now fetched pubkey address s = (Ok tt, s)).
Proof.
  split; [|split; [|split]].
  - intros Hp. unfold zapper_url. by rewrite Hp.
  - intros name domain -> Hp Hname Hdomain. unfold zapper_url.
    rewrite Hp, includes_at, (split_at _ _ _ Hname), (split_without _ _ Hdomain).
    done.
  - intros Hp Hat. unfold zapper_url. by rewrite Hp, Hat.
  - intros Hnone. unfold verifyZapper. by rewrite Hnone.
Qed.

(** X18.  The domain-identity gate: the continuation of [verifyNip05] writes
    only when the lookup resolved to the very pubkey that claimed the name;
    otherwise the store is left as it was.  When it does write, the Identity
    gets [verified_as] and nothing else of it changes, and (on a consistent
    store) every advertised URL that passes [isRelay] has a RelayEndpoint row
    under its normalised form afterwards. *)
Theorem nip05_gate (now : Z) (pubkey as_ : string) (res : option Nip05Result)
    (s : State) :
  (res ≫= nr_pubkey ≠ Some pubkey →
   verifyNip05 X now pubkey as_ res s = (Ok tt, s))
  ∧ (res ≫= nr_pubkey = Some pubkey →
     let s' := exec (verifyNip05 X now pubkey as_ res) s in
     people s'
     = patched now pubkey
         (mkPersonData None None None None (Some as_) None None) (people s)
     ∧ (keyed s → linked s →
        ∀ rs url, res ≫= nr_relays = Some rs → url ∈ rs →
          isRelay X url = true →
          is_Some (relays s' !! normalizeRelayUrl X url))).
Proof.
  split.
  - intros Hne. unfold verifyNip05. by rewrite bool_decide_false.
  - intros Heq s'.
    set (data := mkPersonData None None None None (Some as_) None None).
    set (s1 := exec (updatePerson now pubkey data) s).
    assert (Hs1 : updatePerson now pubkey data s = (Ok tt, s1)).
    { apply total_unit, total_updatePerson. }
    assert (Hp1 : people s1 = patched now pubkey data (people s)).
    { apply people_updatePerson. }
    assert (Hr1 : route_tables s1 = route_tables s).
    { apply (keeps_updatePerson _ blind_route_tables). }
    destruct (res ≫= nr_relays) as [[|r rs]|] eqn:Hrs.
    + assert (Hs' : s' = s1).
      { unfold s', exec, verifyNip05. rewrite bool_decide_true by done.
        rewrite (bind_Ok _ _ _ _ _ Hs1), Hrs. done. }
      rewrite Hs'. split; [done|]. intros _ _ rs url [= <-] Hin.
      by apply elem_of_nil in Hin.
    + set (urls := filter (fun u => isRelay X u = true) (r :: rs)).
      set (s2 := relays_bulkPatch (normalizeRelayUrl X <$> urls) s1).
      set (rest := forEach (fun url =>
                     addRoute X now pubkey (Some url) "nip05" "write" now;;
                     addRoute X now pubkey (Some url) "nip05" "read" now) urls).
      assert (Hs' : s' = (rest s2).2).
      { unfold s', exec, verifyNip05. rewrite bool_decide_true by done.
        rewrite (bind_Ok _ _ _ _ _ Hs1), Hrs. by rewrite bind_modify. }
      assert (Hrest_people : keeps people rest).
      { apply keeps_forEach. intros u.
        apply keeps_bind; [|intros _]; by apply keeps_addRoute. }
      assert (Hrest_steps : steps rest).
      { apply steps_forEach. intros u.
        apply steps_bind; [|intros _]; apply steps_addRoute. }
      split.
      * rewrite Hs', Hrest_people. unfold s2.
        assert (Hbulk : ∀ us s0, people (relays_bulkPatch us s0) = people s0).
        { intros us. induction us as [|u us IH] using rev_ind; intros s0;
            [done|].
          unfold relays_bulkPatch. rewrite foldl_snoc. apply IH. }
        by rewrite Hbulk.
      * intros Hk Hl rs' url [= <-] Hin Hrelay.
        unfold route_tables in Hr1. injection Hr1 as Hroutes1 Hrelays1.
        assert (Hsound1 : keyed s1 ∧ linked s1).
        { unfold keyed, linked. by rewrite Hroutes1, Hrelays1. }
        destruct (steps_relays_bulkPatch (normalizeRelayUrl X <$> urls) s1
                    Hsound1) as [Hsound2 _].
        fold s2 in Hsound2.
        destruct (Hrest_steps s2 Hsound2) as [_ [_ Hkept]].
        assert (Hrow : is_Some (relays s2 !! normalizeRelayUrl X url)).
        { assert (Hu : normalizeRelayUrl X url ∈ normalizeRelayUrl X <$> urls).
          { apply list_elem_of_fmap. exists url. split; [done|].
            by apply list_elem_of_filter. }
          unfold s2. clear -Hu.
          induction (normalizeRelayUrl X <$> urls) as [|u us IH] using rev_ind;
            [by apply elem_of_nil in Hu|].
          unfold relays_bulkPatch. rewrite foldl_snoc.
          fold (relays_bulkPatch us s1). unfold relays_patch at 1. simpl.
          apply elem_of_app in Hu as [Hu|Hu].
          - destruct (decide (u = normalizeRelayUrl X url)) as [->|Hne].
            + rewrite lookup_insert_eq. by eexists.
            + rewrite lookup_insert_ne by done. by apply IH.
          - apply list_elem_of_singleton in Hu as <-.
            rewrite lookup_insert_eq. by eexists. }
        destruct Hrow as [row Hrow]. exists row. rewrite Hs'.
        by apply Hkept.
    + assert (Hs' : s' = s1).
      { unfold s', exec, verifyNip05. rewrite bool_decide_true by done.
        rewrite (bind_Ok _ _ _ _ _ Hs1), Hrs. done. }
      rewrite Hs'. split; [done|]. by intros _ _ rs url [=].
Qed.

End Lookups.

(** ** The profile copy and the profile timestamps *)

(** [m] relates every store to the store it leaves, also when it throws. *)
Definition passes {A} (R : State → State → Prop) (m : M A) : Prop :=
  ∀ s, R s (m s).2.

(** The part of the store [updatePerson] and [profileHandler] write. *)
Definition identity_view (s : State) : gmap string Person * Profile :=
  (people s, profile s).

Lemma blind_identity_view : blind_to_routes identity_view.
Proof. by split. Qed.

Lemma identity_view_bulkPatch urls s :
  identity_view (relays_bulkPatch urls s) = identity_view s.
Proof.
  induction urls as [|u urls IH] using rev_ind; [done|].
  unfold relays_bulkPatch. rewrite foldl_snoc. exact IH.
Qed.

Section Passes.

Variable X : Externals.
Variable R : State → State → Prop.
Hypothesis Hrefl : ∀ s, R s s.
Hypothesis Htrans : ∀ s1 s2 s3, R s1 s2 → R s2 s3 → R s1 s3.

Lemma passes_ret {A} (a : A) : passes R (ret a).
Proof using Hrefl. intros s. apply Hrefl. Qed.

Lemma passes_bind {A C} (m : M A) (k : A → M C) :
  passes R m → (∀ a, passes R (k a)) → passes R (m ≫= k).
Proof using Htrans.
  intros Hm Hk s. unfold mbind, M_bind, bind.
  specialize (Hm s). destruct (m s) as [[a|] s1]; simpl in *; [|done].
  eapply Htrans; [exact Hm|apply Hk].
Qed.

(** What runs after [m], if anything does, starts from the store [m] left. *)
Lemma passes_after {A C} (m : M A) (k : A → M C) s :
  (∀ a, passes R (k a)) → R (exec m s) (exec (m ≫= k) s).
Proof using Hrefl.
  intros Hk. unfold exec, mbind, M_bind, bind.
  destruct (m s) as [[a|] s1]; simpl; [apply Hk|apply Hrefl].
Qed.

Lemma passes_tryJson {A} (m : M A) : passes R m → passes R (tryJson m).
Proof.
  intros Hm s. unfold tryJson. specialize (Hm s).
  by destruct (m s) as [[a|] s1].
Qed.

Lemma passes_if {A} (b : bool) (m1 m2 : M A) :
  passes R m1 → passes R m2 → passes R (if b then m1 else m2).
Proof. by destruct b. Qed.

Lemma passes_forEach {A} (f : A → M unit) (xs : list A) :
  (∀ x, passes R (f x)) → passes R (forEach f xs).
Proof using Hrefl Htrans.
  intros Hf. induction xs as [|x xs IH]; simpl; [apply passes_ret|].
  apply passes_bind; [apply Hf|]. intros _. exact IH.
Qed.

Lemma passes_handlers (hs : list (Event → M unit)) e :
  (∀ h, h ∈ hs → passes R (h e)) → passes R (forEach (fun h => h e) hs).
Proof using Hrefl Htrans.
  induction hs as [|h hs IH]; intros Hall; [apply passes_ret|].
  cbn [forEach]. apply passes_bind; [apply Hall; left|intros _].
  apply IH. intros h' Hh'. apply Hall. by right.
Qed.

Hypothesis Hview : ∀ s s', identity_view s' = identity_view s → R s s'.
Hypothesis HupdatePerson :
  ∀ now pubkey data, passes R (updatePerson now pubkey data).
Hypothesis HprofileHandler :
  ∀ key getValue e, passes R (profileHandler key getValue e).

Lemma passes_view {A} (m : M A) : keeps identity_view m → passes R m.
Proof using Hview. intros Hk s. apply Hview, Hk. Qed.

Lemma passes_registered now kind handler e :
  handler ∈ handlers X now kind → passes R (handler e).
Proof using Hrefl Htrans Hview HupdatePerson HprofileHandler.
  unfold handlers.
  repeat case_match; rewrite ?elem_of_cons, ?elem_of_nil;
    intros Hin; destruct_or?; try done; subst handler;
    try apply HprofileHandler.
  - unfold handle_kind0.
    apply passes_bind; [apply passes_tryJson|intros _; by apply passes_view].
    apply passes_bind; [by apply passes_view|intros k0].
    apply passes_bind; [by apply passes_view|intros person].
    apply passes_if; [by apply passes_view|].
    apply passes_bind; [by apply passes_view|intros nip].
    apply passes_bind;
      [apply passes_view, keeps_if; [by apply keeps_modify|done]|intros _].
    apply passes_bind; [by apply passes_view|intros lud16].
    apply passes_bind; [by apply passes_view|intros lud06].
    apply passes_bind; [|intros _; apply HupdatePerson].
    apply passes_view, keeps_if; [|done].
    repeat case_match; first [by apply keeps_modify|done].
  - apply passes_view, (keeps_routes_kind2 X identity_view blind_identity_view).
  - unfold handle_petnames.
    apply passes_bind; [by apply passes_view|intros person].
    apply passes_if; [by apply passes_view|apply HupdatePerson].
  - apply passes_view, (keeps_routes_kind3 X identity_view blind_identity_view).
  - apply passes_view,
      (keeps_routes_kind10002 X identity_view blind_identity_view).
  - apply passes_view. unfold handle_kind40, patch_room. auto 6 with keeps.
  - apply passes_view. unfold handle_kind41, patch_room.
    repeat case_match; auto 6 with keeps.
Qed.

Lemma passes_dispatch now e (hs : list (Event → M unit)) :
  (∀ h, h ∈ hs → h ∈ handlers X now (ev_kind e)) →
  passes R (forEach (fun h => h e) hs).
Proof using Hrefl Htrans Hview HupdatePerson HprofileHandler.
  intros Hsub. apply passes_handlers. intros h Hh.
  apply (passes_registered now (ev_kind e)). by apply Hsub.
Qed.

Lemma passes_processEvent now userPubkey e :
  passes R (processEvent X now userPubkey e).
Proof using Hrefl Htrans Hview HupdatePerson HprofileHandler.
  unfold processEvent. apply passes_bind.
  - apply passes_view, keeps_if; [by apply keeps_modify|done].
  - intros _. by apply (passes_dispatch now).
Qed.

Lemma passes_processEvents now events : passes R (processEvents X now events).
Proof using Hrefl Htrans Hview HupdatePerson HprofileHandler.
  unfold processEvents. apply passes_bind; [by apply passes_view|intros me].
  induction (chunk 100 (present events)) as [|c rest IH]; [apply passes_ret|].
  cbn [processChunks].
  apply passes_bind; [apply passes_forEach; intros e; apply passes_processEvent|].
  intros _. apply passes_bind; [by destruct rest; apply passes_ret|].
  intros _. exact IH.
Qed.

Lemma passes_run now me es s :
  R s (foldl (fun s1 e => exec (processEvent X now me e) s1) s es).
Proof using Hrefl Htrans Hview HupdatePerson HprofileHandler.
  revert s. induction es as [|e es IH]; intros s; [apply Hrefl|].
  cbn [foldl]. eapply Htrans; [apply (passes_processEvent now me e s)|apply IH].
Qed.

Lemma passes_verifyNip05 now pubkey as_ res :
  passes R (verifyNip05 X now pubkey as_ res).
Proof using Hrefl Htrans Hview HupdatePerson.
  unfold verifyNip05. apply passes_if; [|apply passes_ret].
  apply passes_bind; [apply HupdatePerson|intros _].
  destruct (res ≫= nr_relays) as [[|r rs]|]; try apply passes_ret.
  apply passes_bind; [|intros _].
  - apply passes_view, keeps_modify. intros s. apply identity_view_bulkPatch.
  - apply passes_forEach. intros url. apply passes_view.
    apply keeps_bind; [|intros _];
      apply (keeps_any_addRoute X identity_view blind_identity_view).
Qed.

Lemma passes_verifyZapper now fetched pubkey address :
  passes R (verifyZapper X now fetched pubkey address).
Proof using Hrefl Htrans Hview HupdatePerson.
  unfold verifyZapper. destruct (zapper_url X address) as [url|];
    [|apply passes_ret].
  apply passes_if; [|apply passes_ret].
  apply passes_if; [|apply passes_ret].
  apply passes_bind; [by apply passes_view|intros trimmed].
  apply HupdatePerson.
Qed.

End Passes.

(** A field of the Identity data that [{...old, ...data}] overwrites exactly
    when [data] has it; the seven fields of the model are such. *)
Definition merged_field {A} (f : PersonData → option A) : Prop :=
  ∀ data old, f (merge_data data old) = over (f data) (f old).

(** The copy of the field on the user profile agrees with the Identity row of
    the user. *)
Definition mirrored {A} (f : PersonData → option A) (s : State) : Prop :=
  ∀ me, getPubkey s = Some me →
    f (profile_data (profile s))
    = f (default no_data (person_data <$> people s !! me)).

Definition stays_mirrored {A} (f : PersonData → option A) (s s' : State)
    : Prop :=
  mirrored f s → mirrored f s'.

Lemma set_key_data key v t p :
  profile_data (set_key key v t p) = profile_data p.
Proof. by destruct key. Qed.

Section Mirror.

Variable X : Externals.
Context {A : Type} (f : PersonData → option A).

Lemma mirror_refl s : stays_mirrored f s s.
Proof. by intros H. Qed.

Lemma mirror_trans s1 s2 s3 :
  stays_mirrored f s1 s2 → stays_mirrored f s2 s3 → stays_mirrored f s1 s3.
Proof. intros H12 H23 H1. by apply H23, H12. Qed.

Lemma mirror_view s s' :
  identity_view s' = identity_view s → stays_mirrored f s s'.
Proof.
  unfold identity_view. intros [= Hpeople Hprofile] Hs me.
  unfold getPubkey. rewrite Hpeople, Hprofile. apply Hs.
Qed.

Lemma mirror_updatePerson_of (Hf : merged_field f) now pubkey data :
  passes (stays_mirrored f) (updatePerson now pubkey data).
Proof.
  intros s Hs. unfold updatePerson. rewrite bind_modify, bind_gets.
  change (getPubkey (people_patch pubkey now data s)) with (getPubkey s).
  destruct (decide (getPubkey s = Some pubkey)) as [Hme|Hme].
  - rewrite bool_decide_true by done. intros me. unfold getPubkey. simpl.
    fold (getPubkey s). rewrite Hme. intros [= <-].
    rewrite lookup_insert_eq. simpl. rewrite !Hf. by rewrite (Hs _ Hme).
  - rewrite bool_decide_false by done. intros me. unfold getPubkey. simpl.
    fold (getPubkey s). intros Hme'.
    rewrite lookup_insert_ne by (intros ->; by rewrite Hme' in Hme).
    by apply Hs.
Qed.

Lemma mirror_profileHandler key getValue e :
  passes (stays_mirrored f) (profileHandler key getValue e).
Proof.
  intros s Hs. unfold profileHandler. rewrite bind_gets.
  destruct (negb _); [done|]. destruct (js_lt _ _); [done|].
  intros me. unfold getPubkey. simpl.
  destruct (getValue e (profile s)) as [v|]; simpl; [|apply Hs].
  rewrite set_key_pubkey, set_key_data. apply Hs.
Qed.

(** X19.  The profile copy mirrors the Identity row of the user.  For each
    field of the Identity data, if the copy [updatePerson] keeps on the user
    profile agrees with the row of the user, it still does after a batch,
    after the continuation of a domain-identity lookup and after a zapper
    lookup, whoever they are about; and once [updatePerson] has written
    the field for the user, the two agree, whatever they were before. *)
Theorem profile_mirrors_identity (now : Z) (s : State) :
  merged_field f →
  (∀ events, mirrored f s → mirrored f (exec (processEvents X now events) s))
  ∧ (∀ pubkey as_ res,
       mirrored f s → mirrored f (exec (verifyNip05 X now pubkey as_ res) s))
  ∧ (∀ fetched pubkey address,
       mirrored f s →
       mirrored f (exec (verifyZapper X now fetched pubkey address) s))
  ∧ (∀ me data, getPubkey s = Some me → is_Some (f data) →
       mirrored f (exec (updatePerson now me data) s)).
Proof.
  intros Hmerged.
  split; [|split; [|split]].
  - intros events.
    apply (passes_processEvents X (stays_mirrored f) mirror_refl mirror_trans
             mirror_view (mirror_updatePerson_of Hmerged)
             mirror_profileHandler now events s).
  - intros pubkey as_ res.
    apply (passes_verifyNip05 X (stays_mirrored f) mirror_refl mirror_trans
             mirror_view (mirror_updatePerson_of Hmerged) now pubkey as_ res s).
  - intros fetched pubkey address.
    apply (passes_verifyZapper X (stays_mirrored f) mirror_refl mirror_trans
             mirror_view (mirror_updatePerson_of Hmerged)
             now fetched pubkey address s).
  - intros me data Hme [v Hv] me'.
    unfold exec, updatePerson. rewrite bind_modify, bind_gets.
    change (getPubkey (people_patch me now data s)) with (getPubkey s).
    rewrite bool_decide_true by done. unfold getPubkey. simpl.
    fold (getPubkey s). rewrite Hme. intros [= <-].
    rewrite lookup_insert_eq. simpl. rewrite !Hmerged. by rewrite Hv.
Qed.

End Mirror.

(** [b] is a timestamp at least [a], when [a] is one. *)
Definition not_before (a b : option Z) : Prop :=
  ∀ t, a = Some t → ∃ T, b = Some T ∧ (t ≤ T)%Z.

(** The user stays who they are and no profile timestamp moves back. *)
Definition profile_ages (s s' : State) : Prop :=
  getPubkey s' = getPubkey s
  ∧ ∀ key, not_before (updated_at_of key (profile s))
             (updated_at_of key (profile s')).

(** The profile timestamp of [key] is at least [c]. *)
Definition reaches (key : ProfileKey) (s : State) (c : Z) : Prop :=
  ∃ T, updated_at_of key (profile s) = Some T ∧ (c ≤ T)%Z.

#[global] Instance ProfileKey_eq_dec : EqDecision ProfileKey.
Proof. solve_decision. Defined.

Lemma updated_at_set_key key key' v t p :
  updated_at_of key' (set_key key v t p)
  = if bool_decide (key' = key) then Some t else updated_at_of key' p.
Proof. by destruct key, key'. Qed.

Lemma ages_refl s : profile_ages s s.
Proof. split; [done|]. intros key t Ht. exists t. split; [done|lia]. Qed.

Lemma ages_trans s1 s2 s3 :
  profile_ages s1 s2 → profile_ages s2 s3 → profile_ages s1 s3.
Proof.
  intros [Hp12 H12] [Hp23 H23]. split; [congruence|].
  intros key t Ht. destruct (H12 key t Ht) as (t2 & Ht2 & Hle2).
  destruct (H23 key t2 Ht2) as (t3 & Ht3 & Hle3).
  exists t3. split; [done|lia].
Qed.

Lemma ages_view s s' : identity_view s' = identity_view s → profile_ages s s'.
Proof.
  unfold identity_view. intros [= _ Hprofile]. unfold profile_ages, getPubkey.
  rewrite Hprofile. apply ages_refl.
Qed.

Lemma ages_updatePerson now pubkey data :
  passes profile_ages (updatePerson now pubkey data).
Proof.
  intros s. unfold updatePerson. rewrite bind_modify, bind_gets.
  destruct (bool_decide _); simpl;
    (split; [done|]; intros key t Ht; exists t; split; [by destruct key|lia]).
Qed.

Lemma ages_profileHandler key getValue e :
  passes profile_ages (profileHandler key getValue e).
Proof.
  intros s. unfold profileHandler. rewrite bind_gets.
  destruct (negb _); [apply ages_refl|].
  destruct (js_lt _ _) eqn:Hlt; [apply ages_refl|].
  unfold modify, profile_update. cbn [snd profile].
  destruct (getValue e (profile s)) as [v|]; simpl; [|by apply ages_view].
  split; [unfold getPubkey; simpl; apply set_key_pubkey|].
  intros key' t Ht. cbn [profile]. rewrite updated_at_set_key.
  destruct (decide (key' = key)) as [->|Hne].
  - rewrite bool_decide_true by done. exists (created_at e). split; [done|].
    rewrite Ht in Hlt. simpl in Hlt. lia.
  - rewrite bool_decide_false by done. exists t. split; [done|lia].
Qed.

Lemma reaches_ages key s s' c :
  profile_ages s s' → reaches key s c → reaches key s' c.
Proof.
  intros [_ Hages] (t & Ht & Hle). destruct (Hages key t Ht) as (T & HT & HtT).
  exists T. split; [done|lia].
Qed.

(** An own event whose extraction yields a value brings the timestamp of its
    key to its own at least. *)
Lemma profileHandler_reaches key getValue e s :
  getPubkey s = Some (ev_pubkey e) → is_Some (getValue e (profile s)) →
  reaches key (exec (profileHandler key getValue e) s) (created_at e).
Proof.
  unfold getPubkey. intros Hme [v Hv]. unfold exec, profileHandler.
  rewrite bind_gets. rewrite bool_decide_true by done. cbn [negb].
  destruct (js_lt _ _) eqn:Hlt.
  - unfold js_lt in Hlt.
    destruct (updated_at_of key (profile s)) as [b|] eqn:Hb; [|done].
    exists b. split; [done|lia].
  - unfold modify, profile_update. cbn [snd profile]. rewrite Hv.
    cbn [truthy_array]. exists (created_at e). cbn [profile].
    rewrite updated_at_set_key.
    rewrite bool_decide_true by done. split; [done|lia].
Qed.

Section ProfileOrder.

Variable X : Externals.

Lemma ages_registered now kind handler e :
  handler ∈ handlers X now kind → passes profile_ages (handler e).
Proof.
  apply (passes_registered X profile_ages ages_refl ages_trans ages_view
           ages_updatePerson ages_profileHandler).
Qed.

Lemma ages_run now me es s :
  profile_ages s (foldl (fun s1 e => exec (processEvent X now me e) s1) s es).
Proof.
  apply (passes_run X profile_ages ages_refl ages_trans ages_view
           ages_updatePerson ages_profileHandler).
Qed.

(** Where the profile handler of a kind stands among its handlers. *)
Lemma dispatch_reaches now e key getValue rest pre s :
  isShareableRelay X None = false →
  (∀ h, h ∈ pre ++ profileHandler key getValue :: rest →
        h ∈ handlers X now (ev_kind e)) →
  getPubkey s = Some (ev_pubkey e) → (∀ p, is_Some (getValue e p)) →
  reaches key
    (exec (forEach (fun h => h e) (pre ++ profileHandler key getValue :: rest))
       s)
    (created_at e).
Proof.
  intros Hundef Hsub Hme Hvalue. revert s Hme.
  induction pre as [|h pre IH]; intros s Hme.
  - cbn [app forEach].
    eapply reaches_ages; [|by apply profileHandler_reaches].
    apply (passes_after profile_ages ages_refl). intros _.
    apply (passes_dispatch X profile_ages ages_refl ages_trans ages_view
             ages_updatePerson ages_profileHandler now).
    intros h Hh. apply Hsub. by right.
  - cbn [app forEach].
    assert (Hh : h ∈ handlers X now (ev_kind e)) by (apply Hsub; left).
    pose proof (total_unit _ (total_handlers X now _ h e Hundef Hh) s) as Hs.
    unfold exec at 1. rewrite (bind_Ok _ _ _ _ _ Hs).
    apply IH.
    + intros h' Hh'. apply Hsub. by right.
    + destruct (ages_registered now _ h e Hh s) as [Hpk _].
      unfold exec. by rewrite Hpk.
Qed.

Lemma processEvent_reaches now me e key getValue pre rest s :
  isShareableRelay X None = false →
  handlers X now (ev_kind e) = pre ++ profileHandler key getValue :: rest →
  getPubkey s = Some (ev_pubkey e) → (∀ p, is_Some (getValue e p)) →
  reaches key (exec (processEvent X now me e) s) (created_at e).
Proof.
  intros Hundef Hhs Hme Hvalue. rewrite processEvent_split, Hhs.
  apply (dispatch_reaches now); [done| |by destruct (bool_decide _)|done].
  intros h Hh. by rewrite Hhs.
Qed.

Lemma run_reaches now me es e key getValue pre rest s :
  isShareableRelay X None = false →
  handlers X now (ev_kind e) = pre ++ profileHandler key getValue :: rest →
  (∀ p, is_Some (getValue e p)) →
  e ∈ es → getPubkey s = Some (ev_pubkey e) →
  reaches key (foldl (fun s1 e => exec (processEvent X now me e) s1) s es)
    (created_at e).
Proof.
  intros Hundef Hhs Hvalue. revert s.
  induction es as [|e' es IH]; intros s Hin Hme;
    [by apply elem_of_nil in Hin|].
  cbn [foldl]. apply elem_of_cons in Hin as [<-|Hin].
  - eapply reaches_ages; [apply ages_run|].
    by eapply processEvent_reaches.
  - apply IH; [done|].
    destruct (passes_processEvent X profile_ages ages_refl ages_trans
                ages_view ages_updatePerson ages_profileHandler now me e' s)
      as [Hpk _].
    unfold exec. by rewrite Hpk.
Qed.

(** X20.  The timestamps of the user profile only move forward, and a batch
    leaves no own event newer than them: after a batch the user is who they
    were, [relays_updated_at] and [mutes_updated_at] are at least what they
    were, the relay timestamp, which four kinds share, is at least the
    [created_at] of every own event of kind 2, 10001 and 10002 in the batch
    and of every own kind-3 event whose relay list could be read, and the
    mute timestamp is at least that of every own kind-10000 event. *)
Theorem profile_timestamps_dominate (now : Z) (events : Batch) (s : State) :
  isShareableRelay X None = false →
  let s' := exec (processEvents X now events) s in
  profile_ages s s'
  ∧ (∀ e, e ∈ present events → getPubkey s = Some (ev_pubkey e) →
       (ev_kind e = 2%Z ∨ ev_kind e = 10001%Z ∨ ev_kind e = 10002%Z →
        reaches KeyRelays s' (created_at e))
       ∧ (ev_kind e = 3%Z → is_Some (relays_kind3 X e (profile s)) →
          reaches KeyRelays s' (created_at e))
       ∧ (ev_kind e = 10000%Z → reaches KeyMutes s' (created_at e))).
Proof.
  intros Hundef s'. unfold s', exec.
  rewrite (processEvents_run X now events s Hundef). cbn [snd].
  split; [apply ages_run|].
  intros e Hin Hme. split; [|split].
  - intros [Hk|[Hk|Hk]].
    + apply (run_reaches now (getPubkey s) (present events) e KeyRelays
               (relays_kind2 X) [] [routes_kind2 X now] s Hundef);
        [by rewrite Hk|intros p; by eexists|done|done].
    + apply (run_reaches now (getPubkey s) (present events) e KeyRelays
               relays_kind10001 [] [] s Hundef);
        [by rewrite Hk|intros p; by eexists|done|done].
    + apply (run_reaches now (getPubkey s) (present events) e KeyRelays
               relays_kind10002 [] [routes_kind10002 X now] s Hundef);
        [by rewrite Hk|intros p; by eexists|done|done].
  - intros Hk Hread.
    apply (run_reaches now (getPubkey s) (present events) e KeyRelays
             (relays_kind3 X) [handle_petnames now] [routes_kind3 X now] s
             Hundef);
      [by rewrite Hk|intros p; exact Hread|done|done].
  - intros Hk.
    apply (run_reaches now (getPubkey s) (present events) e KeyMutes
             mutes_kind10000 [] [] s Hundef);
      [by rewrite Hk|intros p; by eexists|done|done].
Qed.

End ProfileOrder.

(** * Examples *)

Definition junk_profile : Event := mkEvent "j0" "carol" 0 7 "{not json" [].

(** A contact list whose second relay has [null] for its conditions, and the
    same list cut before it. *)
Definition contacts_full : string :=
  "{" +:+ quoted "wss://a" +:+ ":{}," +:+ quoted "wss://b" +:+ ":null,"
      +:+ quoted "wss://c" +:+ ":{}}".

Definition contacts_cut : string := "{" +:+ quoted "wss://a" +:+ ":{}}".

Definition contacts_parse (doc : string) : option json :=
  if String.eqb doc contacts_full
  then Some (JObj [("wss://a", JObj []); ("wss://b", JNull);
                   ("wss://c", JObj [])])
  else if String.eqb doc contacts_cut then Some (JObj [("wss://a", JObj [])])
  else None.

Definition sample_contacts : Externals :=
  mkExternals contacts_parse (isRelay sample) (isShareableRelay sample)
    (normalizeRelayUrl sample) (hash sample) (hexToBech32 sample)
    (bech32ToHex sample) (roomAttrs sample) (uniqByUrl sample).

Definition full_contacts : Event :=
  mkEvent "k3" "carol" 3 1700000000 contacts_full [].

Definition cut_contacts : Event :=
  mkEvent "k4" "carol" 3 1700000000 contacts_cut [].

(** The route the three sample calls leave. *)
Definition sample_route : Route :=
  default (mkRoute EmptyString EmptyString EmptyString EmptyString 0 0 [] None)
    (routes (run sample sample_calls empty_state)
       !! "pk1wss://relay.examplewrite").

Lemma keyed_empty : keyed empty_state.
Proof.
  intros k r Hr. change (routes empty_state) with (∅ : gmap string Route) in Hr.
  by rewrite lookup_empty in Hr.
Defined.

Lemma linked_empty : linked empty_state.
Proof.
  intros k r Hr. change (routes empty_state) with (∅ : gmap string Route) in Hr.
  by rewrite lookup_empty in Hr.
Defined.

Lemma processEvents_compose_witness :
  isShareableRelay sample None = false
  ∧ exec (processEvents sample 2000
            (Many ([Some carol_profile] ++ [Some carol_relays]))) empty_state
    = exec (processEvents sample 2000 (Many [Some carol_relays]))
        (exec (processEvents sample 2000 (Many [Some carol_profile]))
           empty_state).
Proof.
  split; [reflexivity|].
  refine (proj1 (processEvents_compose sample 2000 [Some carol_profile]
                   [Some carol_relays] empty_state _)).
  reflexivity.
Defined.

Lemma own_events_archived_witness :
  let batch := Many [Some my_profile; Some carol_profile] in
  isShareableRelay sample None = false
  ∧ my_profile ∈ present batch
  ∧ Some (ev_pubkey my_profile) = getPubkey me_fresh
  ∧ ∃ e', userEvents (exec (processEvents sample 2000 batch) me_fresh)
            !! ev_id my_profile = Some e'
          ∧ e' ∈ present batch ∧ ev_id e' = ev_id my_profile
          ∧ Some (ev_pubkey e') = getPubkey me_fresh.
Proof.
  intros batch.
  assert (Hin : my_profile ∈ present batch) by apply list_elem_of_here.
  split; [reflexivity|]. split; [exact Hin|]. split; [reflexivity|].
  refine (proj1 (proj2 (own_events_archived sample 2000 batch me_fresh _))
            my_profile Hin _); reflexivity.
Defined.

Lemma strangers_leave_profile_witness :
  isShareableRelay sample None = false
  ∧ profile (exec (processEvents sample 2000 (One (Some carol_profile)))
               me_fresh)
    = profile me_fresh.
Proof.
  split; [reflexivity|].
  refine (proj1 (proj2 (strangers_leave_profile sample 2000
                          (One (Some carol_profile)) me_fresh _)) _);
    [reflexivity|].
  intros e He. apply list_elem_of_singleton in He as ->. discriminate.
Defined.

Lemma timestamps_dominate_witness :
  let batch := One (Some carol_profile) in
  let k0 := JObj [("name", JStr "a")] in
  isShareableRelay sample None = false
  ∧ JSON_parse sample (content carol_profile) = Some k0
  ∧ mergeable k0
  ∧ ∃ T, kind0_at (exec (processEvents sample 2000 batch) empty_state)
           (ev_pubkey carol_profile) = Some T
         ∧ (created_at carol_profile ≤ T)%Z.
Proof.
  intros batch k0.
  assert (Hk0 : mergeable k0) by (split; [discriminate|discriminate]).
  split; [reflexivity|]. split; [reflexivity|]. split; [exact Hk0|].
  refine (proj1 (proj2 (proj2 (proj2 (timestamps_dominate sample 2000 batch
                                        empty_state _))))
            carol_profile k0 _ _ _ Hk0);
    first [reflexivity|apply list_elem_of_here].
Defined.

Lemma batches_do_not_verify_witness :
  isShareableRelay sample None = false
  ∧ is_Some (people alice_at_100 !! "alice")
  ∧ is_Some (people (exec (processEvents sample 2000 (One (Some stale_kind0)))
                       alice_at_100) !! "alice").
Proof.
  assert (Hrow : is_Some (people alice_at_100 !! "alice")) by (by eexists).
  split; [reflexivity|]. split; [exact Hrow|].
  refine (proj1 (batches_do_not_verify sample 2000 (One (Some stale_kind0))
                   alice_at_100 _) "alice" Hrow).
  reflexivity.
Defined.

Lemma kind0_shallow_merge_witness :
  let k0 := JObj [("name", JStr "a")] in
  js_lt (created_at carol_profile)
    (kind0_at empty_state (ev_pubkey carol_profile)) = false
  ∧ JSON_parse sample (content carol_profile) = Some k0
  ∧ mergeable k0
  ∧ kind0_at (exec (handle_kind0 sample 2000 carol_profile) empty_state)
      (ev_pubkey carol_profile) = Some (created_at carol_profile).
Proof.
  intros k0.
  assert (Hk0 : mergeable k0) by (split; [discriminate|discriminate]).
  split; [reflexivity|]. split; [reflexivity|]. split; [exact Hk0|].
  refine (proj2 (kind0_shallow_merge sample 2000 carol_profile empty_state k0
                   _ _ Hk0)); reflexivity.
Defined.

Lemma kind0_dropped_witness :
  JSON_parse sample (content junk_profile) = None
  ∧ handle_kind0 sample 2000 junk_profile alice_at_100 = (Ok tt, alice_at_100).
Proof.
  split; [reflexivity|].
  refine (proj1 (kind0_dropped sample 2000 junk_profile alice_at_100) _).
  reflexivity.
Defined.

Lemma room_updates_witness :
  let attrs : gmap string json := {[ "name" := JStr "a" ]} in
  first_e_value a_room_update = Some "r0"
  ∧ room_content sample a_room_update = Some attrs
  ∧ rooms (exec (handle_kind41 sample a_room_update) empty_state) !! "r0"
    = Some (mkRoom (Some "dave") (Some 70%Z) (attrs ∪ ∅)).
Proof.
  intros attrs. split; [reflexivity|]. split; [reflexivity|].
  refine (proj1 (proj2 (proj2 (room_updates sample a_room_update empty_state))
                   "r0" attrs _ _ _ _ _)); reflexivity.
Defined.

Lemma rooms_stay_whitelisted_witness :
  isShareableRelay sample None = false
  ∧ whitelisted sample (rooms empty_state)
  ∧ whitelisted sample
      (rooms (exec (processEvents sample 2000 (One (Some a_room)))
                empty_state)).
Proof.
  assert (Hw : whitelisted sample (rooms empty_state)).
  { intros id r k Hr.
    change (rooms empty_state) with (∅ : gmap string Room) in Hr.
    by rewrite lookup_empty in Hr. }
  split; [reflexivity|]. split; [exact Hw|].
  exact (rooms_stay_whitelisted sample 2000 (One (Some a_room)) empty_state
           eq_refl Hw).
Defined.

Lemma route_tables_stay_linked_witness :
  let s' := exec (processEvents sample 1700000000 (One (Some carol_relays)))
              empty_state in
  keyed empty_state ∧ linked empty_state ∧ keyed s' ∧ linked s'.
Proof.
  intros s'. split; [exact keyed_empty|]. split; [exact linked_empty|].
  exact (proj1 (route_tables_stay_linked sample 1700000000
                  (One (Some carol_relays)) "carol" "carol@x.org" None
                  empty_state keyed_empty linked_empty)).
Defined.

Lemma route_tables_only_grow_witness :
  keyed empty_state ∧ linked empty_state
  ∧ grows empty_state
      (exec (processEvents sample 1700000000 (One (Some carol_relays)))
         empty_state).
Proof.
  split; [exact keyed_empty|]. split; [exact linked_empty|].
  exact (proj1 (route_tables_only_grow sample 1700000000
                  (One (Some carol_relays)) "carol" "carol@x.org" None
                  empty_state keyed_empty linked_empty)).
Defined.

Lemma sample_route_stored :
  routes (run sample sample_calls empty_state)
    !! "pk1wss://relay.examplewrite" = Some sample_route.
Proof. vm_compute. reflexivity. Defined.

Lemma route_types_are_a_set_witness :
  routes empty_state = ∅
  ∧ routes (run sample sample_calls empty_state)
      !! "pk1wss://relay.examplewrite" = Some sample_route
  ∧ NoDup (types sample_route).
Proof.
  split; [reflexivity|]. split; [exact sample_route_stored|].
  exact (proj1 (route_types_are_a_set sample sample_calls empty_state
                  "pk1wss://relay.examplewrite" sample_route eq_refl
                  sample_route_stored)).
Defined.



Lemma kind3_relay_list_witness :
  let v := JObj [("wss://a", JObj []); ("wss://b", JNull);
                 ("wss://c", JObj [])] in
  JSON_parse sample_contacts (content full_contacts) = Some v
  ∧ ("wss://b", JNull) ∈ own_entries v
  ∧ relays_kind3 sample_contacts full_contacts empty_profile = None.
Proof.
  intros v.
  assert (Hin : ("wss://b", JNull) ∈ own_entries v)
    by apply list_elem_of_further, list_elem_of_here.
  split; [reflexivity|]. split; [exact Hin|].
  refine (proj2 (kind3_relay_list sample_contacts full_contacts empty_profile)
            v "wss://b" _ Hin).
  reflexivity.
Defined.

Lemma kind3_routes_stop_at_null_witness :
  let before := [("wss://a", JObj [])] in
  let after := [("wss://c", JObj [])] in
  let s' := exec (routes_kind3 sample_contacts 1700000000 full_contacts)
              empty_state in
  JSON_parse sample_contacts (content full_contacts)
  = Some (JObj (before ++ ("wss://b", JNull) :: after))
  ∧ (∀ kv, kv ∈ before → kv.2 ≠ JNull)
  ∧ JSON_parse sample_contacts (content cut_contacts) = Some (JObj before)
  ∧ s' = exec (routes_kind3 sample_contacts 1700000000 cut_contacts) empty_state
  ∧ (route_count empty_state "carolwss://awrite" + 1
     ≤ route_count s' "carolwss://awrite")%nat
  ∧ route_count s' "carolwss://cwrite" = 0%nat.
Proof.
  intros before after s'.
  assert (Hbefore : ∀ kv, kv ∈ before → kv.2 ≠ JNull).
  { intros kv Hkv. apply list_elem_of_singleton in Hkv as ->. discriminate. }
  split; [reflexivity|]. split; [exact Hbefore|]. split; [reflexivity|].
  destruct (kind3_routes_stop_at_null sample_contacts 1700000000 full_contacts
              empty_state before after "wss://b" eq_refl Hbefore)
    as (Hrun & Hcut & Hcount).
  split; [exact (Hcut cut_contacts eq_refl eq_refl eq_refl)|].
  split.
  - refine (Hcount "wss://a" (JObj []) "write" _ _ _ _ keyed_empty _);
      first [reflexivity|apply list_elem_of_here|by left].
  - unfold s'. rewrite Hrun. vm_compute. reflexivity.
Defined.

Lemma kind10002_two_readings_witness :
  let id := route_key sample (ev_pubkey carol_relays)
              (normalizeRelayUrl sample "wss://relay.example") "write" in
  isShareableRelay sample None = false
  ∧ keyed empty_state
  ∧ (1700000600 - created_at carol_relays < thirty_days)%Z
  ∧ (route_count empty_state id + 1
     ≤ route_count
         (exec (routes_kind10002 sample 1700000600 carol_relays) empty_state)
         id)%nat.
Proof.
  intros id. split; [reflexivity|]. split; [exact keyed_empty|].
  split; [reflexivity|].
  refine (proj2 (kind10002_two_readings sample 1700000600 carol_relays
                   empty_profile empty_state)
            ["r"; "wss://relay.example"; "write"] "wss://relay.example"
            "write" _ keyed_empty _ _ _ _ _ _);
    first [reflexivity|apply list_elem_of_here].
Defined.

Lemma zapper_addresses_witness :
  startsWith "lnurl1" "b@x.org" = false
  ∧ includes "@"%char "b" = false ∧ includes "@"%char "x.org" = false
  ∧ zapper_url sample "b@x.org" = Some "https://x.org/.well-known/lnurlp/b".
Proof.
  split; [reflexivity|]. split; [reflexivity|]. split; [reflexivity|].
  refine (proj1 (proj2 (zapper_addresses sample 2000 (fun _ => None) "carol"
                          "b@x.org" empty_state))
            "b" "x.org" _ _ _ _); reflexivity.
Defined.

Lemma nip05_gate_witness :
  let res := Some (mkNip05Result (Some "carol")
                     (Some ["wss://relay.example"; "junk"])) in
  let s' := exec (verifyNip05 sample 2000 "carol" "carol@x.org" res)
              empty_state in
  res ≫= nr_pubkey = Some "carol"
  ∧ isRelay sample "wss://relay.example" = true
  ∧ keyed empty_state ∧ linked empty_state
  ∧ is_Some (relays s' !! normalizeRelayUrl sample "wss://relay.example").
Proof.
  intros res s'. split; [reflexivity|]. split; [reflexivity|].
  split; [exact keyed_empty|]. split; [exact linked_empty|].
  refine (proj2 (proj2 (nip05_gate sample 2000 "carol" "carol@x.org" res
                          empty_state) _)
            keyed_empty linked_empty ["wss://relay.example"; "junk"]
            "wss://relay.example" _ _ _);
    first [reflexivity|apply list_elem_of_here].
Defined.

Lemma kind0_is_merged : merged_field kind0.
Proof. intros data old. reflexivity. Defined.

Lemma me_fresh_mirrored : mirrored kind0 me_fresh.
Proof. intros me Hme. reflexivity. Defined.

Lemma profile_mirrors_identity_witness :
  merged_field kind0
  ∧ mirrored kind0 me_fresh
  ∧ mirrored kind0
      (exec (processEvents sample 2000 (One (Some my_profile))) me_fresh).
Proof.
  split; [exact kind0_is_merged|]. split; [exact me_fresh_mirrored|].
  exact (proj1 (profile_mirrors_identity sample kind0 2000 me_fresh
                  kind0_is_merged)
           (One (Some my_profile)) me_fresh_mirrored).
Defined.

Lemma profile_timestamps_dominate_witness :
  let batch := Many [Some my_mutes; Some my_relays] in
  isShareableRelay sample None = false
  ∧ my_relays ∈ present batch
  ∧ getPubkey me_fresh = Some (ev_pubkey my_relays)
  ∧ reaches KeyRelays (exec (processEvents sample 2000 batch) me_fresh)
      (created_at my_relays).
Proof.
  intros batch.
  assert (Hin : my_relays ∈ present batch)
    by apply list_elem_of_further, list_elem_of_here.
  split; [reflexivity|]. split; [exact Hin|]. split; [reflexivity|].
  refine (proj1 (proj2 (profile_timestamps_dominate sample 2000 batch me_fresh
                          _) my_relays Hin _) _);
    first [reflexivity|by right; right].
Defined.
